(** * Geometry hashing and bounding boxes of the D3D9 front end

    A shallow embedding of the geometry unit of [D3D9Rtx]: the index
    deduplicator [deduplicateSortIndices], the geometry hasher
    [hashGeometryData], the submission routines [computeHash] and
    [computeAxisAlignedBoundingBox], and the properties the specification
    states about them. Further properties of this code follow, with the
    profile selection and settings of the upscaler ([DxvkFSR3]) and the
    adapter filter ([DxvkDeviceFilter]).

    Conventions.
    - A [uint32_t], [uint16_t] or [size_t] is a [Z]; where the source can wrap
      around, the wrap is written out ([wrap32], [castT]).
    - Mapped memory is a function from addresses to bytes; a pointer is an
      address, [0] is [nullptr]. The function is total: a read is not
      judged, neither through [nullptr] nor outside a mapping. The faults
      of the model are those of [fault]; a theorem that says how an
      operation ends assumes that the attached buffers are mapped.
    - A [std::vector<T>] is a [list Z]; [operator[]] outside the vector has no
      defined behaviour in C++ and is a [Fault] here.
    - [assert] is compiled out ([NDEBUG]); what it guards is a hypothesis of
      the theorems that need it. *)

From Stdlib Require Import ZArith Lia Strings.Byte.
From Stdlib Require Strings.Ascii Strings.String.
From stdpp Require Import base tactics option list numbers sorting.

Local Open Scope Z_scope.

(** ** Outcomes of a run *)

Inductive fault : Set :=
| OutOfBounds   (* operator[] past the end of a vector *)
| NullDeref     (* member call through a null pointer *)
| Diverges.     (* a loop whose 32-bit counter cannot reach its bound *)

Inductive run (A : Type) : Type :=
| Ret (a : A)
| Fault (f : fault).
Arguments Ret {A} a.
Arguments Fault {A} f.

#[global] Instance run_bind : MBind run := fun A B k m =>
  match m with
  | Ret a => k a
  | Fault f => Fault f
  end.

(** [for (uint32_t j = i; j < i + k; j++) body(j)], threading the state. *)
Fixpoint for_range {St : Type} (i k : nat) (body : Z -> St -> run St) (s : St) : run St :=
  match k with
  | O => Ret s
  | S k' => s' ← body (Z.of_nat i) s; for_range (S i) k' body s'
  end.

(** ** Machine integers and memory *)

Definition wrap32 (z : Z) : Z := z mod 2 ^ 32.

(** The element type [T] of an index buffer. *)
Inductive IndexT : Set := UInt16 | UInt32.

Definition sizeofT (T : IndexT) : Z :=
  match T with UInt16 => 2 | UInt32 => 4 end.

(** The conversion [(T) z] of an unsigned value. *)
Definition castT (T : IndexT) (z : Z) : Z := z mod 2 ^ (8 * sizeofT T).

Definition Memory : Type := Z -> byte.

Definition byte_val (b : byte) : Z := Z.of_N (Byte.to_N b).

(** The [n] bytes at [p], [p + 1], ... *)
Fixpoint read_bytes (mem : Memory) (p : Z) (n : nat) : list byte :=
  match n with
  | O => []
  | S n' => mem p :: read_bytes mem (p + 1) n'
  end.

(** Little-endian value of a byte string. *)
Fixpoint le_val (bs : list byte) : Z :=
  match bs with
  | [] => 0
  | b :: bs' => byte_val b + 256 * le_val bs'
  end.

(** [((T* ) p)[i]]. *)
Definition loadT (T : IndexT) (mem : Memory) (p : Z) (i : Z) : Z :=
  le_val (read_bytes mem (p + i * sizeofT T) (Z.to_nat (sizeofT T))).

(** ** Vectors *)

Definition vec_get (v : list Z) (i : Z) : run Z :=
  match v !! Z.to_nat i with
  | Some x => Ret x
  | None => Fault OutOfBounds
  end.

Definition vec_set (v : list Z) (i : Z) (x : Z) : run (list Z) :=
  if bool_decide (Z.to_nat i < length v)%nat
  then Ret (<[Z.to_nat i := x]> v)
  else Fault OutOfBounds.

(** ** The index deduplicator *)

(** Body of the first loop: [uniqueIndicesOut[index] = 1]. *)
Definition mark_bin (T : IndexT) (mem : Memory) (pIndexData : Z)
    (i : Z) (out : list Z) : run (list Z) :=
  let index := loadT T mem pIndexData i in
  vec_set out index 1.

(** Body of the second loop:
    [if (uniqueIndicesOut[i]) uniqueIndicesOut[uniqueIndexCount++] = i]. *)
Definition compact_bin (T : IndexT) (i : Z) (st : list Z * Z) : run (list Z * Z) :=
  let '(out, uniqueIndexCount) := st in
  b ← vec_get out i;
  if b =? 0 then Ret (out, uniqueIndexCount)
  else out' ← vec_set out uniqueIndexCount (castT T i);
       Ret (out', wrap32 (uniqueIndexCount + 1)).

Definition deduplicateSortIndices (T : IndexT) (mem : Memory) (pIndexData : Z)
    (indexCount : Z) (maxIndexValue : Z) (uniqueIndicesOut : list Z) : run (list Z) :=
  let indexRange := wrap32 (maxIndexValue + 1) in
  let out := resize (Z.to_nat indexRange) (castT T 0) uniqueIndicesOut in
  (* the counter is a uint32_t, the bound a size_t *)
  if 2 ^ 32 <=? indexCount then Fault Diverges else
  out ← for_range 0 (Z.to_nat indexCount) (mark_bin T mem pIndexData) out;
  '(out, uniqueIndexCount) ←
     for_range 0 (Z.to_nat indexRange) (compact_bin T) (out, 0);
  Ret (resize (Z.to_nat uniqueIndexCount) 0 out).

(** The index values held by the buffer, in buffer order. *)
Definition index_values (T : IndexT) (mem : Memory) (pIndexData : Z) (indexCount : Z) : list Z :=
  (fun i => loadT T mem pIndexData (Z.of_nat i)) <$> seq 0 (Z.to_nat indexCount).

(** ** Data model *)

Definition XXH64_hash_t : Set := Z.

(** Identity of a [DxvkBuffer] object. *)
Definition BufId : Set := nat.

(** Calls on the buffer lifetime interface, and hand-offs to the worker
    pool, in program order. *)
Inductive Event : Set :=
| Acquire (b : BufId)
| Release (b : BufId)
| IncRef (b : BufId)
| DecRef (b : BufId)
| Schedule.

#[global] Instance Event_eq_dec : EqDecision Event.
Proof. solve_decision. Defined.

(** Modelled from the spec: [HashComponents] is declared in [rtx_hashing.h],
    which is not part of the sources; these are the components the
    specification enumerates, in its order ([Count] is their number). *)
Inductive HashComponents : Set :=
| VertexPosition
| VertexTexcoord
| Indices
| LegacyIndices
| LegacyPositions0
| LegacyPositions1
| GeometryDescriptor
| VertexLayout
| VertexShader.

#[global] Instance HashComponents_eq_dec : EqDecision HashComponents.
Proof. solve_decision. Defined.

(** [for (uint32_t i = 0; i < (uint32_t) HashComponents::Count; i++)]. *)
Definition all_components : list HashComponents :=
  [VertexPosition; VertexTexcoord; Indices; LegacyIndices; LegacyPositions0;
   LegacyPositions1; GeometryDescriptor; VertexLayout; VertexShader].

(** A [HashRule] answers [test(component)]. *)
Definition HashRule : Type := HashComponents -> bool.

Module VertexRegions.
Inductive Type_ : Set := Position | Texcoord.
Definition all : list Type_ := [Position; Texcoord].
End VertexRegions.

(** [componentToRegionMap]: [count(c) > 0] is [is_Some], [at(c)] the value. *)
Definition componentToRegionMap (c : HashComponents) : option VertexRegions.Type_ :=
  match c with
  | VertexPosition => Some VertexRegions.Position
  | VertexTexcoord => Some VertexRegions.Texcoord
  | _ => None
  end.

(** Modelled from the spec: [RasterBuffer] is declared outside the sources.
    It is a slice of a buffer with a stride and a format; it is defined
    exactly when a buffer is attached (what [assert(outResult.ref)] in
    [getVertexRegion] relies on). *)
Record RasterBuffer : Type := {
  rb_buffer : option BufId;      (* buffer().ptr() *)
  rb_offsetFromSlice : Z;
  rb_stride : Z;
  rb_elementSize : Z;            (* imageFormatInfo(vertexFormat())->elementSize *)
  rb_indexType : Z
}.

Definition rb_defined (b : RasterBuffer) : bool :=
  match rb_buffer b with Some _ => true | None => false end.

Record RasterGeometry : Type := {
  indexBuffer : RasterBuffer;
  positionBuffer : RasterBuffer;
  texcoordBuffer : RasterBuffer;
  vertexCount : Z;
  indexCount : Z;
  topology : Z
}.

(** What the routines read of their surroundings: the mapped memory and,
    for a slice of an attached buffer, the address of its mapping at an
    offset. *)
Record World : Type := {
  mem : Memory;
  bufferMapPtr : RasterBuffer -> Z -> Z
}.

(** Modelled from the spec: [mapPtr] is declared with [RasterBuffer]. The
    pointer is resolved through the mapping of the owning buffer; a slice
    with no buffer has no mapping and yields [nullptr]. *)
Definition mapPtr (w : World) (buffer : RasterBuffer) (offset : Z) : Z :=
  match rb_buffer buffer with
  | Some _ => bufferMapPtr w buffer offset
  | None => 0
  end.

(** The vertex shader state read by [computeHash]. *)
Record VertexShaderState : Type := {
  UseProgrammableVS : bool;
  useVertexCapture : bool;
  shaderByteCode : list byte;
  fConsts : list byte;
  iConsts : list byte;
  bConsts : list byte;
  maxConstIndexF : Z;
  maxConstIndexI : Z;
  maxConstIndexB : Z
}.

Record RtxOptions : Type := {
  geometryHashGenerationRule : HashRule;
  needsMeshBoundingBox : bool
}.

Record HashQuery : Type := {
  pBase : Z;
  elementSize : Z;
  stride : Z;
  size : Z;
  ref : option BufId
}.

(** [memset(&vertexRegions[0], 0, sizeof(vertexRegions))]. *)
Definition zeroQuery : HashQuery :=
  {| pBase := 0; elementSize := 0; stride := 0; size := 0; ref := None |}.

(** What a legacy hash is given of a region: its shape and its bytes. *)
Record RegionView : Type := {
  rv_elementSize : Z;
  rv_stride : Z;
  rv_size : Z;
  rv_bytes : list byte
}.

(** The functions of [rtx_hashing.h] and of xxHash that the sources call
    and do not define. Each is a function of the bytes it is pointed at. *)
Record Hashing : Type := {
  kEmptyHash : XXH64_hash_t;
  hashContiguousMemory : list byte -> XXH64_hash_t;
  hashIndicesLegacy : IndexT -> list Z -> XXH64_hash_t;
  hashByteStream : list byte -> XXH64_hash_t;
  hashRegionLegacy : RegionView -> XXH64_hash_t * XXH64_hash_t -> XXH64_hash_t * XXH64_hash_t;
  hashGeometryDescriptor : Z -> Z -> Z -> Z -> XXH64_hash_t;
  hashVertexLayout : RasterGeometry -> XXH64_hash_t;
  XXH3_64bits : list byte -> XXH64_hash_t;
  XXH3_64bits_withSeed : list byte -> XXH64_hash_t -> XXH64_hash_t;
  hashCombine : XXH64_hash_t -> XXH64_hash_t -> XXH64_hash_t
}.

(** Modelled from the spec: [GeometryHashes] is declared in [rtx_hashing.h].
    A fixed-size mapping from components to hashes, every entry the empty
    hash until it is assigned, and a combined hash. *)
Record GeometryHashes : Type := {
  fields : HashComponents -> XXH64_hash_t;
  precombined : XXH64_hash_t
}.

(** [hashes[c] = v]. *)
Definition set_hash (h : GeometryHashes) (c : HashComponents) (v : XXH64_hash_t) : GeometryHashes :=
  {| fields := fun c' => if decide (c' = c) then v else fields h c';
     precombined := precombined h |}.

Inductive Future (A : Type) : Type :=
| Invalid                 (* default-constructed *)
| Scheduled (task : A).   (* returned by Schedule *)
Arguments Invalid {A}.
Arguments Scheduled {A} task.

Definition valid {A} (f : Future A) : bool :=
  match f with Invalid => false | Scheduled _ => true end.

(** The template argument of [hashGeometryData]. *)
Inductive IndexArg : Set :=
| Indexed (T : IndexT)
| NoIndices.

(** The values captured by the closure of [computeHash]. *)
Record HashTask : Type := {
  t_vertexRegions : VertexRegions.Type_ -> HashQuery;
  t_indexBufferRef : option BufId;
  t_pIndexData : Z;
  t_indexStride : Z;
  t_indexDataSize : Z;
  t_indexCount : Z;
  t_maxIndexValue : Z;
  t_vertexShaderHash : XXH64_hash_t;
  t_geometryDescriptorHash : XXH64_hash_t;
  t_vertexLayoutHash : XXH64_hash_t
}.

(** [ref->acquire(DxvkAccess::Read); ref->incRef();] *)
Definition acquire_incRef (r : option BufId) : run (list Event) :=
  match r with
  | Some b => Ret [Acquire b; IncRef b]
  | None => Fault NullDeref
  end.

(** [ref->release(DxvkAccess::Read); ref->decRef();] *)
Definition release_decRef (r : option BufId) : run (list Event) :=
  match r with
  | Some b => Ret [Release b; DecRef b]
  | None => Fault NullDeref
  end.

Definition getVertexRegion (w : World) (buffer : RasterBuffer) (vertexCount : Z)
    : option HashQuery :=
  if rb_defined buffer then
    Some {| pBase := mapPtr w buffer (rb_offsetFromSlice buffer);
            elementSize := rb_elementSize buffer;
            stride := rb_stride buffer;
            size := rb_stride buffer * vertexCount;
            ref := rb_buffer buffer |}
  else None.

Section Hasher.
Context (H : Hashing) (options : RtxOptions) (w : World).

Let globalHashRule : HashRule := geometryHashGenerationRule options.

(** [GeometryHashes hashes;] *)
Definition emptyHashes : GeometryHashes :=
  {| fields := fun _ => kEmptyHash H; precombined := kEmptyHash H |}.

(** The bytes of vertex [i] of a region. *)
Definition vertex_bytes (q : HashQuery) (i : Z) : list byte :=
  read_bytes (mem w) (pBase q + i * stride q) (Z.to_nat (elementSize q)).

(** Modelled from the spec: [hashVertexRegionIndexed] is declared in
    [rtx_hashing.h]. It hashes the byte ranges addressed by the unique
    index list, concatenated in that order; for non-indexed geometry it
    falls back to the full contiguous vertex range of the region, as all
    indices 0 .. vertexCount - 1. The function is handed the region and the
    index list only ([hashGeometryData] has no vertex count to pass), and a
    region records its byte size, [stride * vertexCount], not the count: the
    vertices of the full range are those the size holds, the size over the
    stride. A region of size 0 (no vertices, or a stride of 0) has an empty
    range, as for the release loop of [hashGeometryData]. *)
Definition referenced (q : HashQuery) (T : IndexArg) (uniqueIndices : list Z) : list Z :=
  match T with
  | Indexed _ => uniqueIndices
  | NoIndices => seqZ 0 (size q / stride q)
  end.

Definition hashVertexRegionIndexed (q : HashQuery) (T : IndexArg) (uniqueIndices : list Z)
    : XXH64_hash_t :=
  hashByteStream H (concat (vertex_bytes q <$> referenced q T uniqueIndices)).

Definition region_view (q : HashQuery) : RegionView :=
  {| rv_elementSize := elementSize q;
     rv_stride := stride q;
     rv_size := size q;
     rv_bytes := read_bytes (mem w) (pBase q) (Z.to_nat (size q)) |}.

(** Modelled from the spec: [precombine] folds the component hashes, in
    the order of the enumeration, skipping the inactive and the empty
    ones, into the combined hash. *)
Definition precombine (h : GeometryHashes) : GeometryHashes :=
  {| fields := fields h;
     precombined :=
       foldl (fun acc c =>
                if globalHashRule c && negb (fields h c =? kEmptyHash H)
                then hashCombine H acc (fields h c) else acc)
             (kEmptyHash H) all_components |}.

(** The indexed branch of [hashGeometryData] ([if constexpr]): the unique
    indices, the index hashes, and the release of the index buffer. *)
Definition hashIndexData (T : IndexT) (indexCount maxIndexValue pIndexData : Z)
    (indexBufferRef : option BufId) (hashesOut : GeometryHashes)
    : run (list Z * GeometryHashes * list Event) :=
  uniqueIndices ← deduplicateSortIndices T (mem w) pIndexData indexCount maxIndexValue [];
  let h1 :=
    if globalHashRule Indices then
      set_hash hashesOut Indices
        (hashContiguousMemory H
           (read_bytes (mem w) pIndexData (Z.to_nat (indexCount * sizeofT T))))
    else hashesOut in
  let h2 :=
    if globalHashRule LegacyIndices then
      set_hash h1 LegacyIndices
        (hashIndicesLegacy H T (index_values T (mem w) pIndexData indexCount))
    else h1 in
  ev ← release_decRef indexBufferRef;
  Ret (uniqueIndices, h2, ev).

(** One round of the loop over the components. *)
Definition hashVertexComponent (T : IndexArg) (vertexRegions : VertexRegions.Type_ -> HashQuery)
    (uniqueIndices : list Z) (h : GeometryHashes) (component : HashComponents)
    : GeometryHashes :=
  match componentToRegionMap component with
  | Some region =>
      if globalHashRule component then
        set_hash h component
          (hashVertexRegionIndexed (vertexRegions region) T uniqueIndices)
      else h
  | None => h
  end.

(** One round of the loop that releases the vertex regions. *)
Definition releaseRegion (region : HashQuery) : list Event :=
  if size region =? 0 then []
  else match ref region with
       | Some b => [Release b; DecRef b]
       | None => []
       end.

Definition hashGeometryData (T : IndexArg) (indexCount maxIndexValue pIndexData : Z)
    (indexBufferRef : option BufId) (vertexRegions : VertexRegions.Type_ -> HashQuery)
    (hashesOut : GeometryHashes) : run (GeometryHashes * list Event) :=
  '(uniqueIndices, h, ev1) ←
    match T with
    | Indexed T' =>
        hashIndexData T' indexCount maxIndexValue pIndexData indexBufferRef hashesOut
    | NoIndices => Ret ([], hashesOut, [])
    end;
  let h := foldl (hashVertexComponent T vertexRegions uniqueIndices) h all_components in
  let h :=
    if globalHashRule LegacyPositions0 || globalHashRule LegacyPositions1 then
      let '(h0, h1) :=
        hashRegionLegacy H (region_view (vertexRegions VertexRegions.Position))
          (fields h LegacyPositions0, fields h LegacyPositions1) in
      set_hash (set_hash h LegacyPositions0 h0) LegacyPositions1 h1
    else h in
  let ev2 := concat ((fun r => releaseRegion (vertexRegions r)) <$> VertexRegions.all) in
  Ret (h, ev1 ++ ev2).

(** [switch (indexStride)]: the instance of [hashGeometryData] that runs. *)
Definition indexArgOf (indexStride : Z) : IndexArg :=
  if indexStride =? 2 then Indexed UInt16
  else if indexStride =? 4 then Indexed UInt32
  else NoIndices.

(** The closure scheduled by [computeHash]. *)
Definition runHashTask (t : HashTask) : run (GeometryHashes * list Event) :=
  let hashes := emptyHashes in
  let hashes := set_hash hashes GeometryDescriptor (t_geometryDescriptorHash t) in
  let hashes := set_hash hashes VertexLayout (t_vertexLayoutHash t) in
  let hashes := set_hash hashes VertexShader (t_vertexShaderHash t) in
  '(hashes, ev) ←
    hashGeometryData (indexArgOf (t_indexStride t)) (t_indexCount t) (t_maxIndexValue t) (t_pIndexData t)
      (t_indexBufferRef t) (t_vertexRegions t) hashes;
  Ret (precombine hashes, ev).

(** The hash of the vertex shader and its constants. *)
Definition computeVertexShaderHash (vs : VertexShaderState) : XXH64_hash_t :=
  if UseProgrammableVS vs && useVertexCapture vs then
    if globalHashRule GeometryDescriptor then
      let h := XXH3_64bits H (shaderByteCode vs) in
      let h := XXH3_64bits_withSeed H
                 (take (Z.to_nat (maxConstIndexF vs * 4 * 4)) (fConsts vs)) h in
      let h := XXH3_64bits_withSeed H
                 (take (Z.to_nat (maxConstIndexI vs * 4 * 4)) (iConsts vs)) h in
      XXH3_64bits_withSeed H
        (take (Z.to_nat (maxConstIndexB vs * 4 / 32)) (bConsts vs)) h
    else kEmptyHash H
  else kEmptyHash H.

Definition computeHash (vs : VertexShaderState) (geoData : RasterGeometry)
    (maxIndexValue : Z) : run (Future HashTask * list Event) :=
  let indexCount' := wrap32 (indexCount geoData) in
  let vertexCount' := wrap32 (vertexCount geoData) in
  match getVertexRegion w (positionBuffer geoData) vertexCount' with
  | None => Ret (Invalid, [])
  | Some position =>
      ev1 ← acquire_incRef (ref position);
      '(texcoord, ev2) ←
        match getVertexRegion w (texcoordBuffer geoData) vertexCount' with
        | Some texcoord => ev ← acquire_incRef (ref texcoord); Ret (texcoord, ev)
        | None => Ret (zeroQuery, [])
        end;
      let vertexRegions := fun r =>
        match r with
        | VertexRegions.Position => position
        | VertexRegions.Texcoord => texcoord
        end in
      let indexBufferRef := rb_buffer (indexBuffer geoData) in
      ev3 ← match indexBufferRef with
            | Some _ => acquire_incRef indexBufferRef
            | None => Ret []
            end;
      let pIndexData :=
        if rb_defined (indexBuffer geoData) then mapPtr w (indexBuffer geoData) 0 else 0 in
      let indexStride := rb_stride (indexBuffer geoData) in
      let indexDataSize := indexCount' * indexStride in
      let vertexShaderHash := computeVertexShaderHash vs in
      let geometryDescriptorHash :=
        if globalHashRule GeometryDescriptor then
          hashGeometryDescriptor H (indexCount geoData)
            (vertexCount geoData) (rb_indexType (indexBuffer geoData)) (topology geoData)
        else kEmptyHash H in
      let vertexLayoutHash :=
        if globalHashRule VertexLayout then hashVertexLayout H geoData
        else kEmptyHash H in
      Ret (Scheduled
             {| t_vertexRegions := vertexRegions;
                t_indexBufferRef := indexBufferRef;
                t_pIndexData := pIndexData;
                t_indexStride := indexStride;
                t_indexDataSize := indexDataSize;
                t_indexCount := indexCount';
                t_maxIndexValue := maxIndexValue;
                t_vertexShaderHash := vertexShaderHash;
                t_geometryDescriptorHash := geometryDescriptorHash;
                t_vertexLayoutHash := vertexLayoutHash |},
           ev1 ++ ev2 ++ ev3 ++ [Schedule])
  end.

(** One hashing operation: the submission and, when a closure was
    scheduled, its run on a worker. The result keeps the events of the
    submission thread and those of the closure apart. *)
Definition hashOperation (vs : VertexShaderState) (geoData : RasterGeometry)
    (maxIndexValue : Z) : run (option GeometryHashes * list Event * list Event) :=
  '(future, submitted) ← computeHash vs geoData maxIndexValue;
  match future with
  | Invalid => Ret (None, submitted, [])
  | Scheduled task =>
      '(hashes, worked) ← runHashTask task;
      Ret (Some hashes, submitted, worked)
  end.

End Hasher.

(** ** Bounding boxes *)

(** A [float] is its IEEE-754 binary32 bit pattern, a [Z] below [2 ^ 32]:
    bit 31 the sign, bits 30..0 exponent and fraction. Comparison of two
    numbers that are not NaN is comparison of their signed magnitudes, both
    zeros being equal; a NaN compares false with everything. *)
Definition f32_magnitude (x : Z) : Z := x mod 2 ^ 31.
Definition f32_sign (x : Z) : bool := 2 ^ 31 <=? x.
Definition f32_inf : Z := 0x7F800000.
Definition f32_is_nan (x : Z) : bool := f32_inf <? f32_magnitude x.
Definition f32_is_finite (x : Z) : bool := f32_magnitude x <? f32_inf.
Definition f32_key (x : Z) : Z :=
  if f32_sign x then - f32_magnitude x else f32_magnitude x.
Definition f32_lt (a b : Z) : bool :=
  negb (f32_is_nan a) && negb (f32_is_nan b) && (f32_key a <? f32_key b).
Definition f32_neg (x : Z) : Z := Z.lxor x (2 ^ 31).

Definition FLT_MAX : Z := 0x7F7FFFFF.

(** One lane of [MINPS] and [MAXPS]: the first operand when the comparison
    holds, the second operand otherwise (also for a NaN and for two zeros). *)
Definition min_ss (a b : Z) : Z := if f32_lt a b then a else b.
Definition max_ss (a b : Z) : Z := if f32_lt b a then a else b.

Record m128 : Set := { m128_f32_0 : Z; m128_f32_1 : Z; m128_f32_2 : Z; m128_f32_3 : Z }.

Definition _mm_set_ps1 (a : Z) : m128 :=
  {| m128_f32_0 := a; m128_f32_1 := a; m128_f32_2 := a; m128_f32_3 := a |}.
Definition _mm_set_ps (e3 e2 e1 e0 : Z) : m128 :=
  {| m128_f32_0 := e0; m128_f32_1 := e1; m128_f32_2 := e2; m128_f32_3 := e3 |}.
Definition lanewise (op : Z -> Z -> Z) (a b : m128) : m128 :=
  {| m128_f32_0 := op (m128_f32_0 a) (m128_f32_0 b);
     m128_f32_1 := op (m128_f32_1 a) (m128_f32_1 b);
     m128_f32_2 := op (m128_f32_2 a) (m128_f32_2 b);
     m128_f32_3 := op (m128_f32_3 a) (m128_f32_3 b) |}.
Definition _mm_min_ps : m128 -> m128 -> m128 := lanewise min_ss.
Definition _mm_max_ps : m128 -> m128 -> m128 := lanewise max_ss.

Module Vector3.
Record t : Set := { x : Z; y : Z; z : Z }.
End Vector3.

Record AxisAlignedBoundingBox : Set := { minPos : Vector3.t; maxPos : Vector3.t }.

(** [*reinterpret_cast<const Vector3*>(p)]: three little-endian floats. *)
Definition load_f32 (m : Memory) (p : Z) : Z := le_val (read_bytes m p 4).
Definition load_Vector3 (m : Memory) (p : Z) : Vector3.t :=
  {| Vector3.x := load_f32 m p;
     Vector3.y := load_f32 m (p + 4);
     Vector3.z := load_f32 m (p + 8) |}.

(** The values captured by the closure of [computeAxisAlignedBoundingBox]. *)
Record BoundsTask : Set := {
  b_pVertexData : Z;
  b_vertexCount : Z;
  b_vertexStride : Z;
  b_vertexBuffer : BufId
}.

(** The loop's state: [minPos], [maxPos] and [pVertex]. *)
Definition bounds_step (m : Memory) (vertexStride : Z) (vertexIdx : Z)
    (st : m128 * m128 * Z) : run (m128 * m128 * Z) :=
  let '(minPos, maxPos, pVertex) := st in
  let pVertexPos := load_Vector3 m pVertex in
  let vertexPos :=
    _mm_set_ps 0 (Vector3.z pVertexPos) (Vector3.y pVertexPos) (Vector3.x pVertexPos) in
  Ret (_mm_min_ps minPos vertexPos, _mm_max_ps maxPos vertexPos, pVertex + vertexStride).

Definition runBoundsTask (w : World) (t : BoundsTask)
    : run (AxisAlignedBoundingBox * list Event) :=
  let minPos := _mm_set_ps1 FLT_MAX in
  let maxPos := _mm_set_ps1 (f32_neg FLT_MAX) in
  '(minPos, maxPos, _) ←
    for_range 0 (Z.to_nat (b_vertexCount t)) (bounds_step (mem w) (b_vertexStride t))
      (minPos, maxPos, b_pVertexData t);
  let boundingBox :=
    {| minPos := {| Vector3.x := m128_f32_0 minPos;
                    Vector3.y := m128_f32_1 minPos;
                    Vector3.z := m128_f32_2 minPos |};
       maxPos := {| Vector3.x := m128_f32_0 maxPos;
                    Vector3.y := m128_f32_1 maxPos;
                    Vector3.z := m128_f32_2 maxPos |} |} in
  Ret (boundingBox, [DecRef (b_vertexBuffer t)]).

Definition computeAxisAlignedBoundingBox (options : RtxOptions) (w : World)
    (geoData : RasterGeometry) : run (Future BoundsTask * list Event) :=
  if negb (needsMeshBoundingBox options) then Ret (Invalid, []) else
  let pVertexData :=
    mapPtr w (positionBuffer geoData) (rb_offsetFromSlice (positionBuffer geoData)) in
  let vertexCount' := wrap32 (vertexCount geoData) in
  let vertexStride := rb_stride (positionBuffer geoData) in
  if pVertexData =? 0 then Ret (Invalid, []) else
  match rb_buffer (positionBuffer geoData) with
  | None => Fault NullDeref
  | Some vertexBuffer =>
      Ret (Scheduled
             {| b_pVertexData := pVertexData;
                b_vertexCount := vertexCount';
                b_vertexStride := vertexStride;
                b_vertexBuffer := vertexBuffer |},
           [IncRef vertexBuffer; Schedule])
  end.

(** ** The upscaler's profile and sizes *)

(** [enum class FSR3Profile : uint32_t]. A value of the enumeration is its
    number, which is what the casts of [getAutoProfile] work on. *)
Module FSR3Profile.
Definition t : Set := Z.
Definition UltraPerf : t := 0.
Definition MaxPerf : t := 1.
Definition Balanced : t := 2.
Definition MaxQuality : t := 3.
Definition Auto : t := 4.
Definition FullResolution : t := 5.
Definition Invalid : t := 6.
End FSR3Profile.

(** [GraphicsPreset] is declared with the options, outside the sources;
    [getAutoProfile] tells the presets Medium and Low from the others. *)
Module GraphicsPreset.
Inductive t : Set := Medium | Low | Other.
End GraphicsPreset.

(** [RtxOptions::graphicsPreset()] is the first argument. *)
Definition getAutoProfile (graphicsPreset : GraphicsPreset.t)
    (displayWidth displayHeight : Z) : FSR3Profile.t :=
  let desiredProfile :=
    if displayHeight <=? 1080 then FSR3Profile.MaxQuality
    else if displayHeight <? 2160 then FSR3Profile.Balanced
    else if displayHeight <? 4320 then FSR3Profile.MaxPerf
    else FSR3Profile.UltraPerf in
  match graphicsPreset with
  | GraphicsPreset.Medium => wrap32 (Z.max 0 (desiredProfile - 1))
  | GraphicsPreset.Low => wrap32 (Z.max 0 (desiredProfile - 2))
  | GraphicsPreset.Other => desiredProfile
  end.

(** The members of [DxvkFSR3] that [setSetting] reads and writes, with the
    initial values of the class declaration. *)
Record DxvkFSR3 : Set := {
  mProfile : FSR3Profile.t;
  mActualProfile : FSR3Profile.t;
  mRecreate : bool;
  mInputSize : Z * Z;
  mFSR3OutputSize : Z * Z
}.

Definition newDxvkFSR3 : DxvkFSR3 :=
  {| mProfile := FSR3Profile.Invalid;
     mActualProfile := FSR3Profile.Invalid;
     mRecreate := true;
     mInputSize := (0, 0);
     mFSR3OutputSize := (0, 0) |}.

(** [setSetting] returns the new state of the object and [outRenderSize].
    The render size of a scaled profile is computed by the upscaler
    ([queryOptimalSettings]) or by float arithmetic on the display size; it
    is the argument [scaledSize], read only on that branch. *)
Definition setSetting (graphicsPreset : GraphicsPreset.t) (scaledSize : Z * Z)
    (self : DxvkFSR3) (displaySize : Z * Z) (profile : FSR3Profile.t)
    : DxvkFSR3 * (Z * Z) :=
  let actualProfile :=
    if profile =? FSR3Profile.Auto
    then getAutoProfile graphicsPreset (fst displaySize) (snd displaySize)
    else profile in
  if (mActualProfile self =? actualProfile)
     && (fst displaySize =? fst (mFSR3OutputSize self))
     && (snd displaySize =? snd (mFSR3OutputSize self))
  then (self, mInputSize self)
  else
    let inputSize :=
      if profile =? FSR3Profile.FullResolution then displaySize else scaledSize in
    ({| mProfile := profile;
        mActualProfile := actualProfile;
        mRecreate := true;
        mInputSize := inputSize;
        mFSR3OutputSize := displaySize |},
     inputSize).

Definition getCurrentProfile (self : DxvkFSR3) : FSR3Profile.t := mActualProfile self.
Definition getInputSize (self : DxvkFSR3) : Z * Z := mInputSize self.
Definition getOutputSize (self : DxvkFSR3) : Z * Z := mFSR3OutputSize self.

(** ** The adapter filter *)

(** [std::string::find] with its default position: the first position at
    which [str] occurs in [s], [None] for [npos]. *)
Module StdString.
Fixpoint starts_with (str s : String.string) : bool :=
  match str, s with
  | String.EmptyString, _ => true
  | String.String c str', String.String d s' => Ascii.eqb c d && starts_with str' s'
  | String.String _ _, String.EmptyString => false
  end.

Fixpoint find (s str : String.string) : option nat :=
  if starts_with str s then Some 0%nat
  else match s with
       | String.EmptyString => None
       | String.String _ s' => S <$> find s' str
       end.
End StdString.

(** The two flags [testAdapter] tests. *)
Record DxvkDeviceFilterFlags : Set := {
  MatchDeviceName : bool;
  SkipCpuDevices : bool
}.

(** The members of Vulkan's [VkPhysicalDeviceProperties] that are read. *)
Record VkPhysicalDeviceProperties : Set := {
  apiVersion : Z;
  deviceType : Z;
  deviceName : String.string
}.

Definition VK_MAKE_VERSION (major minor patch : Z) : Z :=
  Z.lor (Z.lor (Z.shiftl major 22) (Z.shiftl minor 12)) patch.

Definition VK_PHYSICAL_DEVICE_TYPE_CPU : Z := 4.

Record DxvkDeviceFilter : Set := {
  m_flags : DxvkDeviceFilterFlags;
  m_matchDeviceName : String.string
}.

(** The constructor; [DXVK_FILTER_DEVICE_NAME] is what
    [env::getEnvVar("DXVK_FILTER_DEVICE_NAME")] returns. *)
Definition newDxvkDeviceFilter (DXVK_FILTER_DEVICE_NAME : String.string)
    (flags : DxvkDeviceFilterFlags) : DxvkDeviceFilter :=
  {| m_flags :=
       if negb (String.length DXVK_FILTER_DEVICE_NAME =? 0)%nat
       then {| MatchDeviceName := true; SkipCpuDevices := SkipCpuDevices flags |}
       else flags;
     m_matchDeviceName := DXVK_FILTER_DEVICE_NAME |}.

Definition testAdapter (self : DxvkDeviceFilter) (properties : VkPhysicalDeviceProperties)
    : bool :=
  if apiVersion properties <? VK_MAKE_VERSION 1 1 0 then false
  else if SkipCpuDevices (m_flags self)
          && (deviceType properties =? VK_PHYSICAL_DEVICE_TYPE_CPU) then false
  else if MatchDeviceName (m_flags self)
          && bool_decide (StdString.find (deviceName properties) (m_matchDeviceName self)
                          = None) then false
  else true.

(** ** Vocabulary of the statements *)

(** The bin table after marking the values [vs]. *)
Definition mark_all (out : list Z) (vs : list Z) : list Z :=
  foldl (fun o v => <[Z.to_nat v := 1]> o) out vs.

(** The distinct values of [vs] below [range], ascending. *)
Definition unique_values (vs : list Z) (range : Z) : list Z :=
  filter (fun j => j ∈ vs) (seqZ 0 range).

(** The region [computeHash] records for a stream: what [getVertexRegion]
    fills in, or the zeroed entry when the stream is undefined. *)
Definition regionOf (w : World) (buffer : RasterBuffer) (vertexCount : Z) : HashQuery :=
  default zeroQuery (getVertexRegion w buffer vertexCount).

(** [pIndexData] as [computeHash] captures it. *)
Definition indexDataOf (w : World) (indices : RasterBuffer) : Z :=
  if rb_defined indices then mapPtr w indices 0 else 0.

(** The buffers a list of events acquires, releases, references and
    dereferences, in order. *)
Definition acquires (evs : list Event) : list BufId :=
  omap (fun e => match e with Acquire b => Some b | _ => None end) evs.
Definition releases (evs : list Event) : list BufId :=
  omap (fun e => match e with Release b => Some b | _ => None end) evs.
Definition incRefs (evs : list Event) : list BufId :=
  omap (fun e => match e with IncRef b => Some b | _ => None end) evs.
Definition decRefs (evs : list Event) : list BufId :=
  omap (fun e => match e with DecRef b => Some b | _ => None end) evs.

(** The unique index list a run of [hashGeometryData] works with. *)
Definition uniqueIndices_of (w : World) (T : IndexArg) (n maxIndexValue p : Z)
    : run (list Z) :=
  match T with
  | Indexed T' => deduplicateSortIndices T' (mem w) p n maxIndexValue []
  | NoIndices => Ret []
  end.



(** The events of a submission whose position buffer is [bp], and the
    closure it schedules. *)
Definition pins (r : option BufId) : list Event :=
  match r with Some b => [Acquire b; IncRef b] | None => [] end.

Definition submissionEvents (geoData : RasterGeometry) (bp : BufId) : list Event :=
  [Acquire bp; IncRef bp] ++ pins (rb_buffer (texcoordBuffer geoData))
  ++ pins (rb_buffer (indexBuffer geoData)) ++ [Schedule].

Definition taskOf (H : Hashing) (options : RtxOptions) (w : World)
    (vs : VertexShaderState) (geoData : RasterGeometry) (maxIndexValue : Z) : HashTask :=
  let rule := geometryHashGenerationRule options in
  {| t_vertexRegions := fun r =>
       match r with
       | VertexRegions.Position =>
           regionOf w (positionBuffer geoData) (wrap32 (vertexCount geoData))
       | VertexRegions.Texcoord =>
           regionOf w (texcoordBuffer geoData) (wrap32 (vertexCount geoData))
       end;
     t_indexBufferRef := rb_buffer (indexBuffer geoData);
     t_pIndexData := indexDataOf w (indexBuffer geoData);
     t_indexStride := rb_stride (indexBuffer geoData);
     t_indexDataSize := wrap32 (indexCount geoData) * rb_stride (indexBuffer geoData);
     t_indexCount := wrap32 (indexCount geoData);
     t_maxIndexValue := maxIndexValue;
     t_vertexShaderHash := computeVertexShaderHash H options vs;
     t_geometryDescriptorHash :=
       if rule GeometryDescriptor
       then hashGeometryDescriptor H (indexCount geoData) (vertexCount geoData)
              (rb_indexType (indexBuffer geoData)) (topology geoData)
       else kEmptyHash H;
     t_vertexLayoutHash :=
       if rule VertexLayout then hashVertexLayout H geoData else kEmptyHash H |}.



(** The [k] position vectors read from [p] on, [stride] bytes apart. *)
Fixpoint stream (m : Memory) (stride : Z) (p : Z) (k : nat) : list Vector3.t :=
  match k with
  | O => []
  | S k' => load_Vector3 m p :: stream m stride (p + stride) k'
  end.

(** [a] is an element of [l] that no element of [l] is less than. *)
Definition is_min_of (a : Z) (l : list Z) : Prop :=
  a ∈ l /\ forall v, v ∈ l -> f32_lt v a = false.

(** [a] is an element of [l] that is less than no element of [l]. *)
Definition is_max_of (a : Z) (l : list Z) : Prop :=
  a ∈ l /\ forall v, v ∈ l -> f32_lt a v = false.

Definition finite_vector (v : Vector3.t) : Prop :=
  f32_is_finite (Vector3.x v) = true
  /\ f32_is_finite (Vector3.y v) = true
  /\ f32_is_finite (Vector3.z v) = true.

(** The loop of the closure as a fold over the stream. *)
Definition widen (v : Vector3.t) : m128 :=
  _mm_set_ps 0 (Vector3.z v) (Vector3.y v) (Vector3.x v).

(** A bin of an output vector handed to [deduplicateSortIndices] that is
    not zero on entry. *)
Definition stale_bin (out0 : list Z) (j : Z) : Prop :=
  default 0 (out0 !! Z.to_nat j) <> 0.

#[global] Instance stale_bin_dec (out0 : list Z) (j : Z) : Decision (stale_bin out0 j).
Proof. unfold stale_bin. apply _. Defined.

(** The index values a hashing operation reads when its closure takes the
    path of element type [T]. *)
Definition indexValuesOf (w : World) (geoData : RasterGeometry) (T : IndexT) : list Z :=
  index_values T (mem w) (indexDataOf w (indexBuffer geoData)) (wrap32 (indexCount geoData)).

(** The index bytes such an operation hashes, in buffer order. *)
Definition indexBytesOf (w : World) (geoData : RasterGeometry) (T : IndexT) : list byte :=
  read_bytes (mem w) (indexDataOf w (indexBuffer geoData))
    (Z.to_nat (wrap32 (indexCount geoData) * sizeofT T)).

(** The attached buffers of a geometry are mapped: no pointer that
    [computeHash] captures for them is null. *)
Definition buffers_mapped (w : World) (geoData : RasterGeometry) : Prop :=
  (forall buffer, buffer ∈ [positionBuffer geoData; texcoordBuffer geoData] ->
     rb_defined buffer = true -> mapPtr w buffer (rb_offsetFromSlice buffer) <> 0)
  /\ (rb_defined (indexBuffer geoData) = true -> mapPtr w (indexBuffer geoData) 0 <> 0).


(** The pins of a submission that its closure does not undo: the index
    buffer when the stride selects the non-indexed path, and each defined
    vertex stream whose region has size 0. *)
Definition unreleased_pins (geoData : RasterGeometry) : nat :=
  let n := wrap32 (vertexCount geoData) in
  let index :=
    match indexArgOf (rb_stride (indexBuffer geoData)) with
    | Indexed _ => false
    | NoIndices => rb_defined (indexBuffer geoData)
    end in
  let position := rb_stride (positionBuffer geoData) * n =? 0 in
  let texcoord :=
    rb_defined (texcoordBuffer geoData)
    && (rb_stride (texcoordBuffer geoData) * n =? 0) in
  (Nat.b2n index + Nat.b2n position + Nat.b2n texcoord)%nat.

(** The coordinates of a vector, by axis. *)
Inductive Axis : Set := AxisX | AxisY | AxisZ.

Definition coord (a : Axis) (v : Vector3.t) : Z :=
  match a with
  | AxisX => Vector3.x v
  | AxisY => Vector3.y v
  | AxisZ => Vector3.z v
  end.

Definition no_nan_vector (v : Vector3.t) : Prop :=
  f32_is_nan (Vector3.x v) = false
  /\ f32_is_nan (Vector3.y v) = false
  /\ f32_is_nan (Vector3.z v) = false.

(** The position vectors the closure of [computeAxisAlignedBoundingBox]
    reads for a geometry. *)
Definition positionsOf (w : World) (geoData : RasterGeometry) : list Vector3.t :=
  stream (mem w) (rb_stride (positionBuffer geoData))
    (mapPtr w (positionBuffer geoData) (rb_offsetFromSlice (positionBuffer geoData)))
    (Z.to_nat (wrap32 (vertexCount geoData))).

(** In an object that runs at full resolution the input size is the output
    size. *)
Definition full_resolution_sizes (self : DxvkFSR3) : Prop :=
  mActualProfile self = FSR3Profile.FullResolution ->
  mInputSize self = mFSR3OutputSize self.

(** ** A small instance to run the model on

    xxHash itself is outside the sources; to evaluate the model on concrete
    geometry the interface is instantiated with an FNV-style fold. *)

Definition fnv_step (acc v : Z) : Z := (acc * 1099511628211 + v + 1) mod 2 ^ 64.
Definition fnv_bytes (seed : Z) (bs : list byte) : Z :=
  foldl (fun acc b => fnv_step acc (byte_val b)) seed bs.
Definition fnv_basis : Z := 14695981039346656037.

Definition fnvHashing : Hashing := {|
  kEmptyHash := 0;
  hashContiguousMemory := fnv_bytes fnv_basis;
  hashIndicesLegacy := fun T vs => foldl fnv_step (sizeofT T) vs;
  hashByteStream := fnv_bytes fnv_basis;
  hashRegionLegacy := fun v '(h0, h1) =>
    (fnv_bytes (fnv_step h0 (rv_stride v)) (rv_bytes v),
     fnv_bytes (fnv_step h1 (rv_elementSize v)) (rv_bytes v));
  hashGeometryDescriptor := fun a b c d => foldl fnv_step fnv_basis [a; b; c; d];
  hashVertexLayout := fun g =>
    foldl fnv_step fnv_basis
      [rb_stride (positionBuffer g); rb_elementSize (positionBuffer g);
       rb_stride (texcoordBuffer g); rb_elementSize (texcoordBuffer g)];
  XXH3_64bits := fnv_bytes fnv_basis;
  XXH3_64bits_withSeed := fun bs seed => fnv_bytes seed bs;
  hashCombine := fnv_step
|}.

Definition byte_of (z : Z) : byte :=
  match Byte.of_N (Z.to_N (z mod 256)) with Some b => b | None => x00 end.

(** The little-endian bytes of a list of 32-bit words. *)
Definition words_le (ws : list Z) : list Z :=
  w ← ws; [w mod 256; w / 256 mod 256; w / 65536 mod 256; w / 16777216 mod 256].

(** Memory holding each byte string at its address, 0 elsewhere. *)
Definition store_segments (segs : list (Z * list Z)) : Memory :=
  fun a =>
    match find (fun '(p, bs) => (p <=? a) && (a <? p + Z.of_nat (length bs))) segs with
    | Some (p, bs) => byte_of (nth (Z.to_nat (a - p)) bs 0)
    | None => x00
    end.

(** The little-endian bytes of a list of 16-bit words. *)
Definition halves_le (ws : list Z) : list Z :=
  w ← ws; [w mod 256; w / 256 mod 256].

(** A unit quad: four positions of three floats (buffer 1, mapped at 4096),
    drawn as the degenerate strip 0, 2, 2, 0 with 16-bit indices (buffer 2,
    mapped at 8192); buffer 3, mapped at 8448, holds the same indices in
    the order 2, 0, 0, 2, buffer 4, at 8704, the strip reversed (which
    reads 0, 2, 2, 0 again), and buffer 5, at 8960, the indices 0, 1, 2, 3. *)
Definition quadPositions : list Z :=
  words_le [0; 0; 0;
            0x3F800000; 0; 0;
            0x3F800000; 0x3F800000; 0;
            0; 0x3F800000; 0].

Definition bufferBase (b : BufId) : Z :=
  match b with
  | 1%nat => 4096
  | 2%nat => 8192
  | 3%nat => 8448
  | 4%nat => 8704
  | 5%nat => 8960
  | _ => 0
  end.

Definition quadWorld : World := {|
  mem := store_segments [(4096, quadPositions);
                         (8192, halves_le [0; 2; 2; 0]);
                         (8448, halves_le [2; 0; 0; 2]);
                         (8704, halves_le [0; 2; 2; 0]);
                         (8960, halves_le [0; 1; 2; 3])];
  bufferMapPtr := fun rb off =>
    match rb_buffer rb with
    | Some b => bufferBase b + off
    | None => 0
    end
|}.

Definition noBuffer : RasterBuffer :=
  {| rb_buffer := None; rb_offsetFromSlice := 0; rb_stride := 0;
     rb_elementSize := 0; rb_indexType := 0 |}.

Definition quadPositionBuffer : RasterBuffer :=
  {| rb_buffer := Some 1%nat; rb_offsetFromSlice := 0; rb_stride := 12;
     rb_elementSize := 12; rb_indexType := 0 |}.

Definition indexBuffer16 (b : BufId) : RasterBuffer :=
  {| rb_buffer := Some b; rb_offsetFromSlice := 0; rb_stride := 2;
     rb_elementSize := 2; rb_indexType := 0 |}.

Definition quadGeometry (indices : RasterBuffer) : RasterGeometry :=
  {| indexBuffer := indices;
     positionBuffer := quadPositionBuffer;
     texcoordBuffer := noBuffer;
     vertexCount := 4;
     indexCount := 4;
     topology := 4 |}.

Definition fixedFunction : VertexShaderState :=
  {| UseProgrammableVS := false; useVertexCapture := false;
     shaderByteCode := []; fConsts := []; iConsts := []; bConsts := [];
     maxConstIndexF := 0; maxConstIndexI := 0; maxConstIndexB := 0 |}.

Definition allComponents : RtxOptions :=
  {| geometryHashGenerationRule := fun _ => true; needsMeshBoundingBox := true |}.

(** The quad with its buffers mapped elsewhere, next to unrelated data. *)
Definition movedWorld : World := {|
  mem := store_segments [(128, [1; 2; 3; 4; 5; 6; 7; 8]);
                         (20480, quadPositions);
                         (24576, halves_le [0; 2; 2; 0])];
  bufferMapPtr := fun rb off =>
    match rb_buffer rb with
    | Some 1%nat => 20480 + off
    | Some 2%nat => 24576 + off
    | _ => 0
    end
|}.

(** A draw with no vertices whose position buffer is attached, and a draw
    whose attached index buffer has a stride that is neither 2 nor 4. *)
Definition emptyDraw : RasterGeometry :=
  {| indexBuffer := noBuffer;
     positionBuffer := quadPositionBuffer;
     texcoordBuffer := noBuffer;
     vertexCount := 0;
     indexCount := 0;
     topology := 4 |}.

Definition oddIndexBuffer : RasterBuffer :=
  {| rb_buffer := Some 2%nat; rb_offsetFromSlice := 0; rb_stride := 1;
     rb_elementSize := 1; rb_indexType := 0 |}.

(** A rule with positions and the geometry descriptor only, and a
    programmable vertex shader with one float constant. *)
Definition positionsAndDescriptor : RtxOptions :=
  {| geometryHashGenerationRule := fun c =>
       match c with
       | VertexPosition | GeometryDescriptor => true
       | _ => false
       end;
     needsMeshBoundingBox := true |}.

Definition programmable : VertexShaderState :=
  {| UseProgrammableVS := true; useVertexCapture := true;
     shaderByteCode := [x01; x02; xfe; xff];
     fConsts := [x00; x00; x80; x3f; x00; x00; x00; x00;
                 x00; x00; x00; x00; x00; x00; x80; x3f];
     iConsts := []; bConsts := [];
     maxConstIndexF := 1; maxConstIndexI := 0; maxConstIndexB := 0 |}.

(** A world whose buffer 1, mapped at 4096, holds the given 32-bit words,
    and the geometry of [n] vertices of three floats over it. *)
Definition wordsWorld (ws : list Z) : World := {|
  mem := store_segments [(4096, words_le ws)];
  bufferMapPtr := fun rb off =>
    match rb_buffer rb with
    | Some 1%nat => 4096 + off
    | _ => 0
    end
|}.

Definition points (n : Z) : RasterGeometry :=
  {| indexBuffer := noBuffer;
     positionBuffer := quadPositionBuffer;
     texcoordBuffer := noBuffer;
     vertexCount := n;
     indexCount := 0;
     topology := 0 |}.

(** A position stream of stride 0 over buffer 1, and the draw of [n]
    vertices over it. *)
Definition constantPositionBuffer : RasterBuffer :=
  {| rb_buffer := Some 1%nat; rb_offsetFromSlice := 0; rb_stride := 0;
     rb_elementSize := 12; rb_indexType := 0 |}.

Definition constantDraw (indices : RasterBuffer) (n : Z) : RasterGeometry :=
  {| indexBuffer := indices;
     positionBuffer := constantPositionBuffer;
     texcoordBuffer := noBuffer;
     vertexCount := n;
     indexCount := n;
     topology := 4 |}.

(** The quad, the 24 bytes [tail] behind its four positions, and the 16-bit
    indices 0, 5, 5, 0 in buffer 2: index 5 addresses the last 12 bytes of
    [tail], outside the position region. *)
Definition spillWorld (tail : list Z) : World := {|
  mem := store_segments [(4096, quadPositions);
                         (4144, words_le tail);
                         (8192, halves_le [0; 5; 5; 0])];
  bufferMapPtr := fun rb off =>
    match rb_buffer rb with
    | Some b => bufferBase b + off
    | None => 0
    end
|}.

Definition spillWorldA : World := spillWorld [0; 0; 0; 0; 0; 0].





(** The vertex regions of the quad as [computeHash] records them, and a
    table of hashes whose entries are all set. *)
Definition quadRegions (r : VertexRegions.Type_) : HashQuery :=
  regionOf quadWorld
    (match r with
     | VertexRegions.Position => quadPositionBuffer
     | VertexRegions.Texcoord => noBuffer
     end) 4.

Definition markedHashes : GeometryHashes :=
  {| fields := fun _ => 7; precombined := 9 |}.

(** The rule with every component but VertexShader. *)
Definition allButVertexShader : RtxOptions :=
  {| geometryHashGenerationRule := fun c =>
       match c with VertexShader => false | _ => true end;
     needsMeshBoundingBox := true |}.

(** * Properties *)

(** ** Bytes and loads *)

Lemma byte_val_range (b : byte) : 0 <= byte_val b < 256.
Proof.
  unfold byte_val. pose proof (Byte.to_N_bounded b). lia.
Qed.

Lemma le_val_range (bs : list byte) : 0 <= le_val bs < 256 ^ Z.of_nat (length bs).
Proof.
  induction bs as [|b bs IH]; simpl le_val; simpl length.
  - change (256 ^ Z.of_nat 0) with 1. lia.
  - pose proof (byte_val_range b).
    rewrite Nat2Z.inj_succ, Z.pow_succ_r by lia. lia.
Qed.

Lemma length_read_bytes (m : Memory) (p : Z) (n : nat) : length (read_bytes m p n) = n.
Proof. revert p. induction n as [|n IH]; intros p; simpl; [done | by rewrite IH]. Qed.

Lemma loadT_range (T : IndexT) (m : Memory) (p i : Z) :
  0 <= loadT T m p i < 2 ^ (8 * sizeofT T).
Proof.
  unfold loadT.
  pose proof (le_val_range (read_bytes m (p + i * sizeofT T) (Z.to_nat (sizeofT T)))) as Hr.
  rewrite length_read_bytes in Hr.
  destruct T; exact Hr.
Qed.

Lemma castT_small (T : IndexT) (v : Z) : 0 <= v < 2 ^ (8 * sizeofT T) -> castT T v = v.
Proof. intros Hv. unfold castT. by apply Z.mod_small. Qed.

(** Reading depends only on the bytes read. *)
Lemma read_bytes_ext (m1 m2 : Memory) (p1 p2 : Z) (n : nat) :
  (forall k, 0 <= k < Z.of_nat n -> m1 (p1 + k) = m2 (p2 + k)) ->
  read_bytes m1 p1 n = read_bytes m2 p2 n.
Proof.
  revert p1 p2. induction n as [|n IH]; intros p1 p2 Hk; simpl; [done|].
  f_equal.
  - specialize (Hk 0). rewrite !Z.add_0_r in Hk. apply Hk. lia.
  - apply IH. intros k Hr.
    replace (p1 + 1 + k) with (p1 + (k + 1)) by lia.
    replace (p2 + 1 + k) with (p2 + (k + 1)) by lia.
    apply Hk. lia.
Qed.

(** ** The two loops of the deduplicator *)

Lemma length_mark_all (vs : list Z) (out : list Z) : length (mark_all out vs) = length out.
Proof.
  revert out. induction vs as [|v vs IH]; intros out; simpl; [done|].
  unfold mark_all in IH. by rewrite IH, length_insert.
Qed.

Lemma lookup_mark_all (vs : list Z) (out : list Z) (j : nat) :
  Forall (fun v => 0 <= v) vs ->
  (j < length out)%nat ->
  mark_all out vs !! j = if decide (Z.of_nat j ∈ vs) then Some 1 else out !! j.
Proof.
  revert out. induction vs as [|v vs IH]; intros out Hpos Hj; simpl.
  - done.
  - apply Forall_cons in Hpos as [Hv Hpos].
    rewrite IH by (rewrite ?length_insert; done).
    destruct (decide (Z.of_nat j ∈ vs)) as [Hin|Hin].
    + rewrite decide_True; [done | by apply elem_of_cons; right].
    + destruct (decide (Z.of_nat j = v)) as [Heq|Hne].
      * rewrite decide_True by (apply elem_of_cons; by left).
        subst v. rewrite Nat2Z.id. by apply list_lookup_insert_eq.
      * rewrite decide_False by (intros [?|?]%elem_of_cons; done).
        apply list_lookup_insert_ne. lia.
Qed.

Lemma mark_loop_spec (T : IndexT) (m : Memory) (p : Z) (k i : nat) (out : list Z) :
  let vs := (fun j => loadT T m p (Z.of_nat j)) <$> seq i k in
  for_range i k (mark_bin T m p) out =
  if forallb (fun v => v <? Z.of_nat (length out)) vs
  then Ret (mark_all out vs) else Fault OutOfBounds.
Proof.
  revert i out. induction k as [|k IH]; intros i out; [done|].
  cbn [for_range seq fmap list_fmap forallb].
  pose proof (loadT_range T m p (Z.of_nat i)) as Hr.
  assert (mark_bin T m p (Z.of_nat i) out
          = if loadT T m p (Z.of_nat i) <? Z.of_nat (length out)
            then Ret (<[Z.to_nat (loadT T m p (Z.of_nat i)) := 1]> out)
            else Fault OutOfBounds) as ->.
  { unfold mark_bin, vec_set.
    destruct (Z.ltb_spec (loadT T m p (Z.of_nat i)) (Z.of_nat (length out))).
    - rewrite bool_decide_eq_true_2 by lia. done.
    - rewrite bool_decide_eq_false_2 by lia. done. }
  destruct (loadT T m p (Z.of_nat i) <? Z.of_nat (length out)); [|done].
  cbn [mbind run_bind andb]. rewrite IH, length_insert. done.
Qed.

Lemma seqZ_succ_nat (i k : nat) :
  seqZ (Z.of_nat i) (Z.of_nat (S k)) = Z.of_nat i :: seqZ (Z.of_nat (S i)) (Z.of_nat k).
Proof.
  rewrite seqZ_cons by lia. f_equal. f_equal; lia.
Qed.

Lemma compact_bin_marked (T : IndexT) (i c : nat) (out : list Z) :
  out !! i = Some 1 ->
  (c <= i)%nat ->
  0 <= Z.of_nat i < 2 ^ (8 * sizeofT T) ->
  Z.of_nat i < 2 ^ 32 - 1 ->
  compact_bin T (Z.of_nat i) (out, Z.of_nat c)
  = Ret (<[c := Z.of_nat i]> out, Z.of_nat (S c)).
Proof.
  intros Hi Hc Hsmall Hbound.
  unfold compact_bin, vec_get, vec_set. rewrite !Nat2Z.id, Hi. cbn [mbind run_bind Z.eqb].
  apply lookup_lt_Some in Hi.
  rewrite bool_decide_eq_true_2 by lia. cbn [mbind run_bind].
  rewrite castT_small by done.
  unfold wrap32. rewrite Z.mod_small by lia. do 2 f_equal. lia.
Qed.

Lemma compact_bin_clear (T : IndexT) (i : nat) (c : Z) (out : list Z) :
  out !! i = Some 0 ->
  compact_bin T (Z.of_nat i) (out, c) = Ret (out, c).
Proof.
  intros Hi. unfold compact_bin, vec_get. rewrite Nat2Z.id, Hi. done.
Qed.

Lemma compact_loop_spec (T : IndexT) (vs : list Z) (k i c : nat) (out : list Z) :
  (forall v, v ∈ vs -> 0 <= v < 2 ^ (8 * sizeofT T)) ->
  length out = (i + k)%nat ->
  Z.of_nat (i + k) < 2 ^ 32 ->
  (c <= i)%nat ->
  (forall j, (i <= j < i + k)%nat ->
             out !! j = Some (if decide (Z.of_nat j ∈ vs) then 1 else 0)) ->
  let fl := filter (fun j => j ∈ vs) (seqZ (Z.of_nat i) (Z.of_nat k)) in
  exists out',
    for_range i k (compact_bin T) (out, Z.of_nat c) = Ret (out', Z.of_nat (c + length fl))
    /\ length out' = length out
    /\ take (c + length fl) out' = take c out ++ fl.
Proof.
  intros Hvs. revert i c out. induction k as [|k IH]; intros i c out Hlen Hbound Hc Hbins fl.
  - exists out. subst fl. simpl. rewrite Nat.add_0_r, app_nil_r. done.
  - subst fl. rewrite seqZ_succ_nat, filter_cons.
    cbn [for_range]. specialize (Hbins i) as Hi.
    destruct (decide (Z.of_nat i ∈ vs)) as [Hin|Hin].
    + rewrite compact_bin_marked; [|apply Hi; lia|lia|by apply Hvs|lia].
      cbn [mbind run_bind].
      destruct (IH (S i) (S c) (<[c := Z.of_nat i]> out)) as (out' & Hrun & Hlen' & Htake).
      * rewrite length_insert. lia.
      * replace (S i + k)%nat with (i + S k)%nat by lia. done.
      * lia.
      * intros j Hj. rewrite list_lookup_insert_ne by lia. apply Hbins. lia.
      * exists out'. cbn [length]. split_and!.
        -- rewrite Hrun. do 3 f_equal. lia.
        -- by rewrite Hlen', length_insert.
        -- replace (c + S (length (filter (fun j => j ∈ vs)
                      (seqZ (Z.of_nat (S i)) (Z.of_nat k)))))%nat
             with (S c + length (filter (fun j => j ∈ vs)
                      (seqZ (Z.of_nat (S i)) (Z.of_nat k))))%nat by lia.
           rewrite Htake.
           rewrite (take_S_r _ c (Z.of_nat i)) by (apply list_lookup_insert_eq; lia).
           rewrite take_insert_ge by lia. by rewrite <- app_assoc.
    + rewrite compact_bin_clear by (apply Hi; lia). cbn [mbind run_bind].
      destruct (IH (S i) c out) as (out' & Hrun & Hlen' & Htake).
      * lia.
      * replace (S i + k)%nat with (i + S k)%nat by lia. done.
      * lia.
      * intros j Hj. apply Hbins. lia.
      * exists out'. done.
Qed.

Lemma StronglySorted_seqZ (m n : Z) : StronglySorted Z.lt (seqZ m n).
Proof.
  destruct (decide (n <= 0)) as [Hn|Hn]; [rewrite seqZ_nil by done; constructor|].
  rewrite <- (Z2Nat.id n) by lia. generalize (Z.to_nat n) as k. clear Hn n.
  intros k. revert m. induction k as [|k IH]; intros m.
  - rewrite seqZ_nil by lia. constructor.
  - rewrite seqZ_cons by lia. replace (Z.pred (Z.of_nat (S k))) with (Z.of_nat k) by lia.
    constructor; [apply IH|].
    apply Forall_seqZ. intros; lia.
Qed.

Lemma StronglySorted_filter {A} (R : relation A) (P : A -> Prop)
    `{forall a, Decision (P a)} (l : list A) :
  StronglySorted R l -> StronglySorted R (filter P l).
Proof.
  induction 1 as [|a l Hs IH Hall]; [constructor|].
  rewrite filter_cons. case_decide; [|done].
  constructor; [done|].
  apply Forall_forall. intros b [_ Hb]%list_elem_of_filter.
  rewrite Forall_forall in Hall. by apply Hall.
Qed.

Lemma StronglySorted_lt_NoDup (l : list Z) : StronglySorted Z.lt l -> NoDup l.
Proof.
  induction 1 as [|a l Hs IH Hall]; constructor; [|done].
  intros Hin. rewrite Forall_forall in Hall. specialize (Hall _ Hin). lia.
Qed.

Lemma unique_values_sorted (vs : list Z) (range : Z) :
  StronglySorted Z.lt (unique_values vs range).
Proof. apply StronglySorted_filter, StronglySorted_seqZ. Qed.

Lemma elem_of_unique_values (vs : list Z) (range v : Z) :
  v ∈ unique_values vs range <-> v ∈ vs /\ 0 <= v < range.
Proof.
  unfold unique_values. rewrite list_elem_of_filter, elem_of_seqZ. intuition lia.
Qed.

Lemma length_unique_values (vs : list Z) (range : Z) :
  0 <= range -> Z.of_nat (length (unique_values vs range)) <= range.
Proof.
  intros Hr. unfold unique_values.
  pose proof (length_filter (fun j => j ∈ vs) (seqZ 0 range)) as Hl.
  rewrite length_seqZ in Hl. lia.
Qed.

Lemma index_values_range (T : IndexT) (m : Memory) (p n v : Z) :
  v ∈ index_values T m p n -> 0 <= v < 2 ^ (8 * sizeofT T).
Proof.
  unfold index_values. intros (j & -> & _)%list_elem_of_fmap. apply loadT_range.
Qed.

Lemma elem_of_index_values (T : IndexT) (m : Memory) (p n : Z) (j : nat) :
  (j < Z.to_nat n)%nat -> loadT T m p (Z.of_nat j) ∈ index_values T m p n.
Proof.
  intros Hj. unfold index_values. apply list_elem_of_fmap.
  exists j. split; [done|]. apply elem_of_seq. lia.
Qed.

(** What the deduplicator returns on a fresh vector, in every case. *)
Lemma deduplicateSortIndices_fresh (T : IndexT) (m : Memory) (p n maxIndexValue : Z) :
  let vs := index_values T m p n in
  let indexRange := wrap32 (maxIndexValue + 1) in
  deduplicateSortIndices T m p n maxIndexValue [] =
  if 2 ^ 32 <=? n then Fault Diverges
  else if forallb (fun v => v <? indexRange) vs
       then Ret (unique_values vs indexRange) else Fault OutOfBounds.
Proof.
  intros vs indexRange. unfold deduplicateSortIndices. fold indexRange.
  assert (0 <= indexRange < 2 ^ 32) as HR by (apply Z.mod_pos_bound; lia).
  assert (castT T 0 = 0) as -> by (by destruct T).
  rewrite resize_nil. destruct (2 ^ 32 <=? n); [done|].
  set (R := Z.to_nat indexRange).
  rewrite mark_loop_spec. fold (index_values T m p n). fold vs.
  rewrite length_replicate. replace (Z.of_nat R) with indexRange by lia.
  destruct (forallb (fun v => v <? indexRange) vs) eqn:Hall; [|done].
  cbn [mbind run_bind].
  destruct (compact_loop_spec T vs R 0 0 (mark_all (replicate R 0) vs))
    as (out' & Hrun & Hlen & Htake).
  - intros v Hv. by apply index_values_range in Hv.
  - by rewrite length_mark_all, length_replicate.
  - lia.
  - lia.
  - intros j Hj. rewrite lookup_mark_all.
    + case_decide; [done|]. apply lookup_replicate_2. lia.
    + apply Forall_forall. intros v Hv. apply index_values_range in Hv. lia.
    + rewrite length_replicate. lia.
  - change (Z.of_nat 0) with 0 in Hrun.
    rewrite Hrun. cbn [mbind run_bind]. f_equal.
    rewrite Nat2Z.id. cbn [Nat.add] in *. rewrite take_0 in Htake. cbn [app] in Htake.
    replace (Z.of_nat R) with indexRange in * by lia.
    fold (unique_values vs indexRange) in *.
    rewrite resize_le; [done|].
    rewrite Hlen, length_mark_all, length_replicate.
    pose proof (length_unique_values vs indexRange). lia.
Qed.

(** What the deduplicator returns on a fresh vector when the bound is tight. *)
Lemma deduplicateSortIndices_spec (T : IndexT) (m : Memory) (p n maxIndexValue : Z) :
  n < 2 ^ 32 ->
  0 <= maxIndexValue < 2 ^ 32 - 1 ->
  (forall v, v ∈ index_values T m p n -> v <= maxIndexValue) ->
  deduplicateSortIndices T m p n maxIndexValue []
  = Ret (unique_values (index_values T m p n) (maxIndexValue + 1)).
Proof.
  intros Hn Hmax Hle. rewrite deduplicateSortIndices_fresh. cbv zeta.
  assert (wrap32 (maxIndexValue + 1) = maxIndexValue + 1) as ->
    by (unfold wrap32; apply Z.mod_small; lia).
  destruct (Z.leb_spec (2 ^ 32) n) as [?|_]; [lia|].
  rewrite (proj2 (forallb_forall _ _)); [done|].
  intros v Hv%list_elem_of_In. apply Hle in Hv. lia.
Qed.

(** ** The index deduplicator (C1) *)

(** C1, as amended. On a fresh output vector, for an index buffer of [n]
    elements ([n < 2^32]) of type uint16 or uint32 whose values all lie in
    [0, maxIndexValue], and [maxIndexValue + 1] representable in 32 bits,
    [deduplicateSortIndices] returns a vector that is strictly ascending,
    has no duplicates, holds exactly the values occurring in the buffer,
    and has at most [maxIndexValue + 1] elements. In particular the 16-bit
    indices 0, 2, 2, 0 with [maxIndexValue = 3] give 0, 2. *)
Theorem deduplicateSortIndices_sorted_unique
    (T : IndexT) (m : Memory) (pIndexData indexCount maxIndexValue : Z) :
  0 <= indexCount < 2 ^ 32 ->
  0 <= maxIndexValue < 2 ^ 32 - 1 ->
  (forall v, v ∈ index_values T m pIndexData indexCount -> v <= maxIndexValue) ->
  (exists out,
     deduplicateSortIndices T m pIndexData indexCount maxIndexValue [] = Ret out
     /\ StronglySorted Z.lt out
     /\ NoDup out
     /\ (forall v, v ∈ out <-> v ∈ index_values T m pIndexData indexCount)
     /\ Z.of_nat (length out) <= maxIndexValue + 1)
  /\ deduplicateSortIndices UInt16 (store_segments [(4096, halves_le [0; 2; 2; 0])])
       4096 4 3 [] = Ret [0; 2].
Proof.
  intros Hn Hmax Hle. split; [|vm_compute; reflexivity].
  exists (unique_values (index_values T m pIndexData indexCount) (maxIndexValue + 1)).
  split_and!.
  - apply deduplicateSortIndices_spec; [lia|done|done].
  - apply unique_values_sorted.
  - apply StronglySorted_lt_NoDup, unique_values_sorted.
  - intros v. rewrite elem_of_unique_values. split; [by intros [? _]|].
    intros Hv. split; [done|].
    pose proof (index_values_range _ _ _ _ _ Hv). specialize (Hle _ Hv). lia.
  - apply length_unique_values. lia.
Qed.

Lemma deduplicateSortIndices_sorted_unique_quad :
  (exists out,
     deduplicateSortIndices UInt16 (store_segments [(4096, halves_le [0; 2; 2; 0])])
       4096 4 3 [] = Ret out
     /\ StronglySorted Z.lt out
     /\ NoDup out
     /\ (forall v, v ∈ out <->
                   v ∈ index_values UInt16
                         (store_segments [(4096, halves_le [0; 2; 2; 0])]) 4096 4)
     /\ Z.of_nat (length out) <= 3 + 1)
  /\ deduplicateSortIndices UInt16 (store_segments [(4096, halves_le [0; 2; 2; 0])])
       4096 4 3 [] = Ret [0; 2].
Proof.
  apply (deduplicateSortIndices_sorted_unique
           UInt16 (store_segments [(4096, halves_le [0; 2; 2; 0])]) 4096 4 3); [lia | lia |].
  intros v Hv.
  assert (index_values UInt16 (store_segments [(4096, halves_le [0; 2; 2; 0])]) 4096 4 = [0; 2; 2; 0])
    as Heq by (vm_compute; reflexivity).
  rewrite Heq in Hv.
  repeat (apply elem_of_cons in Hv as [-> | Hv]; [lia|]).
  by apply elem_of_nil in Hv.
Defined.

(** The claim C1 as stated fails when [maxIndexValue] is the largest
    uint32_t: [indexRange] wraps to 0, the bin table is empty, and the first
    index written lies outside it. *)
Lemma deduplicateSortIndices_range_wraps :
  index_values UInt32 (store_segments [(4096, words_le [0])]) 4096 1 = [0]
  /\ deduplicateSortIndices UInt32 (store_segments [(4096, words_le [0])]) 4096 1 (2 ^ 32 - 1) []
     = Fault OutOfBounds.
Proof. split; vm_compute; reflexivity. Qed.

(** ** Undefined position stream (C2) *)

(** C2. When the position stream is undefined, [computeHash] returns the
    default-constructed (invalid) future at once: no buffer is acquired or
    referenced and no closure is handed to the workers. *)
Theorem computeHash_position_undefined
    (H : Hashing) (options : RtxOptions) (w : World) (vs : VertexShaderState)
    (geoData : RasterGeometry) (maxIndexValue : Z) :
  rb_defined (positionBuffer geoData) = false ->
  computeHash H options w vs geoData maxIndexValue = Ret (Invalid, []).
Proof.
  intros Hundef. unfold computeHash, getVertexRegion. by rewrite Hundef.
Qed.

Lemma computeHash_position_undefined_sample :
  computeHash fnvHashing allComponents quadWorld fixedFunction
    {| indexBuffer := indexBuffer16 2%nat;
       positionBuffer := noBuffer;
       texcoordBuffer := noBuffer;
       vertexCount := 4; indexCount := 4; topology := 4 |} 3
  = Ret (Invalid, []).
Proof.
  apply (computeHash_position_undefined fnvHashing allComponents quadWorld fixedFunction).
  reflexivity.
Defined.

(** ** Buffer lifetime (C3) *)

Lemma hashGeometryData_events (H : Hashing) (options : RtxOptions) (w : World)
    (T : IndexArg) (n maxIndexValue p : Z) (indexBufferRef : option BufId)
    (vertexRegions : VertexRegions.Type_ -> HashQuery) (h0 h : GeometryHashes)
    (evs : list Event) :
  hashGeometryData H options w T n maxIndexValue p indexBufferRef vertexRegions h0
    = Ret (h, evs) ->
  evs = match T, indexBufferRef with
        | Indexed _, Some b => [Release b; DecRef b]
        | _, _ => []
        end
        ++ releaseRegion (vertexRegions VertexRegions.Position)
        ++ releaseRegion (vertexRegions VertexRegions.Texcoord)
  /\ (T <> NoIndices -> is_Some indexBufferRef).
Proof.
  unfold hashGeometryData. destruct T as [T|].
  - unfold hashIndexData.
    destruct (deduplicateSortIndices T (mem w) p n maxIndexValue []) as [u|f];
      cbn [mbind run_bind]; [|done].
    destruct indexBufferRef as [b|]; cbn [release_decRef mbind run_bind]; [|done].
    intros [= <- <-]. split; [|by eauto].
    cbn [VertexRegions.all fmap list_fmap concat]. by rewrite app_nil_r.
  - cbn [mbind run_bind]. intros [= <- <-]. split; [|done].
    destruct indexBufferRef; cbn [VertexRegions.all fmap list_fmap concat app];
      by rewrite app_nil_r.
Qed.

Lemma runHashTask_events (H : Hashing) (options : RtxOptions) (w : World)
    (t : HashTask) (h : GeometryHashes) (evs : list Event) :
  runHashTask H options w t = Ret (h, evs) ->
  let indexed := (t_indexStride t =? 2) || (t_indexStride t =? 4) in
  evs = match indexed, t_indexBufferRef t with
        | true, Some b => [Release b; DecRef b]
        | _, _ => []
        end
        ++ releaseRegion (t_vertexRegions t VertexRegions.Position)
        ++ releaseRegion (t_vertexRegions t VertexRegions.Texcoord)
  /\ (indexed = true -> is_Some (t_indexBufferRef t)).
Proof.
  intros Hrun indexed. subst indexed. unfold runHashTask in Hrun.
  match type of Hrun with
  | context [hashGeometryData ?H ?o ?w ?T ?n ?mx ?p ?ib ?vr ?h0] =>
      destruct (hashGeometryData H o w T n mx p ib vr h0) as [[h' evs']|f] eqn:Hg;
      cbn [mbind run_bind] in Hrun; [|done]
  end.
  injection Hrun as <- <-.
  apply hashGeometryData_events in Hg as [-> Hsome]. unfold indexArgOf in *.
  destruct (t_indexStride t =? 2); [split; [done|]; intros _; by apply Hsome|].
  destruct (t_indexStride t =? 4); [split; [done|]; intros _; by apply Hsome|].
  split; [|done]. by destruct (t_indexBufferRef t).
Qed.

(** What [computeHash] does when the position stream is defined. *)
Lemma computeHash_scheduled (H : Hashing) (options : RtxOptions) (w : World)
    (vs : VertexShaderState) (geoData : RasterGeometry) (maxIndexValue : Z)
    (future : Future HashTask) (evs : list Event) :
  computeHash H options w vs geoData maxIndexValue = Ret (future, evs) ->
  match rb_buffer (positionBuffer geoData) with
  | None => future = Invalid /\ evs = []
  | Some bp =>
      exists t, future = Scheduled t
        /\ evs = [Acquire bp; IncRef bp]
                 ++ match rb_buffer (texcoordBuffer geoData) with
                    | Some b => [Acquire b; IncRef b] | None => [] end
                 ++ match rb_buffer (indexBuffer geoData) with
                    | Some b => [Acquire b; IncRef b] | None => [] end
                 ++ [Schedule]
        /\ t_vertexRegions t VertexRegions.Position
           = {| pBase := mapPtr w (positionBuffer geoData)
                           (rb_offsetFromSlice (positionBuffer geoData));
                elementSize := rb_elementSize (positionBuffer geoData);
                stride := rb_stride (positionBuffer geoData);
                size := rb_stride (positionBuffer geoData) * wrap32 (vertexCount geoData);
                ref := Some bp |}
        /\ t_vertexRegions t VertexRegions.Texcoord
           = match rb_buffer (texcoordBuffer geoData) with
             | Some b =>
                 {| pBase := mapPtr w (texcoordBuffer geoData)
                               (rb_offsetFromSlice (texcoordBuffer geoData));
                    elementSize := rb_elementSize (texcoordBuffer geoData);
                    stride := rb_stride (texcoordBuffer geoData);
                    size := rb_stride (texcoordBuffer geoData) * wrap32 (vertexCount geoData);
                    ref := Some b |}
             | None => zeroQuery
             end
        /\ t_indexBufferRef t = rb_buffer (indexBuffer geoData)
        /\ t_indexStride t = rb_stride (indexBuffer geoData)
        /\ t_indexCount t = wrap32 (indexCount geoData)
        /\ t_maxIndexValue t = maxIndexValue
        /\ t_pIndexData t
           = (if rb_defined (indexBuffer geoData) then mapPtr w (indexBuffer geoData) 0 else 0)
  end.
Proof.
  unfold computeHash, getVertexRegion, rb_defined.
  destruct (rb_buffer (positionBuffer geoData)) as [bp|]; [|by intros [= <- <-]].
  cbn [ref acquire_incRef mbind run_bind].
  destruct (rb_buffer (texcoordBuffer geoData)) as [bt|];
    destruct (rb_buffer (indexBuffer geoData)) as [bi|];
    cbn [ref acquire_incRef mbind run_bind]; intros [= <- <-];
    eexists; (split; [reflexivity|]); cbn; done.
Qed.

(** Where the pins of an operation do balance. For every hashing operation
    whose closure runs to its end, in which an index buffer is attached
    exactly when the index stride is 2 or 4 and every defined vertex stream
    has a non-zero byte size, the buffers acquired on the submission thread
    are the buffers released by the closure, and those referenced are those
    dereferenced; in particular the numbers of calls agree. A vertex region
    of size 0 is skipped by the closure and nothing is released for it. *)
Theorem hashOperation_pins_balanced
    (H : Hashing) (options : RtxOptions) (w : World) (vs : VertexShaderState)
    (geoData : RasterGeometry) (maxIndexValue : Z)
    (hashes : GeometryHashes) (submitted worked : list Event) :
  hashOperation H options w vs geoData maxIndexValue = Ret (Some hashes, submitted, worked) ->
  (is_Some (rb_buffer (indexBuffer geoData))
   <-> rb_stride (indexBuffer geoData) = 2 \/ rb_stride (indexBuffer geoData) = 4) ->
  rb_stride (positionBuffer geoData) * wrap32 (vertexCount geoData) <> 0 ->
  (rb_defined (texcoordBuffer geoData) = true ->
   rb_stride (texcoordBuffer geoData) * wrap32 (vertexCount geoData) <> 0) ->
  length (acquires submitted) = length (releases worked)
  /\ length (incRefs submitted) = length (decRefs worked)
  /\ acquires submitted ≡ₚ releases worked
  /\ incRefs submitted ≡ₚ decRefs worked
  /\ (forall q, size q = 0 -> releaseRegion q = []).
Proof.
  intros Hop Hidx Hpos Htex.
  assert (acquires submitted ≡ₚ releases worked
          /\ incRefs submitted ≡ₚ decRefs worked) as [Ha Hi].
  2: { split_and!; [by rewrite Ha | by rewrite Hi | done | done |].
       intros q Hq. unfold releaseRegion. by rewrite Hq. }
  unfold hashOperation in Hop.
  destruct (computeHash H options w vs geoData maxIndexValue) as [[future evs]|f] eqn:Hc;
    cbn [mbind run_bind] in Hop; [|done].
  apply computeHash_scheduled in Hc.
  destruct (rb_buffer (positionBuffer geoData)) as [bp|]; [|by destruct Hc as [-> _]].
  destruct Hc as (t & -> & -> & HregP & HregT & Href & Hstride & _).
  destruct (runHashTask H options w t) as [[h' evs']|f] eqn:Hr;
    cbn [mbind run_bind] in Hop; [|done].
  injection Hop as _ <- <-.
  apply runHashTask_events in Hr as [-> Hsome].
  rewrite HregP, HregT, Href, Hstride in *. clear HregP HregT Href Hstride.
  unfold acquires, releases, incRefs, decRefs. rewrite !omap_app.
  unfold releaseRegion. cbn [size ref].
  destruct (Z.eqb_spec (rb_stride (positionBuffer geoData) * wrap32 (vertexCount geoData)) 0)
    as [?|_]; [done|].
  unfold rb_defined in Htex.
  assert (Hindexed : (rb_stride (indexBuffer geoData) =? 2)
                     || (rb_stride (indexBuffer geoData) =? 4)
                     = bool_decide (is_Some (rb_buffer (indexBuffer geoData)))).
  { destruct (Z.eqb_spec (rb_stride (indexBuffer geoData)) 2) as [E2|N2];
      destruct (Z.eqb_spec (rb_stride (indexBuffer geoData)) 4) as [E4|N4];
      cbn [orb]; symmetry;
      try (apply bool_decide_eq_true_2, Hidx; auto; fail).
    apply bool_decide_eq_false_2. rewrite Hidx. intros [?|?]; done. }
  rewrite Hindexed. clear Hindexed Hsome Hidx.
  destruct (rb_buffer (texcoordBuffer geoData)) as [bt|];
    destruct (rb_buffer (indexBuffer geoData)) as [bi|]; cbn [size ref zeroQuery];
    try (destruct (Z.eqb_spec (rb_stride (texcoordBuffer geoData)
                               * wrap32 (vertexCount geoData)) 0)
           as [E|_]; [by apply Htex in E|]);
    cbn; split; solve_Permutation.
Qed.

Lemma hashOperation_pins_balanced_quad :
  exists hashes submitted worked,
    hashOperation fnvHashing allComponents quadWorld fixedFunction
      (quadGeometry (indexBuffer16 2%nat)) 3 = Ret (Some hashes, submitted, worked)
    /\ length (acquires submitted) = length (releases worked)
    /\ length (incRefs submitted) = length (decRefs worked)
    /\ acquires submitted ≡ₚ releases worked
    /\ incRefs submitted ≡ₚ decRefs worked
    /\ (forall q, size q = 0 -> releaseRegion q = []).
Proof.
  eexists _, _, _. split; [vm_compute; reflexivity|].
  eapply (hashOperation_pins_balanced fnvHashing allComponents quadWorld fixedFunction
            (quadGeometry (indexBuffer16 2%nat)) 3).
  - vm_compute. reflexivity.
  - cbn. split; [intros _; by left | intros _; by eexists].
  - vm_compute. discriminate.
  - cbn. discriminate.
Defined.

(** C3 fails on the code, which leaks a pin on two paths. The submission
    pins every defined stream and every attached index buffer; the closure
    means to undo each pin and misses two cases. In the draw without
    vertices the position buffer is acquired and referenced, its region has
    size 0, and the release loop skips it: one acquire and one incRef, no
    release and no decRef. In the draw whose attached index buffer has
    stride 1 the index buffer is acquired and referenced, and only the
    paths of stride 2 and 4 release it: two acquires and two incRefs, one
    release and one decRef. The draw of four vertices over a position
    stream of stride 0 leaks as the draw without vertices does. *)
Lemma hashOperation_pins_unbalanced :
  (exists hashes submitted worked,
     hashOperation fnvHashing allComponents quadWorld fixedFunction emptyDraw 0
       = Ret (Some hashes, submitted, worked)
     /\ acquires submitted = [1%nat] /\ releases worked = []
     /\ incRefs submitted = [1%nat] /\ decRefs worked = [])
  /\
  (exists hashes submitted worked,
     hashOperation fnvHashing allComponents quadWorld fixedFunction
       (quadGeometry oddIndexBuffer) 3 = Ret (Some hashes, submitted, worked)
     /\ acquires submitted = [1%nat; 2%nat] /\ releases worked = [1%nat]
     /\ incRefs submitted = [1%nat; 2%nat] /\ decRefs worked = [1%nat])
  /\
  (exists hashes submitted worked,
     hashOperation fnvHashing allComponents quadWorld fixedFunction
       (constantDraw noBuffer 4) 3 = Ret (Some hashes, submitted, worked)
     /\ acquires submitted = [1%nat] /\ releases worked = []
     /\ incRefs submitted = [1%nat] /\ decRefs worked = []).
Proof.
  split_and!; eexists _, _, _; (split; [vm_compute; reflexivity|]); done.
Qed.

(** ** The hashes written by the closure *)

Lemma hashGeometryData_fields (H : Hashing) (options : RtxOptions) (w : World)
    (T : IndexArg) (n maxIndexValue p : Z) (indexBufferRef : option BufId)
    (vertexRegions : VertexRegions.Type_ -> HashQuery) (h0 h : GeometryHashes)
    (evs : list Event) :
  let rule := geometryHashGenerationRule options in
  hashGeometryData H options w T n maxIndexValue p indexBufferRef vertexRegions h0
    = Ret (h, evs) ->
  exists u,
    uniqueIndices_of w T n maxIndexValue p = Ret u
    /\ fields h VertexPosition
       = (if rule VertexPosition
          then hashVertexRegionIndexed H w (vertexRegions VertexRegions.Position) T u
          else fields h0 VertexPosition)
    /\ fields h VertexTexcoord
       = (if rule VertexTexcoord
          then hashVertexRegionIndexed H w (vertexRegions VertexRegions.Texcoord) T u
          else fields h0 VertexTexcoord)
    /\ fields h Indices
       = match T with
         | Indexed T' =>
             if rule Indices
             then hashContiguousMemory H
                    (read_bytes (mem w) p (Z.to_nat (n * sizeofT T')))
             else fields h0 Indices
         | NoIndices => fields h0 Indices
         end
    /\ fields h LegacyIndices
       = match T with
         | Indexed T' =>
             if rule LegacyIndices
             then hashIndicesLegacy H T' (index_values T' (mem w) p n)
             else fields h0 LegacyIndices
         | NoIndices => fields h0 LegacyIndices
         end
    /\ (fields h LegacyPositions0, fields h LegacyPositions1)
       = (if rule LegacyPositions0 || rule LegacyPositions1
          then hashRegionLegacy H (region_view w (vertexRegions VertexRegions.Position))
                 (fields h0 LegacyPositions0, fields h0 LegacyPositions1)
          else (fields h0 LegacyPositions0, fields h0 LegacyPositions1))
    /\ fields h GeometryDescriptor = fields h0 GeometryDescriptor
    /\ fields h VertexLayout = fields h0 VertexLayout
    /\ fields h VertexShader = fields h0 VertexShader
    /\ precombined h = precombined h0.
Proof.
  intros rule. unfold hashGeometryData. fold rule.
  destruct T as [T|]; cbn [uniqueIndices_of].
  - unfold hashIndexData. fold rule.
    destruct (deduplicateSortIndices T (mem w) p n maxIndexValue []) as [u|f];
      cbn [mbind run_bind]; [|done].
    destruct indexBufferRef as [b|]; cbn [release_decRef mbind run_bind]; [|done].
    intros [= <- _]. exists u. split; [done|].
    cbn [all_components foldl hashVertexComponent componentToRegionMap].
    unfold hashVertexComponent; cbn [componentToRegionMap]. fold rule.
    destruct (hashRegionLegacy H _ _) as [l0 l1] eqn:Hl.
    destruct (rule VertexPosition), (rule VertexTexcoord), (rule Indices),
      (rule LegacyIndices), (rule LegacyPositions0 || rule LegacyPositions1);
      cbn in Hl |- *; rewrite ?Hl; done.
  - cbn [mbind run_bind]. intros [= <- _]. exists []. split; [done|].
    cbn [all_components foldl hashVertexComponent componentToRegionMap].
    unfold hashVertexComponent; cbn [componentToRegionMap]. fold rule.
    destruct (hashRegionLegacy H _ _) as [l0 l1] eqn:Hl.
    destruct (rule VertexPosition), (rule VertexTexcoord),
      (rule LegacyPositions0 || rule LegacyPositions1);
      cbn in Hl |- *; rewrite ?Hl; done.
Qed.

Lemma runHashTask_fields (H : Hashing) (options : RtxOptions) (w : World)
    (t : HashTask) (h : GeometryHashes) (evs : list Event) :
  let rule := geometryHashGenerationRule options in
  let T := indexArgOf (t_indexStride t) in
  runHashTask H options w t = Ret (h, evs) ->
  exists u,
    uniqueIndices_of w T (t_indexCount t) (t_maxIndexValue t) (t_pIndexData t) = Ret u
    /\ fields h VertexPosition
       = (if rule VertexPosition
          then hashVertexRegionIndexed H w (t_vertexRegions t VertexRegions.Position) T u
          else kEmptyHash H)
    /\ fields h VertexTexcoord
       = (if rule VertexTexcoord
          then hashVertexRegionIndexed H w (t_vertexRegions t VertexRegions.Texcoord) T u
          else kEmptyHash H)
    /\ fields h Indices
       = match T with
         | Indexed T' =>
             if rule Indices
             then hashContiguousMemory H
                    (read_bytes (mem w) (t_pIndexData t)
                       (Z.to_nat (t_indexCount t * sizeofT T')))
             else kEmptyHash H
         | NoIndices => kEmptyHash H
         end
    /\ fields h LegacyIndices
       = match T with
         | Indexed T' =>
             if rule LegacyIndices
             then hashIndicesLegacy H T'
                    (index_values T' (mem w) (t_pIndexData t) (t_indexCount t))
             else kEmptyHash H
         | NoIndices => kEmptyHash H
         end
    /\ (fields h LegacyPositions0, fields h LegacyPositions1)
       = (if rule LegacyPositions0 || rule LegacyPositions1
          then hashRegionLegacy H
                 (region_view w (t_vertexRegions t VertexRegions.Position))
                 (kEmptyHash H, kEmptyHash H)
          else (kEmptyHash H, kEmptyHash H))
    /\ fields h GeometryDescriptor = t_geometryDescriptorHash t
    /\ fields h VertexLayout = t_vertexLayoutHash t
    /\ fields h VertexShader = t_vertexShaderHash t.
Proof.
  intros rule T Hrun. unfold runHashTask in Hrun. fold T in Hrun.
  match type of Hrun with
  | context [hashGeometryData ?H ?o ?w ?T ?n ?mx ?p ?ib ?vr ?h0] =>
      destruct (hashGeometryData H o w T n mx p ib vr h0) as [[h' evs']|f] eqn:Hg;
      cbn [mbind run_bind] in Hrun; [|done]
  end.
  injection Hrun as <- <-.
  apply hashGeometryData_fields in Hg
    as (u & Hu & HP & HT & HI & HL & HLP & HG & HV & HS & _).
  exists u. cbn [precombine fields]. fold rule in HP, HT, HI, HL, HLP.
  split_and!; done.
Qed.

Lemma hashOperation_fields (H : Hashing) (options : RtxOptions) (w : World)
    (vs : VertexShaderState) (geoData : RasterGeometry) (maxIndexValue : Z)
    (h : GeometryHashes) (submitted worked : list Event) :
  let rule := geometryHashGenerationRule options in
  let T := indexArgOf (rb_stride (indexBuffer geoData)) in
  let n := wrap32 (indexCount geoData) in
  let p := indexDataOf w (indexBuffer geoData) in
  let position := regionOf w (positionBuffer geoData) (wrap32 (vertexCount geoData)) in
  let texcoord := regionOf w (texcoordBuffer geoData) (wrap32 (vertexCount geoData)) in
  hashOperation H options w vs geoData maxIndexValue = Ret (Some h, submitted, worked) ->
  exists u,
    uniqueIndices_of w T n maxIndexValue p = Ret u
    /\ fields h VertexPosition
       = (if rule VertexPosition then hashVertexRegionIndexed H w position T u
          else kEmptyHash H)
    /\ fields h VertexTexcoord
       = (if rule VertexTexcoord then hashVertexRegionIndexed H w texcoord T u
          else kEmptyHash H)
    /\ fields h Indices
       = match T with
         | Indexed T' =>
             if rule Indices
             then hashContiguousMemory H (read_bytes (mem w) p (Z.to_nat (n * sizeofT T')))
             else kEmptyHash H
         | NoIndices => kEmptyHash H
         end
    /\ fields h LegacyIndices
       = match T with
         | Indexed T' =>
             if rule LegacyIndices
             then hashIndicesLegacy H T' (index_values T' (mem w) p n)
             else kEmptyHash H
         | NoIndices => kEmptyHash H
         end
    /\ (fields h LegacyPositions0, fields h LegacyPositions1)
       = (if rule LegacyPositions0 || rule LegacyPositions1
          then hashRegionLegacy H (region_view w position) (kEmptyHash H, kEmptyHash H)
          else (kEmptyHash H, kEmptyHash H))
    /\ fields h GeometryDescriptor
       = (if rule GeometryDescriptor
          then hashGeometryDescriptor H (indexCount geoData) (vertexCount geoData)
                 (rb_indexType (indexBuffer geoData)) (topology geoData)
          else kEmptyHash H)
    /\ fields h VertexLayout
       = (if rule VertexLayout then hashVertexLayout H geoData else kEmptyHash H)
    /\ fields h VertexShader = computeVertexShaderHash H options vs.
Proof.
  intros rule T n p position texcoord Hop. unfold hashOperation in Hop.
  destruct (computeHash H options w vs geoData maxIndexValue) as [[future evs]|f] eqn:Hc;
    cbn [mbind run_bind] in Hop; [|done].
  destruct future as [|t]; [done|].
  destruct (runHashTask H options w t) as [[h' evs']|f] eqn:Hr;
    cbn [mbind run_bind] in Hop; [|done].
  injection Hop as <- _ _.
  apply runHashTask_fields in Hr
    as (u & Hu & HP & HT & HI & HL & HLP & HG & HV & HS).
  assert (t_vertexRegions t VertexRegions.Position = position
          /\ t_vertexRegions t VertexRegions.Texcoord = texcoord
          /\ t_indexStride t = rb_stride (indexBuffer geoData)
          /\ t_indexCount t = n /\ t_maxIndexValue t = maxIndexValue
          /\ t_pIndexData t = p
          /\ t_geometryDescriptorHash t
             = (if rule GeometryDescriptor
                then hashGeometryDescriptor H (indexCount geoData) (vertexCount geoData)
                       (rb_indexType (indexBuffer geoData)) (topology geoData)
                else kEmptyHash H)
          /\ t_vertexLayoutHash t
             = (if rule VertexLayout then hashVertexLayout H geoData else kEmptyHash H)
          /\ t_vertexShaderHash t = computeVertexShaderHash H options vs)
    as (E1 & E2 & E3 & E4 & E5 & E6 & E7 & E8 & E9).
  { clear - Hc. subst position texcoord n p rule.
    unfold computeHash, regionOf, indexDataOf in *.
    destruct (getVertexRegion w (positionBuffer geoData) _) as [qp|]; [|done].
    destruct (acquire_incRef (ref qp)) as [e1|]; cbn [mbind run_bind] in Hc; [|done].
    destruct (getVertexRegion w (texcoordBuffer geoData) _) as [qt|];
      cbn [mbind run_bind default] in Hc |- *.
    - destruct (acquire_incRef (ref qt)) as [e2|]; cbn [mbind run_bind] in Hc; [|done].
      destruct (rb_buffer (indexBuffer geoData)) as [bi|];
        cbn [acquire_incRef mbind run_bind] in Hc; injection Hc as <- _; cbn; done.
    - destruct (rb_buffer (indexBuffer geoData)) as [bi|];
        cbn [acquire_incRef mbind run_bind] in Hc; injection Hc as <- _; cbn; done. }
  rewrite E1, E2, E3, E4, E5, E6, E7, E8, E9 in *.
  exists u. split_and!; done.
Qed.

(** What [computeHash] returns. *)
Lemma computeHash_eq (H : Hashing) (options : RtxOptions) (w : World)
    (vs : VertexShaderState) (geoData : RasterGeometry) (maxIndexValue : Z) :
  computeHash H options w vs geoData maxIndexValue =
  match rb_buffer (positionBuffer geoData) with
  | None => Ret (Invalid, [])
  | Some bp =>
      Ret (Scheduled (taskOf H options w vs geoData maxIndexValue),
           submissionEvents geoData bp)
  end.
Proof.
  unfold computeHash, taskOf, submissionEvents, regionOf, indexDataOf,
    getVertexRegion, rb_defined.
  destruct (rb_buffer (positionBuffer geoData)) as [bp|]; [|done].
  cbn [ref acquire_incRef mbind run_bind].
  destruct (rb_buffer (texcoordBuffer geoData)) as [bt|];
    destruct (rb_buffer (indexBuffer geoData)) as [bi|];
    cbn [ref acquire_incRef mbind run_bind pins default from_option id app]; done.
Qed.

(** A hashing operation over mapped buffers runs to its end, and delivers
    hashes, whenever the position stream is defined and, for indexed
    geometry, an index buffer is attached and the indices respect a bound
    that does not wrap. *)
Lemma hashOperation_runs (H : Hashing) (options : RtxOptions) (w : World)
    (vs : VertexShaderState) (geoData : RasterGeometry) (maxIndexValue : Z) :
  buffers_mapped w geoData ->
  rb_defined (positionBuffer geoData) = true ->
  match indexArgOf (rb_stride (indexBuffer geoData)) with
  | NoIndices => True
  | Indexed T =>
      rb_defined (indexBuffer geoData) = true
      /\ 0 <= maxIndexValue < 2 ^ 32 - 1
      /\ forall v, v ∈ index_values T (mem w) (indexDataOf w (indexBuffer geoData))
                        (wrap32 (indexCount geoData)) -> v <= maxIndexValue
  end ->
  exists h s k, hashOperation H options w vs geoData maxIndexValue = Ret (Some h, s, k).
Proof.
  intros _ Hpos Hidx. unfold hashOperation. rewrite computeHash_eq.
  unfold rb_defined in Hpos.
  destruct (rb_buffer (positionBuffer geoData)) as [bp|]; [|done].
  cbn [mbind run_bind]. unfold runHashTask, hashGeometryData.
  cbn [taskOf t_indexStride t_indexCount t_maxIndexValue t_pIndexData t_indexBufferRef].
  destruct (indexArgOf (rb_stride (indexBuffer geoData))) as [T|].
  - destruct Hidx as (Hdef & Hmax & Hle). unfold hashIndexData, rb_defined in *.
    rewrite deduplicateSortIndices_spec; [|apply Z.mod_pos_bound; lia|done|done].
    destruct (rb_buffer (indexBuffer geoData)) as [bi|]; [|done].
    cbn [mbind run_bind release_decRef]. by eexists _, _, _.
  - cbn [mbind run_bind]. by eexists _, _, _.
Qed.

(** ** Order of the index buffer (C4) *)

Lemma deduplicateSortIndices_Ret_inv (T : IndexT) (m : Memory) (p n maxIndexValue : Z)
    (u : list Z) :
  deduplicateSortIndices T m p n maxIndexValue [] = Ret u ->
  u = unique_values (index_values T m p n) (wrap32 (maxIndexValue + 1))
  /\ Forall (fun v => v < wrap32 (maxIndexValue + 1)) (index_values T m p n).
Proof.
  rewrite deduplicateSortIndices_fresh. cbv zeta.
  destruct (2 ^ 32 <=? n); [done|].
  destruct (forallb _ _) eqn:Hall; [|done]. intros [= <-]. split; [done|].
  apply Forall_forall. intros v Hv%list_elem_of_In.
  rewrite forallb_forall in Hall. apply Hall in Hv. lia.
Qed.

Lemma unique_values_Permutation (vs vs' : list Z) (range : Z) :
  vs ≡ₚ vs' -> unique_values vs range = unique_values vs' range.
Proof.
  intros Hp. unfold unique_values. apply list_filter_iff.
  intros j. by rewrite Hp.
Qed.

Lemma read_bytes_inv (m1 m2 : Memory) (p1 p2 : Z) (n : nat) :
  read_bytes m1 p1 n = read_bytes m2 p2 n ->
  forall k, 0 <= k < Z.of_nat n -> m1 (p1 + k) = m2 (p2 + k).
Proof.
  revert p1 p2. induction n as [|n IH]; intros p1 p2 Heq k Hk; [lia|].
  cbn [read_bytes] in Heq. injection Heq as Hhead Htail.
  destruct (decide (k = 0)) as [->|Hne]; [by rewrite !Z.add_0_r|].
  replace (p1 + k) with (p1 + 1 + (k - 1)) by lia.
  replace (p2 + k) with (p2 + 1 + (k - 1)) by lia.
  apply IH; [done|lia].
Qed.

(** The index values are a function of the index bytes. *)
Lemma index_values_of_bytes (T : IndexT) (m1 m2 : Memory) (p1 p2 n : Z) :
  read_bytes m1 p1 (Z.to_nat (n * sizeofT T)) = read_bytes m2 p2 (Z.to_nat (n * sizeofT T)) ->
  index_values T m1 p1 n = index_values T m2 p2 n.
Proof.
  intros Hbytes. unfold index_values. apply list_fmap_ext.
  intros i j Hj%lookup_seq. unfold loadT. f_equal.
  apply read_bytes_ext. intros k Hk. rewrite <- !Z.add_assoc.
  apply (read_bytes_inv _ _ _ _ _ Hbytes).
  destruct T; cbn [sizeofT] in *; lia.
Qed.

(** C4, as amended. For two indexed geometries that differ only in their
    index buffers, the buffers holding the same index values in a different
    order, the VertexPosition and VertexTexcoord hashes of the two
    operations are equal. When the Indices component is active in the
    rule, the Indices hash of each is [hashContiguousMemory] of its index
    bytes in buffer order; a reordering that changes the sequence of index
    values changes those bytes, and with them the Indices hash, unless the
    hash function collides on the two byte sequences. *)
Theorem hashes_under_index_reordering
    (H : Hashing) (options : RtxOptions) (w : World) (vs : VertexShaderState)
    (g1 g2 : RasterGeometry) (maxIndexValue : Z) (T : IndexT)
    (h1 h2 : GeometryHashes) (s1 k1 s2 k2 : list Event) :
  positionBuffer g2 = positionBuffer g1 ->
  texcoordBuffer g2 = texcoordBuffer g1 ->
  vertexCount g2 = vertexCount g1 ->
  indexCount g2 = indexCount g1 ->
  rb_stride (indexBuffer g1) = sizeofT T ->
  rb_stride (indexBuffer g2) = sizeofT T ->
  indexValuesOf w g1 T ≡ₚ indexValuesOf w g2 T ->
  hashOperation H options w vs g1 maxIndexValue = Ret (Some h1, s1, k1) ->
  hashOperation H options w vs g2 maxIndexValue = Ret (Some h2, s2, k2) ->
  fields h1 VertexPosition = fields h2 VertexPosition
  /\ fields h1 VertexTexcoord = fields h2 VertexTexcoord
  /\ (geometryHashGenerationRule options Indices = true ->
      fields h1 Indices = hashContiguousMemory H (indexBytesOf w g1 T)
      /\ fields h2 Indices = hashContiguousMemory H (indexBytesOf w g2 T)
      /\ (indexValuesOf w g1 T <> indexValuesOf w g2 T ->
          indexBytesOf w g1 T <> indexBytesOf w g2 T
          /\ ((hashContiguousMemory H (indexBytesOf w g1 T)
               = hashContiguousMemory H (indexBytesOf w g2 T) ->
               indexBytesOf w g1 T = indexBytesOf w g2 T) ->
              fields h1 Indices <> fields h2 Indices))).
Proof.
  intros HP HT HV HC Hs1 Hs2 Hperm Hop1 Hop2.
  apply hashOperation_fields in Hop1 as (u1 & Hu1 & HP1 & HT1 & HI1 & _).
  apply hashOperation_fields in Hop2 as (u2 & Hu2 & HP2 & HT2 & HI2 & _).
  unfold indexValuesOf, indexBytesOf in *.
  rewrite HP, HT, HV, HC, Hs2 in *. rewrite Hs1 in *.
  assert (indexArgOf (sizeofT T) = Indexed T) as HTT by (by destruct T).
  rewrite HTT in *. cbn [uniqueIndices_of] in Hu1, Hu2.
  apply deduplicateSortIndices_Ret_inv in Hu1 as [Hu1 _].
  apply deduplicateSortIndices_Ret_inv in Hu2 as [Hu2 _].
  assert (u1 = u2) as ->.
  { rewrite Hu1, Hu2. by apply unique_values_Permutation. }
  split_and!.
  - by rewrite HP1, HP2.
  - by rewrite HT1, HT2.
  - intros Hrule. rewrite Hrule in HI1, HI2. split; [done|]. split; [done|].
    intros Hne.
    assert (read_bytes (mem w) (indexDataOf w (indexBuffer g1))
              (Z.to_nat (wrap32 (indexCount g1) * sizeofT T))
            <> read_bytes (mem w) (indexDataOf w (indexBuffer g2))
                 (Z.to_nat (wrap32 (indexCount g1) * sizeofT T))) as Hbytes.
    { intros Heq. apply Hne. by apply index_values_of_bytes. }
    split; [done|]. intros Hfree. rewrite HI1, HI2. intros Heq. by apply Hbytes, Hfree.
Qed.

Lemma hashes_under_index_reordering_quad :
  exists h1 h2 s1 k1 s2 k2,
    hashOperation fnvHashing allComponents quadWorld fixedFunction
      (quadGeometry (indexBuffer16 2%nat)) 3 = Ret (Some h1, s1, k1)
    /\ hashOperation fnvHashing allComponents quadWorld fixedFunction
         (quadGeometry (indexBuffer16 3%nat)) 3 = Ret (Some h2, s2, k2)
    /\ indexValuesOf quadWorld (quadGeometry (indexBuffer16 2%nat)) UInt16 = [0; 2; 2; 0]
    /\ indexValuesOf quadWorld (quadGeometry (indexBuffer16 3%nat)) UInt16 = [2; 0; 0; 2]
    /\ (fields h1 Indices =? fields h2 Indices) = false
    /\ fields h1 VertexPosition = fields h2 VertexPosition
    /\ fields h1 VertexTexcoord = fields h2 VertexTexcoord
    /\ (geometryHashGenerationRule allComponents Indices = true ->
        fields h1 Indices
        = hashContiguousMemory fnvHashing
            (indexBytesOf quadWorld (quadGeometry (indexBuffer16 2%nat)) UInt16)
        /\ fields h2 Indices
           = hashContiguousMemory fnvHashing
               (indexBytesOf quadWorld (quadGeometry (indexBuffer16 3%nat)) UInt16)
        /\ (indexValuesOf quadWorld (quadGeometry (indexBuffer16 2%nat)) UInt16
            <> indexValuesOf quadWorld (quadGeometry (indexBuffer16 3%nat)) UInt16 ->
            indexBytesOf quadWorld (quadGeometry (indexBuffer16 2%nat)) UInt16
            <> indexBytesOf quadWorld (quadGeometry (indexBuffer16 3%nat)) UInt16
            /\ ((hashContiguousMemory fnvHashing
                   (indexBytesOf quadWorld (quadGeometry (indexBuffer16 2%nat)) UInt16)
                 = hashContiguousMemory fnvHashing
                     (indexBytesOf quadWorld (quadGeometry (indexBuffer16 3%nat)) UInt16) ->
                 indexBytesOf quadWorld (quadGeometry (indexBuffer16 2%nat)) UInt16
                 = indexBytesOf quadWorld (quadGeometry (indexBuffer16 3%nat)) UInt16) ->
                fields h1 Indices <> fields h2 Indices))).
Proof.
  eexists _, _, _, _, _, _.
  split; [vm_compute; reflexivity|]. split; [vm_compute; reflexivity|].
  split; [vm_compute; reflexivity|]. split; [vm_compute; reflexivity|].
  split; [vm_compute; reflexivity|].
  eapply (hashes_under_index_reordering fnvHashing allComponents quadWorld
            fixedFunction (quadGeometry (indexBuffer16 2%nat))
            (quadGeometry (indexBuffer16 3%nat)) 3 UInt16);
    [reflexivity | reflexivity | reflexivity | reflexivity | reflexivity | reflexivity
    | | vm_compute; reflexivity | vm_compute; reflexivity].
  assert (indexValuesOf quadWorld (quadGeometry (indexBuffer16 2%nat)) UInt16 = [0; 2; 2; 0])
    as -> by (vm_compute; reflexivity).
  assert (indexValuesOf quadWorld (quadGeometry (indexBuffer16 3%nat)) UInt16 = [2; 0; 0; 2])
    as -> by (vm_compute; reflexivity).
  solve_Permutation.
Defined.

(** The claim C4 as stated fails where the rule leaves the Indices
    component out: the raw index hash is computed under
    [globalHashRule.test(HashComponents::Indices)] only. Buffer 3 holds the
    indices of buffer 2 in another order, 2, 0, 0, 2 for 0, 2, 2, 0; under a
    rule with positions and the geometry descriptor the Indices entry is
    the empty hash for both. *)
Lemma indices_hash_absent_when_inactive :
  exists h1 h2 s1 k1 s2 k2,
    hashOperation fnvHashing positionsAndDescriptor quadWorld fixedFunction
      (quadGeometry (indexBuffer16 2%nat)) 3 = Ret (Some h1, s1, k1)
    /\ hashOperation fnvHashing positionsAndDescriptor quadWorld fixedFunction
         (quadGeometry (indexBuffer16 3%nat)) 3 = Ret (Some h2, s2, k2)
    /\ indexValuesOf quadWorld (quadGeometry (indexBuffer16 2%nat)) UInt16 = [0; 2; 2; 0]
    /\ indexValuesOf quadWorld (quadGeometry (indexBuffer16 3%nat)) UInt16 = [2; 0; 0; 2]
    /\ geometryHashGenerationRule positionsAndDescriptor Indices = false
    /\ fields h1 Indices = kEmptyHash fnvHashing
    /\ fields h2 Indices = kEmptyHash fnvHashing
    /\ fields h1 Indices = fields h2 Indices.
Proof.
  eexists _, _, _, _, _, _.
  split; [vm_compute; reflexivity|].
  split; [vm_compute; reflexivity|].
  split_and!; vm_compute; reflexivity.
Qed.

(** ** Non-indexed geometry (C5) *)









(** ** Determinism (C7) *)

















(** ** Inactive components (C9) *)

(** What holds of the components that are inactive in the rule: each keeps
    the empty hash, except that the two legacy position hashes share one
    test, and that the vertex shader hash is computed under the
    GeometryDescriptor bit. *)
Lemma inactive_components_empty
    (H : Hashing) (options : RtxOptions) (w : World) (vs : VertexShaderState)
    (geoData : RasterGeometry) (maxIndexValue : Z)
    (h : GeometryHashes) (s k : list Event) (c : HashComponents) :
  let rule := geometryHashGenerationRule options in
  hashOperation H options w vs geoData maxIndexValue = Ret (Some h, s, k) ->
  rule c = false ->
  match c with
  | LegacyPositions0 | LegacyPositions1 =>
      rule LegacyPositions0 = false /\ rule LegacyPositions1 = false
  | VertexShader => rule GeometryDescriptor = false
  | _ => True
  end ->
  fields h c = kEmptyHash H.
Proof.
  intros rule Hop Hc Hside.
  apply hashOperation_fields in Hop
    as (u & _ & HP & HT & HI & HL & HLP & HG & HV & HS).
  fold rule in HP, HT, HI, HL, HLP, HG, HV.
  destruct c; cbn in Hside.
  - by rewrite HP, Hc.
  - by rewrite HT, Hc.
  - rewrite HI, Hc. by destruct (indexArgOf _).
  - rewrite HL, Hc. by destruct (indexArgOf _).
  - destruct Hside as [H0 H1]. rewrite H0, H1 in HLP. by injection HLP.
  - destruct Hside as [H0 H1]. rewrite H0, H1 in HLP. by injection HLP.
  - by rewrite HG, Hc.
  - by rewrite HV, Hc.
  - rewrite HS. unfold computeVertexShaderHash. fold rule. rewrite Hside.
    by destruct (UseProgrammableVS vs && useVertexCapture vs).
Qed.

(** C9 fails on the code for the VertexShader component. With a
    programmable vertex shader and vertex capture in use, the hash of the
    shader and its constants is computed whenever the GeometryDescriptor
    component is active, whether or not VertexShader is, and stored in the
    VertexShader entry. *)
Theorem vertexShader_hash_gated_by_descriptor
    (H : Hashing) (options : RtxOptions) (w : World) (vs : VertexShaderState)
    (geoData : RasterGeometry) (maxIndexValue : Z)
    (h : GeometryHashes) (s k : list Event) :
  geometryHashGenerationRule options VertexShader = false ->
  geometryHashGenerationRule options GeometryDescriptor = true ->
  UseProgrammableVS vs = true ->
  useVertexCapture vs = true ->
  hashOperation H options w vs geoData maxIndexValue = Ret (Some h, s, k) ->
  fields h VertexShader
  = XXH3_64bits_withSeed H (take (Z.to_nat (maxConstIndexB vs * 4 / 32)) (bConsts vs))
      (XXH3_64bits_withSeed H (take (Z.to_nat (maxConstIndexI vs * 4 * 4)) (iConsts vs))
         (XXH3_64bits_withSeed H (take (Z.to_nat (maxConstIndexF vs * 4 * 4)) (fConsts vs))
            (XXH3_64bits H (shaderByteCode vs)))).
Proof.
  intros _ Hdesc Hprog Hcap Hop.
  apply hashOperation_fields in Hop as (u & _ & _ & _ & _ & _ & _ & _ & _ & HS).
  rewrite HS. unfold computeVertexShaderHash. by rewrite Hprog, Hcap, Hdesc.
Qed.

Lemma vertexShader_hash_gated_by_descriptor_quad :
  exists h s k,
    hashOperation fnvHashing positionsAndDescriptor quadWorld programmable
      (quadGeometry (indexBuffer16 2%nat)) 3 = Ret (Some h, s, k)
    /\ geometryHashGenerationRule positionsAndDescriptor VertexShader = false
    /\ (fields h VertexShader =? kEmptyHash fnvHashing) = false
    /\ fields h VertexShader
       = XXH3_64bits_withSeed fnvHashing
           (take (Z.to_nat (maxConstIndexB programmable * 4 / 32)) (bConsts programmable))
           (XXH3_64bits_withSeed fnvHashing
              (take (Z.to_nat (maxConstIndexI programmable * 4 * 4)) (iConsts programmable))
              (XXH3_64bits_withSeed fnvHashing
                 (take (Z.to_nat (maxConstIndexF programmable * 4 * 4))
                    (fConsts programmable))
                 (XXH3_64bits fnvHashing (shaderByteCode programmable)))).
Proof.
  eexists _, _, _.
  split; [vm_compute; reflexivity|]. split; [reflexivity|].
  split; [vm_compute; reflexivity|].
  eapply (vertexShader_hash_gated_by_descriptor fnvHashing positionsAndDescriptor
            quadWorld programmable (quadGeometry (indexBuffer16 2%nat)) 3);
    [reflexivity | reflexivity | reflexivity | reflexivity | vm_compute; reflexivity].
Defined.

(** ** The position hash (C6) *)

(** With VertexPosition active, the entry is the hash of the referenced
    position bytes; whether it differs from the empty hash is a property
    of the hash function. *)
Lemma position_hash_written
    (H : Hashing) (options : RtxOptions) (w : World) (vs : VertexShaderState)
    (geoData : RasterGeometry) (maxIndexValue : Z)
    (h : GeometryHashes) (s k : list Event) :
  geometryHashGenerationRule options VertexPosition = true ->
  hashOperation H options w vs geoData maxIndexValue = Ret (Some h, s, k) ->
  exists u,
    uniqueIndices_of w (indexArgOf (rb_stride (indexBuffer geoData)))
      (wrap32 (indexCount geoData)) maxIndexValue (indexDataOf w (indexBuffer geoData))
      = Ret u
    /\ fields h VertexPosition
       = hashVertexRegionIndexed H w
           (regionOf w (positionBuffer geoData) (wrap32 (vertexCount geoData)))
           (indexArgOf (rb_stride (indexBuffer geoData))) u.
Proof.
  intros Hrule Hop.
  apply hashOperation_fields in Hop as (u & Hu & HP & _).
  exists u. by rewrite HP, Hrule.
Qed.

(** ** Bounding boxes (C8, C10) *)

Lemma bounds_loop_fold (m : Memory) (stride : Z) (k i : nat) (mn mx : m128) (p : Z) :
  for_range i k (bounds_step m stride) (mn, mx, p)
  = Ret (foldl (fun a v => _mm_min_ps a (widen v)) mn (stream m stride p k),
         foldl (fun a v => _mm_max_ps a (widen v)) mx (stream m stride p k),
         p + Z.of_nat k * stride).
Proof.
  revert i mn mx p. induction k as [|k IH]; intros i mn mx p.
  - cbn. do 3 f_equal. lia.
  - cbn [for_range stream foldl].
    assert (bounds_step m stride (Z.of_nat i) (mn, mx, p)
            = Ret (_mm_min_ps mn (widen (load_Vector3 m p)),
                   _mm_max_ps mx (widen (load_Vector3 m p)), p + stride)) as ->
      by done.
    cbn [mbind run_bind]. rewrite IH. f_equal. f_equal.
    rewrite Nat2Z.inj_succ. unfold Z.succ. ring.
Qed.

Lemma foldl_lane (op : Z -> Z -> Z) (lane : m128 -> Z) (coord : Vector3.t -> Z)
    (l : list Vector3.t) (a : m128) :
  (forall a b, lane (lanewise op a b) = op (lane a) (lane b)) ->
  (forall v, lane (widen v) = coord v) ->
  lane (foldl (fun a v => lanewise op a (widen v)) a l)
  = foldl op (lane a) (coord <$> l).
Proof.
  intros Hop Hw. revert a. induction l as [|v l IH]; intros a; [done|].
  cbn [foldl fmap list_fmap]. by rewrite IH, Hop, Hw.
Qed.

(** Comparison of numbers that are not NaN is comparison of their keys. *)
Lemma f32_lt_finite (a b : Z) :
  f32_is_finite a = true -> f32_is_finite b = true ->
  f32_lt a b = (f32_key a <? f32_key b).
Proof.
  unfold f32_lt, f32_is_finite, f32_is_nan. intros Ha Hb.
  destruct (Z.ltb_spec f32_inf (f32_magnitude a)); [lia|].
  destruct (Z.ltb_spec f32_inf (f32_magnitude b)); [lia|]. done.
Qed.

Lemma f32_key_finite (a : Z) :
  f32_is_finite a = true -> - f32_key FLT_MAX <= f32_key a <= f32_key FLT_MAX.
Proof.
  unfold f32_is_finite, f32_key. intros Ha.
  assert (0 <= f32_magnitude a < f32_inf) as Hm.
  { split; [apply Z.mod_pos_bound; lia | lia]. }
  change (f32_key FLT_MAX) with 0x7F7FFFFF in *.
  change (if f32_sign FLT_MAX then - f32_magnitude FLT_MAX else f32_magnitude FLT_MAX)
    with 0x7F7FFFFF.
  change f32_inf with 0x7F800000 in Hm. destruct (f32_sign a); lia.
Qed.

Lemma foldl_min_ss (l : list Z) (a : Z) :
  f32_is_finite a = true ->
  Forall (fun v => f32_is_finite v = true) l ->
  let r := foldl min_ss a l in
  f32_is_finite r = true
  /\ (r = a \/ r ∈ l)
  /\ f32_key r <= f32_key a
  /\ Forall (fun v => f32_key r <= f32_key v) l.
Proof.
  revert a. induction l as [|v l IH]; intros a Ha Hl; cbn [foldl].
  - split_and!; [done|by left|lia|constructor].
  - apply Forall_cons in Hl as [Hv Hl].
    assert (f32_is_finite (min_ss a v) = true
            /\ (min_ss a v = a \/ min_ss a v = v)
            /\ f32_key (min_ss a v) <= f32_key a
            /\ f32_key (min_ss a v) <= f32_key v) as (Hf & Hor & Hka & Hkv).
    { unfold min_ss. rewrite f32_lt_finite by done.
      destruct (Z.ltb_spec (f32_key a) (f32_key v)); split_and!; auto; lia. }
    destruct (IH (min_ss a v) Hf Hl) as (Hrf & Hrin & Hrk & Hrall).
    split_and!; [done| |lia|].
    + destruct Hrin as [->|Hin]; [|right; by apply elem_of_cons; right].
      destruct Hor as [->| ->]; [by left | right; apply elem_of_cons; by left].
    + constructor; [lia|done].
Qed.

Lemma foldl_max_ss (l : list Z) (a : Z) :
  f32_is_finite a = true ->
  Forall (fun v => f32_is_finite v = true) l ->
  let r := foldl max_ss a l in
  f32_is_finite r = true
  /\ (r = a \/ r ∈ l)
  /\ f32_key a <= f32_key r
  /\ Forall (fun v => f32_key v <= f32_key r) l.
Proof.
  revert a. induction l as [|v l IH]; intros a Ha Hl; cbn [foldl].
  - split_and!; [done|by left|lia|constructor].
  - apply Forall_cons in Hl as [Hv Hl].
    assert (f32_is_finite (max_ss a v) = true
            /\ (max_ss a v = a \/ max_ss a v = v)
            /\ f32_key a <= f32_key (max_ss a v)
            /\ f32_key v <= f32_key (max_ss a v)) as (Hf & Hor & Hka & Hkv).
    { unfold max_ss. rewrite f32_lt_finite by done.
      destruct (Z.ltb_spec (f32_key v) (f32_key a)); split_and!; auto; lia. }
    destruct (IH (max_ss a v) Hf Hl) as (Hrf & Hrin & Hrk & Hrall).
    split_and!; [done| |lia|].
    + destruct Hrin as [->|Hin]; [|right; by apply elem_of_cons; right].
      destruct Hor as [->| ->]; [by left | right; apply elem_of_cons; by left].
    + constructor; [lia|done].
Qed.

Lemma min_of_finite (l : list Z) :
  l <> [] -> Forall (fun v => f32_is_finite v = true) l ->
  is_min_of (foldl min_ss FLT_MAX l) l.
Proof.
  destruct l as [|v l]; [done|]. intros _ Hl. cbn [foldl].
  pose proof Hl as [Hv Hl']%Forall_cons.
  assert (min_ss FLT_MAX v = v) as ->.
  { unfold min_ss. rewrite f32_lt_finite by done.
    pose proof (f32_key_finite v Hv). destruct (Z.ltb_spec (f32_key FLT_MAX) (f32_key v)); [lia|done]. }
  destruct (foldl_min_ss l v Hv Hl') as (Hrf & Hrin & Hrk & Hrall). split.
  - destruct Hrin as [->|Hin]; apply elem_of_cons; auto.
  - intros u Hu. rewrite Forall_forall in Hl, Hrall.
    rewrite f32_lt_finite by auto. apply Z.ltb_ge.
    apply elem_of_cons in Hu as [->|Hu]; [done | by apply Hrall].
Qed.

Lemma max_of_finite (l : list Z) :
  l <> [] -> Forall (fun v => f32_is_finite v = true) l ->
  is_max_of (foldl max_ss (f32_neg FLT_MAX) l) l.
Proof.
  destruct l as [|v l]; [done|]. intros _ Hl. cbn [foldl].
  pose proof Hl as [Hv Hl']%Forall_cons.
  assert (max_ss (f32_neg FLT_MAX) v = v) as ->.
  { unfold max_ss. rewrite f32_lt_finite by done.
    pose proof (f32_key_finite v Hv).
    change (f32_key (f32_neg FLT_MAX)) with (- f32_key FLT_MAX).
    destruct (Z.ltb_spec (f32_key v) (- f32_key FLT_MAX)); [lia|done]. }
  destruct (foldl_max_ss l v Hv Hl') as (Hrf & Hrin & Hrk & Hrall). split.
  - destruct Hrin as [->|Hin]; apply elem_of_cons; auto.
  - intros u Hu. rewrite Forall_forall in Hl, Hrall.
    rewrite f32_lt_finite by auto. apply Z.ltb_ge.
    apply elem_of_cons in Hu as [->|Hu]; [done | by apply Hrall].
Qed.

(** What the closure of [computeAxisAlignedBoundingBox] returns. *)
Lemma runBoundsTask_eq (w : World) (t : BoundsTask) :
  let vs := stream (mem w) (b_vertexStride t) (b_pVertexData t)
              (Z.to_nat (b_vertexCount t)) in
  runBoundsTask w t
  = Ret ({| minPos :=
              {| Vector3.x := foldl min_ss FLT_MAX (Vector3.x <$> vs);
                 Vector3.y := foldl min_ss FLT_MAX (Vector3.y <$> vs);
                 Vector3.z := foldl min_ss FLT_MAX (Vector3.z <$> vs) |};
            maxPos :=
              {| Vector3.x := foldl max_ss (f32_neg FLT_MAX) (Vector3.x <$> vs);
                 Vector3.y := foldl max_ss (f32_neg FLT_MAX) (Vector3.y <$> vs);
                 Vector3.z := foldl max_ss (f32_neg FLT_MAX) (Vector3.z <$> vs) |} |},
         [DecRef (b_vertexBuffer t)]).
Proof.
  intros vs. unfold runBoundsTask. rewrite bounds_loop_fold. fold vs.
  cbn [mbind run_bind]. unfold _mm_min_ps, _mm_max_ps.
  rewrite !(foldl_lane min_ss m128_f32_0 Vector3.x),
          !(foldl_lane min_ss m128_f32_1 Vector3.y),
          !(foldl_lane min_ss m128_f32_2 Vector3.z),
          !(foldl_lane max_ss m128_f32_0 Vector3.x),
          !(foldl_lane max_ss m128_f32_1 Vector3.y),
          !(foldl_lane max_ss m128_f32_2 Vector3.z) by done.
  done.
Qed.

(** What [computeAxisAlignedBoundingBox] schedules. *)
Lemma mapPtr_attached (w : World) (buffer : RasterBuffer) (offset : Z) :
  mapPtr w buffer offset <> 0 -> exists b, rb_buffer buffer = Some b.
Proof. unfold mapPtr. destruct (rb_buffer buffer) as [b|]; [by exists b | done]. Qed.

Lemma computeAxisAlignedBoundingBox_scheduled (options : RtxOptions) (w : World)
    (geoData : RasterGeometry) (b : BufId) :
  needsMeshBoundingBox options = true ->
  mapPtr w (positionBuffer geoData) (rb_offsetFromSlice (positionBuffer geoData)) <> 0 ->
  rb_buffer (positionBuffer geoData) = Some b ->
  computeAxisAlignedBoundingBox options w geoData
  = Ret (Scheduled
           {| b_pVertexData :=
                mapPtr w (positionBuffer geoData)
                  (rb_offsetFromSlice (positionBuffer geoData));
              b_vertexCount := wrap32 (vertexCount geoData);
              b_vertexStride := rb_stride (positionBuffer geoData);
              b_vertexBuffer := b |},
         [IncRef b; Schedule]).
Proof.
  intros Hneeds Hptr Hbuf. unfold computeAxisAlignedBoundingBox.
  rewrite Hneeds, Hbuf. cbn [negb].
  by destruct (Z.eqb_spec (mapPtr w (positionBuffer geoData)
                             (rb_offsetFromSlice (positionBuffer geoData))) 0).
Qed.

(** C8, as amended. For a geometry with at least one vertex, a non-null
    mapped position pointer and bounding boxes enabled, whose position
    vectors have only finite coordinates (no NaN, no infinity), each
    coordinate of the min corner delivered by the future is a least
    coordinate of the position vectors read from the stream at the given
    stride, and each coordinate of the max corner a greatest one. *)
Theorem bounding_box_min_max (options : RtxOptions) (w : World)
    (geoData : RasterGeometry) :
  let p := mapPtr w (positionBuffer geoData) (rb_offsetFromSlice (positionBuffer geoData)) in
  let vs := stream (mem w) (rb_stride (positionBuffer geoData)) p
              (Z.to_nat (vertexCount geoData)) in
  needsMeshBoundingBox options = true ->
  1 <= vertexCount geoData < 2 ^ 32 ->
  p <> 0 ->
  Forall finite_vector vs ->
  exists b t box,
    computeAxisAlignedBoundingBox options w geoData = Ret (Scheduled t, [IncRef b; Schedule])
    /\ runBoundsTask w t = Ret (box, [DecRef b])
    /\ is_min_of (Vector3.x (minPos box)) (Vector3.x <$> vs)
    /\ is_min_of (Vector3.y (minPos box)) (Vector3.y <$> vs)
    /\ is_min_of (Vector3.z (minPos box)) (Vector3.z <$> vs)
    /\ is_max_of (Vector3.x (maxPos box)) (Vector3.x <$> vs)
    /\ is_max_of (Vector3.y (maxPos box)) (Vector3.y <$> vs)
    /\ is_max_of (Vector3.z (maxPos box)) (Vector3.z <$> vs).
Proof.
  intros p vs Hneeds Hvc Hptr Hfin.
  destruct (mapPtr_attached _ _ _ Hptr) as [b Hbuf].
  exists b. eexists _, _. split; [by apply computeAxisAlignedBoundingBox_scheduled|].
  rewrite runBoundsTask_eq.
  cbn [b_pVertexData b_vertexCount b_vertexStride b_vertexBuffer].
  assert (wrap32 (vertexCount geoData) = vertexCount geoData) as ->
    by (unfold wrap32; apply Z.mod_small; lia).
  fold p. fold vs. split; [reflexivity|]. cbn [minPos maxPos Vector3.x Vector3.y Vector3.z].
  assert (vs <> []) as Hne.
  { subst vs. destruct (Z.to_nat (vertexCount geoData)) eqn:E; [lia|done]. }
  assert (forall (f : Vector3.t -> Z), f <$> vs <> []) as Hne'.
  { intros f Hnil. apply fmap_nil_inv in Hnil. done. }
  assert (Forall (fun v => f32_is_finite v = true) (Vector3.x <$> vs)
          /\ Forall (fun v => f32_is_finite v = true) (Vector3.y <$> vs)
          /\ Forall (fun v => f32_is_finite v = true) (Vector3.z <$> vs))
    as (Hx & Hy & Hz).
  { split_and!; apply Forall_fmap; (eapply Forall_impl; [exact Hfin|]);
      intros v (? & ? & ?); done. }
  split_and!; first [by apply min_of_finite | by apply max_of_finite].
Qed.

Lemma finite_vectors_by_check (l : list Vector3.t) :
  forallb (fun v => f32_is_finite (Vector3.x v) && f32_is_finite (Vector3.y v)
                    && f32_is_finite (Vector3.z v)) l = true ->
  Forall finite_vector l.
Proof.
  intros Hall. rewrite forallb_forall in Hall. apply Forall_forall.
  intros v Hv%list_elem_of_In%Hall. unfold finite_vector.
  by repeat (apply andb_prop in Hv as [Hv ?]).
Qed.

Lemma bounding_box_min_max_quad :
  exists b t box,
    computeAxisAlignedBoundingBox allComponents quadWorld (quadGeometry noBuffer)
      = Ret (Scheduled t, [IncRef b; Schedule])
    /\ runBoundsTask quadWorld t = Ret (box, [DecRef b])
    /\ box = {| minPos := {| Vector3.x := 0; Vector3.y := 0; Vector3.z := 0 |};
                maxPos := {| Vector3.x := 0x3F800000; Vector3.y := 0x3F800000;
                             Vector3.z := 0 |} |}
    /\ is_min_of (Vector3.x (minPos box)) [0; 0x3F800000; 0x3F800000; 0]
    /\ is_max_of (Vector3.y (maxPos box)) [0; 0; 0x3F800000; 0x3F800000].
Proof.
  destruct (bounding_box_min_max allComponents quadWorld (quadGeometry noBuffer))
    as (b & t & box & Hc & Hr & Hminx & _ & _ & _ & Hmaxy & _).
  - reflexivity.
  - unfold quadGeometry, vertexCount. lia.
  - vm_compute. discriminate.
  - apply finite_vectors_by_check. vm_compute. reflexivity.
  - exists b, t, box. split; [exact Hc|]. split; [exact Hr|].
    split; [|split; [exact Hminx | exact Hmaxy]].
    injection Hc as <- _. vm_compute in Hr. by injection Hr.
Defined.

(** The claim C8 as stated fails on coordinates that are not finite. For
    the single vertex (+infinity, 0, 0) the min corner has x = FLT_MAX,
    which is less than the only x read. For the vertices (1, 0, 0) and
    (NaN, 0, 0) both corners have x = NaN. *)
Lemma bounding_box_not_min_max :
  (exists t box,
     computeAxisAlignedBoundingBox allComponents (wordsWorld [0x7F800000; 0; 0]) (points 1)
       = Ret (Scheduled t, [IncRef 1%nat; Schedule])
     /\ runBoundsTask (wordsWorld [0x7F800000; 0; 0]) t = Ret (box, [DecRef 1%nat])
     /\ stream (mem (wordsWorld [0x7F800000; 0; 0])) 12 4096 1
        = [{| Vector3.x := 0x7F800000; Vector3.y := 0; Vector3.z := 0 |}]
     /\ Vector3.x (minPos box) = FLT_MAX
     /\ f32_lt (Vector3.x (minPos box)) 0x7F800000 = true)
  /\
  (exists t box,
     computeAxisAlignedBoundingBox allComponents
       (wordsWorld [0x3F800000; 0; 0; 0x7FC00000; 0; 0]) (points 2)
       = Ret (Scheduled t, [IncRef 1%nat; Schedule])
     /\ runBoundsTask (wordsWorld [0x3F800000; 0; 0; 0x7FC00000; 0; 0]) t
        = Ret (box, [DecRef 1%nat])
     /\ Vector3.x (minPos box) = 0x7FC00000
     /\ Vector3.x (maxPos box) = 0x7FC00000
     /\ f32_is_nan 0x7FC00000 = true).
Proof.
  split; eexists _, _; (split; [vm_compute; reflexivity|]);
    (split; [vm_compute; reflexivity|]); split_and!; vm_compute; reflexivity.
Qed.

(** C10. With no vertices, bounding boxes enabled and a non-null mapped
    position pointer, the future is valid and delivers the inverted box:
    min corner (FLT_MAX, FLT_MAX, FLT_MAX), max corner (-FLT_MAX, -FLT_MAX,
    -FLT_MAX). *)
Theorem bounding_box_of_empty_stream (options : RtxOptions) (w : World)
    (geoData : RasterGeometry) :
  needsMeshBoundingBox options = true ->
  vertexCount geoData = 0 ->
  mapPtr w (positionBuffer geoData) (rb_offsetFromSlice (positionBuffer geoData)) <> 0 ->
  exists b t,
    computeAxisAlignedBoundingBox options w geoData = Ret (Scheduled t, [IncRef b; Schedule])
    /\ valid (Scheduled t) = true
    /\ runBoundsTask w t
       = Ret ({| minPos := {| Vector3.x := FLT_MAX; Vector3.y := FLT_MAX;
                              Vector3.z := FLT_MAX |};
                 maxPos := {| Vector3.x := f32_neg FLT_MAX; Vector3.y := f32_neg FLT_MAX;
                              Vector3.z := f32_neg FLT_MAX |} |},
              [DecRef b]).
Proof.
  intros Hneeds Hvc Hptr.
  destruct (mapPtr_attached _ _ _ Hptr) as [b Hbuf].
  exists b. eexists. split; [by apply computeAxisAlignedBoundingBox_scheduled|].
  split; [done|].
  rewrite runBoundsTask_eq. cbn [b_vertexCount b_vertexBuffer]. by rewrite Hvc.
Qed.

Lemma bounding_box_of_empty_stream_sample :
  exists b t,
    computeAxisAlignedBoundingBox allComponents quadWorld emptyDraw
      = Ret (Scheduled t, [IncRef b; Schedule])
    /\ valid (Scheduled t) = true
    /\ runBoundsTask quadWorld t
       = Ret ({| minPos := {| Vector3.x := 0x7F7FFFFF; Vector3.y := 0x7F7FFFFF;
                              Vector3.z := 0x7F7FFFFF |};
                 maxPos := {| Vector3.x := 0xFF7FFFFF; Vector3.y := 0xFF7FFFFF;
                              Vector3.z := 0xFF7FFFFF |} |},
              [DecRef b]).
Proof.
  apply (bounding_box_of_empty_stream allComponents quadWorld emptyDraw).
  - reflexivity.
  - reflexivity.
  - vm_compute. discriminate.
Defined.

(** * Further properties of the code *)

(** ** The index deduplicator: bounds, size, and what it depends on *)

Lemma forallb_ltb_Forall (range : Z) (l : list Z) :
  forallb (fun v => v <? range) l = true <-> Forall (fun v => v < range) l.
Proof.
  induction l as [|v l IH]; cbn [forallb].
  - split; [constructor|done].
  - rewrite andb_true_iff, Forall_cons, IH, Z.ltb_lt. done.
Qed.

Lemma forallb_ltb_Exists (range : Z) (l : list Z) :
  forallb (fun v => v <? range) l = false <-> Exists (fun v => range <= v) l.
Proof.
  induction l as [|v l IH]; cbn [forallb].
  - split; [done|]. by intros ?%Exists_nil.
  - rewrite andb_false_iff, Exists_cons, IH, Z.ltb_ge. done.
Qed.

(** X1. The first loop of [deduplicateSortIndices] writes bin [index] with
    no check ([assert] is compiled out): on a fresh vector the call returns
    when every index value is below [indexRange = maxIndexValue + 1]
    (computed in uint32_t), and writes outside the vector as soon as one
    index value is not. *)
Theorem deduplicateSortIndices_bins_in_range
    (T : IndexT) (m : Memory) (pIndexData indexCount maxIndexValue : Z) :
  indexCount < 2 ^ 32 ->
  (Forall (fun v => v < wrap32 (maxIndexValue + 1))
     (index_values T m pIndexData indexCount) ->
   exists out, deduplicateSortIndices T m pIndexData indexCount maxIndexValue [] = Ret out)
  /\ (Exists (fun v => wrap32 (maxIndexValue + 1) <= v)
        (index_values T m pIndexData indexCount) ->
      deduplicateSortIndices T m pIndexData indexCount maxIndexValue [] = Fault OutOfBounds).
Proof.
  intros Hn. rewrite deduplicateSortIndices_fresh. cbv zeta.
  destruct (Z.leb_spec (2 ^ 32) indexCount) as [?|_]; [lia|]. split.
  - intros Hall%forallb_ltb_Forall. rewrite Hall. by eexists.
  - intros Hex%forallb_ltb_Exists. by rewrite Hex.
Qed.

Lemma deduplicateSortIndices_bins_in_range_sample :
  deduplicateSortIndices UInt16 (store_segments [(4096, halves_le [0; 5])]) 4096 2 3 []
  = Fault OutOfBounds.
Proof.
  apply (deduplicateSortIndices_bins_in_range
           UInt16 (store_segments [(4096, halves_le [0; 5])]) 4096 2 3); [lia|].
  assert (index_values UInt16 (store_segments [(4096, halves_le [0; 5])]) 4096 2 = [0; 5])
    as -> by (vm_compute; reflexivity).
  apply Exists_cons. right. apply Exists_cons. left. vm_compute. discriminate.
Defined.

Lemma length_index_values (T : IndexT) (m : Memory) (p n : Z) :
  length (index_values T m p n) = Z.to_nat n.
Proof. unfold index_values. by rewrite length_fmap, length_seq. Qed.

(** X2. The list [deduplicateSortIndices] returns is never longer than the
    index buffer nor than [indexRange]; for an empty index buffer it is
    empty. *)
Theorem deduplicateSortIndices_length
    (T : IndexT) (m : Memory) (pIndexData indexCount maxIndexValue : Z) (out : list Z) :
  deduplicateSortIndices T m pIndexData indexCount maxIndexValue [] = Ret out ->
  (length out <= Z.to_nat indexCount)%nat
  /\ Z.of_nat (length out) <= wrap32 (maxIndexValue + 1)
  /\ (indexCount <= 0 -> out = []).
Proof.
  intros [-> _]%deduplicateSortIndices_Ret_inv.
  assert (length (unique_values (index_values T m pIndexData indexCount)
                    (wrap32 (maxIndexValue + 1))) <= Z.to_nat indexCount)%nat as Hlen.
  { rewrite <- (length_index_values T m pIndexData indexCount).
    apply submseteq_length, NoDup_submseteq.
    - apply StronglySorted_lt_NoDup, unique_values_sorted.
    - by intros v [Hv _]%elem_of_unique_values. }
  split_and!; [done| |].
  - apply length_unique_values, Z.mod_pos_bound. lia.
  - intros Hn. apply nil_length_inv. lia.
Qed.

Lemma deduplicateSortIndices_length_quad :
  (length [0; 2] <= Z.to_nat 4)%nat
  /\ Z.of_nat (length [0; 2]) <= wrap32 (3 + 1)
  /\ (4 <= 0 -> [0; 2] = @nil Z).
Proof.
  apply (deduplicateSortIndices_length UInt16
           (store_segments [(4096, halves_le [0; 2; 2; 0])]) 4096 4 3 [0; 2]).
  vm_compute. reflexivity.
Defined.

(** X3. On a fresh vector the result of [deduplicateSortIndices] depends
    only on the set of index values present: two index buffers, of any
    lengths below 2^32 and in any memories, that hold the same set of
    values give the same outcome, be it a list or a fault. *)
Theorem deduplicateSortIndices_same_values
    (T : IndexT) (m1 m2 : Memory) (p1 p2 n1 n2 maxIndexValue : Z) :
  n1 < 2 ^ 32 -> n2 < 2 ^ 32 ->
  (forall v, v ∈ index_values T m1 p1 n1 <-> v ∈ index_values T m2 p2 n2) ->
  deduplicateSortIndices T m1 p1 n1 maxIndexValue []
  = deduplicateSortIndices T m2 p2 n2 maxIndexValue [].
Proof.
  intros Hn1 Hn2 Hsame. rewrite !deduplicateSortIndices_fresh. cbv zeta.
  destruct (Z.leb_spec (2 ^ 32) n1) as [?|_]; [lia|].
  destruct (Z.leb_spec (2 ^ 32) n2) as [?|_]; [lia|].
  assert (forallb (fun v => v <? wrap32 (maxIndexValue + 1)) (index_values T m1 p1 n1)
          = forallb (fun v => v <? wrap32 (maxIndexValue + 1)) (index_values T m2 p2 n2))
    as ->.
  { apply eq_true_iff_eq. rewrite !forallb_ltb_Forall, !Forall_forall.
    split; intros Hall v Hv; apply Hall, Hsame, Hv. }
  destruct (forallb _ _); [|done]. f_equal.
  unfold unique_values. apply list_filter_iff. intros j. apply Hsame.
Qed.

Lemma deduplicateSortIndices_same_values_quad :
  deduplicateSortIndices UInt16 (mem quadWorld) 8192 4 3 []
  = deduplicateSortIndices UInt16 (mem quadWorld) 8448 2 3 [].
Proof.
  apply (deduplicateSortIndices_same_values UInt16 (mem quadWorld) (mem quadWorld)
           8192 8448 4 2 3); [lia | lia |].
  assert (index_values UInt16 (mem quadWorld) 8192 4 = [0; 2; 2; 0])
    as -> by (vm_compute; reflexivity).
  assert (index_values UInt16 (mem quadWorld) 8448 2 = [2; 0])
    as -> by (vm_compute; reflexivity).
  intros v. rewrite !elem_of_cons, !elem_of_nil. tauto.
Defined.

(** ** The index deduplicator on a vector that is not empty *)

Lemma compact_bin_set (T : IndexT) (i c : nat) (b : Z) (out : list Z) :
  out !! i = Some b ->
  b <> 0 ->
  (c <= i)%nat ->
  0 <= Z.of_nat i < 2 ^ (8 * sizeofT T) ->
  Z.of_nat i < 2 ^ 32 - 1 ->
  compact_bin T (Z.of_nat i) (out, Z.of_nat c)
  = Ret (<[c := Z.of_nat i]> out, Z.of_nat (S c)).
Proof.
  intros Hi Hb Hc Hsmall Hbound.
  unfold compact_bin, vec_get, vec_set. rewrite !Nat2Z.id, Hi. cbn [mbind run_bind].
  destruct (Z.eqb_spec b 0) as [?|_]; [done|].
  apply lookup_lt_Some in Hi.
  rewrite bool_decide_eq_true_2 by lia. cbn [mbind run_bind].
  rewrite castT_small by done.
  unfold wrap32. rewrite Z.mod_small by lia. do 2 f_equal. lia.
Qed.

(** The second loop over bins of any content: it collects the positions of
    the bins that are not zero. *)
Lemma compact_loop_bins (T : IndexT) (Q : Z -> Prop) `{!forall j, Decision (Q j)}
    (k i c : nat) (out : list Z) :
  length out = (i + k)%nat ->
  Z.of_nat (i + k) < 2 ^ 32 ->
  Z.of_nat (i + k) <= 2 ^ (8 * sizeofT T) ->
  (c <= i)%nat ->
  (forall j, (i <= j < i + k)%nat ->
             exists b, out !! j = Some b /\ (b <> 0 <-> Q (Z.of_nat j))) ->
  let fl := filter Q (seqZ (Z.of_nat i) (Z.of_nat k)) in
  exists out',
    for_range i k (compact_bin T) (out, Z.of_nat c) = Ret (out', Z.of_nat (c + length fl))
    /\ length out' = length out
    /\ take (c + length fl) out' = take c out ++ fl.
Proof.
  revert i c out. induction k as [|k IH]; intros i c out Hlen Hbound Hsmall Hc Hbins fl.
  - exists out. subst fl. simpl. rewrite Nat.add_0_r, app_nil_r. done.
  - subst fl. rewrite seqZ_succ_nat, filter_cons.
    cbn [for_range]. destruct (Hbins i) as (b & Hi & Hb); [lia|].
    destruct (decide (Q (Z.of_nat i))) as [Hin|Hin].
    + rewrite (compact_bin_set T i c b); [|done|by apply Hb|lia|lia|lia].
      cbn [mbind run_bind].
      destruct (IH (S i) (S c) (<[c := Z.of_nat i]> out)) as (out' & Hrun & Hlen' & Htake).
      * rewrite length_insert. lia.
      * replace (S i + k)%nat with (i + S k)%nat by lia. done.
      * replace (S i + k)%nat with (i + S k)%nat by lia. done.
      * lia.
      * intros j Hj. rewrite list_lookup_insert_ne by lia. apply Hbins. lia.
      * exists out'. cbn [length]. split_and!.
        -- rewrite Hrun. do 3 f_equal. lia.
        -- by rewrite Hlen', length_insert.
        -- replace (c + S (length (filter Q (seqZ (Z.of_nat (S i)) (Z.of_nat k)))))%nat
             with (S c + length (filter Q (seqZ (Z.of_nat (S i)) (Z.of_nat k))))%nat by lia.
           rewrite Htake.
           rewrite (take_S_r _ c (Z.of_nat i)) by (apply list_lookup_insert_eq; lia).
           rewrite take_insert_ge by lia. by rewrite <- app_assoc.
    + assert (b = 0) as -> by (destruct (decide (b = 0)) as [?|Hnz]; [done | by apply Hb in Hnz]).
      rewrite compact_bin_clear by done. cbn [mbind run_bind].
      destruct (IH (S i) c out) as (out' & Hrun & Hlen' & Htake).
      * lia.
      * replace (S i + k)%nat with (i + S k)%nat by lia. done.
      * replace (S i + k)%nat with (i + S k)%nat by lia. done.
      * lia.
      * intros j Hj. apply Hbins. lia.
      * exists out'. done.
Qed.

(** X4. [deduplicateSortIndices] does not clear a vector it is handed:
    [resize] keeps the elements already there, so a bin that is not zero on
    entry counts as marked. With every index value below [indexRange], and
    [indexRange] within the range of [T], the result is the ascending list
    of the positions below [indexRange] that occur in the index buffer or
    whose bin was not zero on entry. *)
Theorem deduplicateSortIndices_reused_vector
    (T : IndexT) (m : Memory) (pIndexData indexCount maxIndexValue : Z)
    (uniqueIndicesOut : list Z) :
  indexCount < 2 ^ 32 ->
  wrap32 (maxIndexValue + 1) <= 2 ^ (8 * sizeofT T) ->
  Forall (fun v => v < wrap32 (maxIndexValue + 1))
    (index_values T m pIndexData indexCount) ->
  deduplicateSortIndices T m pIndexData indexCount maxIndexValue uniqueIndicesOut
  = Ret (filter (fun j => j ∈ index_values T m pIndexData indexCount
                          \/ stale_bin uniqueIndicesOut j)
           (seqZ 0 (wrap32 (maxIndexValue + 1)))).
Proof.
  intros Hn Hsmall Hall. unfold deduplicateSortIndices.
  set (indexRange := wrap32 (maxIndexValue + 1)) in *.
  set (vs := index_values T m pIndexData indexCount) in *.
  assert (0 <= indexRange < 2 ^ 32) as HR by (apply Z.mod_pos_bound; lia).
  assert (castT T 0 = 0) as -> by (by destruct T).
  destruct (Z.leb_spec (2 ^ 32) indexCount) as [?|_]; [lia|].
  set (R := Z.to_nat indexRange).
  set (out := resize R 0 uniqueIndicesOut).
  assert (length out = R) as Hlen by apply length_resize.
  rewrite mark_loop_spec. fold (index_values T m pIndexData indexCount). fold vs.
  rewrite Hlen. replace (Z.of_nat R) with indexRange by lia.
  rewrite (proj2 (forallb_ltb_Forall indexRange vs)) by done.
  cbn [mbind run_bind].
  destruct (compact_loop_bins T (fun j => j ∈ vs \/ stale_bin uniqueIndicesOut j)
              R 0 0 (mark_all out vs)) as (out' & Hrun & Hlen' & Htake).
  - by rewrite length_mark_all.
  - lia.
  - lia.
  - lia.
  - intros j Hj. rewrite lookup_mark_all.
    + destruct (decide (Z.of_nat j ∈ vs)) as [Hin|Hin].
      * exists 1. split; [done|]. split; [by left | done].
      * unfold stale_bin. rewrite Nat2Z.id.
        destruct (decide (j < length uniqueIndicesOut)%nat) as [Hold|Hnew].
        -- subst out. rewrite lookup_resize by lia.
           destruct (lookup_lt_is_Some_2 _ _ Hold) as [b Hb]. rewrite Hb.
           exists b. split; [done|]. cbn. split; [by right | by intros [?|?]].
        -- subst out. rewrite lookup_resize_new by lia.
           rewrite (lookup_ge_None_2 uniqueIndicesOut j) by lia.
           exists 0. split; [done|]. cbn. split; [done | by intros [?|?]].
    + apply Forall_forall. intros v Hv. apply index_values_range in Hv. lia.
    + lia.
  - change (Z.of_nat 0) with 0 in Hrun.
    rewrite Hrun. cbn [mbind run_bind]. f_equal.
    rewrite Nat2Z.id. cbn [Nat.add] in *. rewrite take_0 in Htake. cbn [app] in Htake.
    replace (Z.of_nat R) with indexRange in * by lia.
    rewrite resize_le; [done|].
    rewrite Hlen', length_mark_all, Hlen.
    pose proof (length_filter (fun j => j ∈ vs \/ stale_bin uniqueIndicesOut j)
                  (seqZ 0 indexRange)) as Hl.
    rewrite length_seqZ in Hl. lia.
Qed.

Lemma deduplicateSortIndices_reused_vector_quad :
  deduplicateSortIndices UInt16 (mem quadWorld) 8192 4 3 [0; 7]
  = Ret (filter (fun j => j ∈ index_values UInt16 (mem quadWorld) 8192 4
                          \/ stale_bin [0; 7] j)
           (seqZ 0 (wrap32 (3 + 1))))
  /\ deduplicateSortIndices UInt16 (mem quadWorld) 8192 4 3 [0; 7] = Ret [0; 1; 2]
  /\ deduplicateSortIndices UInt16 (mem quadWorld) 8192 4 3 [] = Ret [0; 2].
Proof.
  split; [|split; vm_compute; reflexivity].
  apply (deduplicateSortIndices_reused_vector UInt16 (mem quadWorld) 8192 4 3 [0; 7]);
    [lia | vm_compute; discriminate |].
  apply forallb_ltb_Forall. vm_compute. reflexivity.
Defined.

(** ** How a hashing operation ends *)

(** X5. How a hashing operation over mapped buffers ends, when an index
    buffer is attached wherever the index stride is 2 or 4 (what the assert
    of [hashGeometryData] states). It delivers no hashes exactly when the
    position stream is undefined, and then nothing was pinned. Otherwise
    the closure runs: on the non-indexed path it completes; on an indexed
    path it completes when every index value is below [indexRange], and
    writes outside the bin table when one is not. It makes no call through
    a null buffer pointer, and its loops terminate, the counts being
    32-bit. *)
Theorem hashOperation_outcome
    (H : Hashing) (options : RtxOptions) (w : World) (vs : VertexShaderState)
    (geoData : RasterGeometry) (maxIndexValue : Z) :
  let T := indexArgOf (rb_stride (indexBuffer geoData)) in
  let indexRange := wrap32 (maxIndexValue + 1) in
  buffers_mapped w geoData ->
  (T <> NoIndices -> rb_defined (indexBuffer geoData) = true) ->
  match hashOperation H options w vs geoData maxIndexValue with
  | Ret (Some _, _, _) =>
      rb_defined (positionBuffer geoData) = true
      /\ forall T', T = Indexed T' ->
           Forall (fun v => v < indexRange) (indexValuesOf w geoData T')
  | Ret (None, submitted, worked) =>
      rb_defined (positionBuffer geoData) = false /\ submitted = [] /\ worked = []
  | Fault f =>
      rb_defined (positionBuffer geoData) = true
      /\ f = OutOfBounds
      /\ exists T', T = Indexed T'
           /\ Exists (fun v => indexRange <= v) (indexValuesOf w geoData T')
  end.
Proof.
  cbv zeta. intros _ Hattached.
  unfold hashOperation. rewrite computeHash_eq. unfold rb_defined, indexValuesOf in *.
  destruct (rb_buffer (positionBuffer geoData)) as [bp|]; cbn [mbind run_bind]; [|done].
  unfold runHashTask, hashGeometryData.
  cbn [taskOf t_indexStride t_indexCount t_maxIndexValue t_pIndexData t_indexBufferRef].
  destruct (indexArgOf (rb_stride (indexBuffer geoData))) as [T|].
  - unfold hashIndexData. rewrite deduplicateSortIndices_fresh. cbv zeta.
    assert (0 <= wrap32 (indexCount geoData) < 2 ^ 32) as Hn
      by (apply Z.mod_pos_bound; lia).
    destruct (Z.leb_spec (2 ^ 32) (wrap32 (indexCount geoData))) as [?|_]; [lia|].
    destruct (rb_buffer (indexBuffer geoData)) as [bi|];
      [|by specialize (Hattached ltac:(done))].
    destruct (forallb _ _) eqn:Hall; cbn [release_decRef mbind run_bind].
    + apply forallb_ltb_Forall in Hall. split; [done|]. by intros T' [= <-].
    + apply forallb_ltb_Exists in Hall. split; [done|]. split; [done|]. by exists T.
  - cbn [mbind run_bind]. split; [done|]. intros T' HT. discriminate HT.
Qed.

Lemma mapped_by_check (w : World) (geoData : RasterGeometry) :
  forallb (fun b => negb (rb_defined b) || negb (mapPtr w b (rb_offsetFromSlice b) =? 0))
    [positionBuffer geoData; texcoordBuffer geoData]
  && (negb (rb_defined (indexBuffer geoData)) || negb (mapPtr w (indexBuffer geoData) 0 =? 0))
  = true ->
  buffers_mapped w geoData.
Proof.
  intros [Hv Hi]%andb_prop. rewrite forallb_forall in Hv. split.
  - intros b Hb%list_elem_of_In%Hv Hdef. rewrite Hdef in Hb. cbn in Hb.
    by apply negb_true_iff, Z.eqb_neq in Hb.
  - intros Hdef. rewrite Hdef in Hi. cbn in Hi.
    by apply negb_true_iff, Z.eqb_neq in Hi.
Qed.

Lemma hashOperation_outcome_sample :
  match hashOperation fnvHashing allComponents spillWorldA fixedFunction
          (quadGeometry (indexBuffer16 2%nat)) 3 with
  | Ret (Some _, _, _) =>
      rb_defined (positionBuffer (quadGeometry (indexBuffer16 2%nat))) = true
      /\ forall T', indexArgOf (rb_stride (indexBuffer (quadGeometry (indexBuffer16 2%nat))))
                    = Indexed T' ->
           Forall (fun v => v < wrap32 (3 + 1))
             (indexValuesOf spillWorldA (quadGeometry (indexBuffer16 2%nat)) T')
  | Ret (None, submitted, worked) =>
      rb_defined (positionBuffer (quadGeometry (indexBuffer16 2%nat))) = false
      /\ submitted = [] /\ worked = []
  | Fault f =>
      rb_defined (positionBuffer (quadGeometry (indexBuffer16 2%nat))) = true
      /\ f = OutOfBounds
      /\ exists T', indexArgOf (rb_stride (indexBuffer (quadGeometry (indexBuffer16 2%nat))))
                    = Indexed T'
           /\ Exists (fun v => wrap32 (3 + 1) <= v)
                (indexValuesOf spillWorldA (quadGeometry (indexBuffer16 2%nat)) T')
  end
  /\ hashOperation fnvHashing allComponents spillWorldA fixedFunction
       (quadGeometry (indexBuffer16 2%nat)) 3 = Fault OutOfBounds.
Proof.
  split; [|vm_compute; reflexivity].
  apply (hashOperation_outcome fnvHashing allComponents spillWorldA fixedFunction
           (quadGeometry (indexBuffer16 2%nat)) 3).
  - apply mapped_by_check. vm_compute. reflexivity.
  - intros _. reflexivity.
Defined.

(** ** Buffer pins of a hashing operation *)

(** The events of an operation that delivers hashes. *)
Lemma hashOperation_events (H : Hashing) (options : RtxOptions) (w : World)
    (vs : VertexShaderState) (geoData : RasterGeometry) (maxIndexValue : Z)
    (h : GeometryHashes) (submitted worked : list Event) :
  hashOperation H options w vs geoData maxIndexValue = Ret (Some h, submitted, worked) ->
  exists bp,
    rb_buffer (positionBuffer geoData) = Some bp
    /\ submitted = submissionEvents geoData bp
    /\ worked
       = match indexArgOf (rb_stride (indexBuffer geoData)), rb_buffer (indexBuffer geoData) with
         | Indexed _, Some b => [Release b; DecRef b]
         | _, _ => []
         end
         ++ releaseRegion (regionOf w (positionBuffer geoData) (wrap32 (vertexCount geoData)))
         ++ releaseRegion (regionOf w (texcoordBuffer geoData) (wrap32 (vertexCount geoData)))
    /\ (indexArgOf (rb_stride (indexBuffer geoData)) <> NoIndices ->
        is_Some (rb_buffer (indexBuffer geoData))).
Proof.
  unfold hashOperation. rewrite computeHash_eq.
  destruct (rb_buffer (positionBuffer geoData)) as [bp|]; cbn [mbind run_bind]; [|done].
  unfold runHashTask.
  cbn [taskOf t_vertexRegions t_indexStride t_indexCount t_maxIndexValue t_pIndexData
       t_indexBufferRef].
  match goal with
  | |- context [hashGeometryData ?H ?o ?w ?T ?n ?mx ?p ?ib ?vr ?h0] =>
      destruct (hashGeometryData H o w T n mx p ib vr h0) as [[h' evs']|f] eqn:Hg;
      cbn [mbind run_bind]; [|done]
  end.
  intros [= _ <- <-]. apply hashGeometryData_events in Hg as [-> Hsome].
  exists bp. split_and!; done.
Qed.

(** The buffer events of a region, by cases. *)
Lemma releaseRegion_regionOf (w : World) (buffer : RasterBuffer) (n : Z) :
  releaseRegion (regionOf w buffer n)
  = match rb_buffer buffer with
    | Some b => if rb_stride buffer * n =? 0 then [] else [Release b; DecRef b]
    | None => []
    end.
Proof.
  unfold releaseRegion, regionOf, getVertexRegion, rb_defined.
  destruct (rb_buffer buffer) as [b|]; unfold default, from_option, id; cbn; [|done].
  by destruct (rb_stride buffer * n =? 0).
Qed.



(** X7. The number of pins a hashing operation never undoes. The closure
    lets go of the index buffer only on the indexed paths and skips every
    vertex region of size 0, so the acquires of the submission exceed the
    releases of the closure by exactly: one for an attached index buffer
    whose stride is neither 2 nor 4, one for a position stream of byte size
    0, one for a defined texcoord stream of byte size 0. The same holds of
    incRef and decRef. *)
Theorem hashOperation_unreleased_pins
    (H : Hashing) (options : RtxOptions) (w : World) (vs : VertexShaderState)
    (geoData : RasterGeometry) (maxIndexValue : Z)
    (hashes : GeometryHashes) (submitted worked : list Event) :
  hashOperation H options w vs geoData maxIndexValue = Ret (Some hashes, submitted, worked) ->
  length (acquires submitted)
  = (length (releases worked) + unreleased_pins geoData)%nat
  /\ length (incRefs submitted)
     = (length (decRefs worked) + unreleased_pins geoData)%nat.
Proof.
  intros (bp & Hbp & -> & -> & Hsome)%hashOperation_events.
  rewrite !releaseRegion_regionOf, Hbp.
  unfold submissionEvents, unreleased_pins, rb_defined.
  destruct (indexArgOf (rb_stride (indexBuffer geoData))) as [T|];
    destruct (rb_buffer (indexBuffer geoData)) as [bi|];
    try (by destruct Hsome as [? [=]]);
    destruct (rb_buffer (texcoordBuffer geoData)) as [bt|];
    destruct (rb_stride (positionBuffer geoData) * wrap32 (vertexCount geoData) =? 0);
    try destruct (rb_stride (texcoordBuffer geoData) * wrap32 (vertexCount geoData) =? 0);
    cbn; done.
Qed.

Lemma hashOperation_unreleased_pins_sample :
  exists hashes submitted worked,
    hashOperation fnvHashing allComponents quadWorld fixedFunction emptyDraw 0
      = Ret (Some hashes, submitted, worked)
    /\ unreleased_pins emptyDraw = 1%nat
    /\ length (acquires submitted)
       = (length (releases worked) + unreleased_pins emptyDraw)%nat
    /\ length (incRefs submitted)
       = (length (decRefs worked) + unreleased_pins emptyDraw)%nat.
Proof.
  eexists _, _, _. split; [vm_compute; reflexivity|]. split; [vm_compute; reflexivity|].
  eapply (hashOperation_unreleased_pins fnvHashing allComponents quadWorld fixedFunction
            emptyDraw 0).
  vm_compute. reflexivity.
Defined.

(** ** What the non-indexed path leaves out *)

(** X8. When the index stride is neither 2 nor 4 the closure takes the
    [NoIndices] instance of [hashGeometryData]: whatever the hash rule, and
    whether or not an index buffer is attached, the Indices and
    LegacyIndices entries keep the empty hash, and the closure's only
    buffer events are those of the two vertex regions. *)
Theorem nonindexed_skips_index_hashes
    (H : Hashing) (options : RtxOptions) (w : World) (vs : VertexShaderState)
    (geoData : RasterGeometry) (maxIndexValue : Z)
    (hashes : GeometryHashes) (submitted worked : list Event) :
  rb_stride (indexBuffer geoData) <> 2 ->
  rb_stride (indexBuffer geoData) <> 4 ->
  hashOperation H options w vs geoData maxIndexValue = Ret (Some hashes, submitted, worked) ->
  fields hashes Indices = kEmptyHash H
  /\ fields hashes LegacyIndices = kEmptyHash H
  /\ worked
     = releaseRegion (regionOf w (positionBuffer geoData) (wrap32 (vertexCount geoData)))
       ++ releaseRegion (regionOf w (texcoordBuffer geoData) (wrap32 (vertexCount geoData))).
Proof.
  intros H2 H4 Hop.
  assert (indexArgOf (rb_stride (indexBuffer geoData)) = NoIndices) as HT.
  { unfold indexArgOf.
    destruct (Z.eqb_spec (rb_stride (indexBuffer geoData)) 2); [done|].
    by destruct (Z.eqb_spec (rb_stride (indexBuffer geoData)) 4). }
  pose proof Hop as (bp & _ & _ & Hk & _)%hashOperation_events.
  apply hashOperation_fields in Hop as (u & _ & _ & _ & HI & HL & _).
  rewrite HT in *. done.
Qed.

Lemma nonindexed_skips_index_hashes_quad :
  exists hashes submitted worked,
    hashOperation fnvHashing allComponents quadWorld fixedFunction
      (quadGeometry oddIndexBuffer) 3 = Ret (Some hashes, submitted, worked)
    /\ geometryHashGenerationRule allComponents Indices = true
    /\ fields hashes Indices = kEmptyHash fnvHashing
    /\ fields hashes LegacyIndices = kEmptyHash fnvHashing
    /\ worked
       = releaseRegion (regionOf quadWorld (positionBuffer (quadGeometry oddIndexBuffer))
                          (wrap32 (vertexCount (quadGeometry oddIndexBuffer))))
         ++ releaseRegion (regionOf quadWorld (texcoordBuffer (quadGeometry oddIndexBuffer))
                             (wrap32 (vertexCount (quadGeometry oddIndexBuffer)))).
Proof.
  eexists _, _, _. split; [vm_compute; reflexivity|]. split; [reflexivity|].
  eapply (nonindexed_skips_index_hashes fnvHashing allComponents quadWorld fixedFunction
            (quadGeometry oddIndexBuffer) 3);
    [discriminate | discriminate | vm_compute; reflexivity].
Defined.

(** ** What the legacy position hashes depend on *)

(** X9. The two legacy position hashes are taken over the whole position
    region, not over the referenced vertices: two geometries with the same
    position stream and vertex count get the same LegacyPositions0 and
    LegacyPositions1 entries, whatever their index buffers, index counts,
    texcoord streams and index bounds. *)
Theorem legacy_positions_ignore_indices
    (H : Hashing) (options : RtxOptions) (w : World) (vs1 vs2 : VertexShaderState)
    (g1 g2 : RasterGeometry) (max1 max2 : Z)
    (h1 h2 : GeometryHashes) (s1 k1 s2 k2 : list Event) :
  positionBuffer g2 = positionBuffer g1 ->
  wrap32 (vertexCount g2) = wrap32 (vertexCount g1) ->
  hashOperation H options w vs1 g1 max1 = Ret (Some h1, s1, k1) ->
  hashOperation H options w vs2 g2 max2 = Ret (Some h2, s2, k2) ->
  fields h1 LegacyPositions0 = fields h2 LegacyPositions0
  /\ fields h1 LegacyPositions1 = fields h2 LegacyPositions1.
Proof.
  intros HP HV Hop1 Hop2.
  apply hashOperation_fields in Hop1 as (u1 & _ & _ & _ & _ & _ & HL1 & _).
  apply hashOperation_fields in Hop2 as (u2 & _ & _ & _ & _ & _ & HL2 & _).
  rewrite HP, HV, <- HL1 in HL2. by injection HL2.
Qed.

Lemma legacy_positions_ignore_indices_quad :
  exists h1 h2 s1 k1 s2 k2,
    hashOperation fnvHashing allComponents quadWorld fixedFunction
      (quadGeometry (indexBuffer16 2%nat)) 3 = Ret (Some h1, s1, k1)
    /\ hashOperation fnvHashing allComponents quadWorld programmable
         (quadGeometry noBuffer) 0 = Ret (Some h2, s2, k2)
    /\ fields h1 LegacyPositions0 = fields h2 LegacyPositions0
    /\ fields h1 LegacyPositions1 = fields h2 LegacyPositions1.
Proof.
  eexists _, _, _, _, _, _.
  split; [vm_compute; reflexivity|]. split; [vm_compute; reflexivity|].
  eapply (legacy_positions_ignore_indices fnvHashing allComponents quadWorld
            fixedFunction programmable (quadGeometry (indexBuffer16 2%nat))
            (quadGeometry noBuffer) 3 0);
    [reflexivity | reflexivity | vm_compute; reflexivity | vm_compute; reflexivity].
Defined.

(** ** The bounding box submission *)

(** X10. [computeAxisAlignedBoundingBox] always returns. Its future is
    valid exactly when bounding boxes are enabled and the mapped position
    pointer is not null. An invalid future comes with no buffer event and
    no hand-off; a valid one with one incRef of the position buffer,
    followed by the hand-off. *)
Theorem computeAxisAlignedBoundingBox_future (options : RtxOptions) (w : World)
    (geoData : RasterGeometry) :
  let p := mapPtr w (positionBuffer geoData) (rb_offsetFromSlice (positionBuffer geoData)) in
  exists future submitted,
    computeAxisAlignedBoundingBox options w geoData = Ret (future, submitted)
    /\ valid future = needsMeshBoundingBox options && negb (p =? 0)
    /\ (valid future = false -> submitted = [])
    /\ (valid future = true ->
        exists b, rb_buffer (positionBuffer geoData) = Some b
                  /\ submitted = [IncRef b; Schedule]).
Proof.
  cbv zeta. unfold computeAxisAlignedBoundingBox.
  destruct (needsMeshBoundingBox options); cbn [negb andb].
  2: { eexists _, _. split; [done|]. cbn. split_and!; done. }
  destruct (Z.eqb_spec (mapPtr w (positionBuffer geoData)
                          (rb_offsetFromSlice (positionBuffer geoData))) 0) as [Hp|Hp].
  { eexists _, _. split; [done|]. cbn. split_and!; done. }
  destruct (mapPtr_attached _ _ _ Hp) as [b Hb]. rewrite Hb.
  eexists _, _. split; [done|]. cbn. split_and!; [done|done|]. intros _. by exists b.
Qed.

(** X11. Whatever the vertex count and the stride, the closure scheduled by
    [computeAxisAlignedBoundingBox] runs to its end and undoes the one
    incRef of the submission, on the same buffer. Neither side acquires or
    releases the buffer for reading. *)
Theorem bounding_box_reference_balanced (options : RtxOptions) (w : World)
    (geoData : RasterGeometry) (t : BoundsTask) (submitted : list Event) :
  computeAxisAlignedBoundingBox options w geoData = Ret (Scheduled t, submitted) ->
  exists box worked,
    runBoundsTask w t = Ret (box, worked)
    /\ incRefs submitted = [b_vertexBuffer t]
    /\ decRefs worked = [b_vertexBuffer t]
    /\ acquires submitted = [] /\ releases submitted = [] /\ decRefs submitted = []
    /\ acquires worked = [] /\ releases worked = [] /\ incRefs worked = [].
Proof.
  unfold computeAxisAlignedBoundingBox.
  destruct (needsMeshBoundingBox options); cbn [negb]; [|done].
  destruct (mapPtr w (positionBuffer geoData) _ =? 0); [done|].
  destruct (rb_buffer (positionBuffer geoData)) as [b|]; [|done].
  intros [= <- <-]. rewrite runBoundsTask_eq. eexists _, _. split; [reflexivity|].
  cbn. split_and!; done.
Qed.

Lemma bounding_box_reference_balanced_quad :
  exists t submitted box worked,
    computeAxisAlignedBoundingBox allComponents quadWorld (quadGeometry noBuffer)
      = Ret (Scheduled t, submitted)
    /\ runBoundsTask quadWorld t = Ret (box, worked)
    /\ incRefs submitted = [b_vertexBuffer t]
    /\ decRefs worked = [b_vertexBuffer t]
    /\ acquires submitted = [] /\ releases submitted = [] /\ decRefs submitted = []
    /\ acquires worked = [] /\ releases worked = [] /\ incRefs worked = [].
Proof.
  edestruct (bounding_box_reference_balanced allComponents quadWorld (quadGeometry noBuffer))
    as (box & worked & Hb).
  - vm_compute. reflexivity.
  - eexists _, _, box, worked. split; [|exact Hb]. vm_compute. reflexivity.
Defined.

(** ** The bounding box of vertices that are not numbers, or not finite *)

(** Comparison of two floats that are not NaN is comparison of their keys. *)
Lemma f32_lt_no_nan (a b : Z) :
  f32_is_nan a = false -> f32_is_nan b = false ->
  f32_lt a b = (f32_key a <? f32_key b).
Proof. unfold f32_lt. by intros -> ->. Qed.

Lemma min_ss_no_nan (a b : Z) :
  f32_is_nan a = false -> f32_is_nan b = false ->
  f32_is_nan (min_ss a b) = false
  /\ f32_key (min_ss a b) = Z.min (f32_key a) (f32_key b).
Proof.
  intros Ha Hb. unfold min_ss. rewrite f32_lt_no_nan by done.
  destruct (Z.ltb_spec (f32_key a) (f32_key b)); split; (done || lia).
Qed.

Lemma max_ss_no_nan (a b : Z) :
  f32_is_nan a = false -> f32_is_nan b = false ->
  f32_is_nan (max_ss a b) = false
  /\ f32_key (max_ss a b) = Z.max (f32_key a) (f32_key b).
Proof.
  intros Ha Hb. unfold max_ss. rewrite f32_lt_no_nan by done.
  destruct (Z.ltb_spec (f32_key b) (f32_key a)); split; (done || lia).
Qed.

Lemma foldl_min_ss_no_nan (l : list Z) (a : Z) :
  f32_is_nan a = false ->
  Forall (fun v => f32_is_nan v = false) l ->
  f32_key (foldl min_ss a l) = foldl Z.min (f32_key a) (f32_key <$> l).
Proof.
  revert a. induction l as [|v l IH]; intros a Ha Hl; [done|].
  apply Forall_cons in Hl as [Hv Hl]. cbn [foldl fmap list_fmap].
  destruct (min_ss_no_nan a v Ha Hv) as [Hn Hk]. by rewrite IH, Hk.
Qed.

Lemma foldl_max_ss_no_nan (l : list Z) (a : Z) :
  f32_is_nan a = false ->
  Forall (fun v => f32_is_nan v = false) l ->
  f32_key (foldl max_ss a l) = foldl Z.max (f32_key a) (f32_key <$> l).
Proof.
  revert a. induction l as [|v l IH]; intros a Ha Hl; [done|].
  apply Forall_cons in Hl as [Hv Hl]. cbn [foldl fmap list_fmap].
  destruct (max_ss_no_nan a v Ha Hv) as [Hn Hk]. by rewrite IH, Hk.
Qed.

Lemma foldl_Zmin_le (l : list Z) (a : Z) :
  foldl Z.min a l <= a /\ Forall (fun v => foldl Z.min a l <= v) l.
Proof.
  revert a. induction l as [|v l IH]; intros a; cbn [foldl]; [split; [lia|constructor]|].
  destruct (IH (Z.min a v)) as [Hle Hall]. split; [lia|].
  constructor; [lia|done].
Qed.

Lemma foldl_Zmax_ge (l : list Z) (a : Z) :
  a <= foldl Z.max a l /\ Forall (fun v => v <= foldl Z.max a l) l.
Proof.
  revert a. induction l as [|v l IH]; intros a; cbn [foldl]; [split; [lia|constructor]|].
  destruct (IH (Z.max a v)) as [Hle Hall]. split; [lia|].
  constructor; [lia|done].
Qed.

(** The corners delivered by the closure, coordinate by coordinate. *)
Lemma runBoundsTask_coord (w : World) (t : BoundsTask) :
  exists box,
    runBoundsTask w t = Ret (box, [DecRef (b_vertexBuffer t)])
    /\ forall a,
         let cs := coord a <$> stream (mem w) (b_vertexStride t) (b_pVertexData t)
                                 (Z.to_nat (b_vertexCount t)) in
         coord a (minPos box) = foldl min_ss FLT_MAX cs
         /\ coord a (maxPos box) = foldl max_ss (f32_neg FLT_MAX) cs.
Proof.
  rewrite runBoundsTask_eq. cbv zeta. eexists. split; [reflexivity|].
  intros [| |]; cbn [coord minPos maxPos Vector3.x Vector3.y Vector3.z]; done.
Qed.

(** What [computeAxisAlignedBoundingBox] and its closure deliver when
    bounding boxes are enabled and the position pointer is not null. *)
Lemma bounding_box_coord (options : RtxOptions) (w : World) (geoData : RasterGeometry) :
  needsMeshBoundingBox options = true ->
  mapPtr w (positionBuffer geoData) (rb_offsetFromSlice (positionBuffer geoData)) <> 0 ->
  exists b t box,
    computeAxisAlignedBoundingBox options w geoData = Ret (Scheduled t, [IncRef b; Schedule])
    /\ runBoundsTask w t = Ret (box, [DecRef b])
    /\ forall a,
         coord a (minPos box) = foldl min_ss FLT_MAX (coord a <$> positionsOf w geoData)
         /\ coord a (maxPos box)
            = foldl max_ss (f32_neg FLT_MAX) (coord a <$> positionsOf w geoData).
Proof.
  intros Hneeds Hptr. destruct (mapPtr_attached _ _ _ Hptr) as [b Hbuf].
  exists b. eexists.
  destruct (runBoundsTask_coord w
              {| b_pVertexData :=
                   mapPtr w (positionBuffer geoData)
                     (rb_offsetFromSlice (positionBuffer geoData));
                 b_vertexCount := wrap32 (vertexCount geoData);
                 b_vertexStride := rb_stride (positionBuffer geoData);
                 b_vertexBuffer := b |}) as (box & Hrun & Hbox).
  exists box. split; [by apply computeAxisAlignedBoundingBox_scheduled|].
  split; [exact Hrun|]. exact Hbox.
Qed.

(** X12. For position vectors without NaN, infinities included, and any
    vertex count, each coordinate of the min corner is, as a number, the
    least of FLT_MAX and the vertices' coordinates, and each coordinate of
    the max corner the greatest of -FLT_MAX and the vertices' coordinates.
    So the box encloses every vertex, and it is never tighter than
    [FLT_MAX, -FLT_MAX]. *)
Theorem bounding_box_encloses (options : RtxOptions) (w : World)
    (geoData : RasterGeometry) :
  needsMeshBoundingBox options = true ->
  mapPtr w (positionBuffer geoData) (rb_offsetFromSlice (positionBuffer geoData)) <> 0 ->
  Forall no_nan_vector (positionsOf w geoData) ->
  exists b t box,
    computeAxisAlignedBoundingBox options w geoData = Ret (Scheduled t, [IncRef b; Schedule])
    /\ runBoundsTask w t = Ret (box, [DecRef b])
    /\ forall a,
         f32_key (coord a (minPos box))
         = foldl Z.min (f32_key FLT_MAX) (f32_key <$> (coord a <$> positionsOf w geoData))
         /\ f32_key (coord a (maxPos box))
            = foldl Z.max (f32_key (f32_neg FLT_MAX))
                (f32_key <$> (coord a <$> positionsOf w geoData))
         /\ (forall v, v ∈ positionsOf w geoData ->
               f32_key (coord a (minPos box)) <= f32_key (coord a v)
               <= f32_key (coord a (maxPos box)))
         /\ f32_key (coord a (minPos box)) <= f32_key FLT_MAX
         /\ f32_key (f32_neg FLT_MAX) <= f32_key (coord a (maxPos box)).
Proof.
  intros Hneeds Hptr Hnan.
  destruct (bounding_box_coord options w geoData Hneeds Hptr) as (b & t & box & Hc & Hr & Hbox).
  exists b, t, box. split; [done|]. split; [done|]. intros a.
  destruct (Hbox a) as [-> ->].
  assert (Forall (fun v => f32_is_nan v = false) (coord a <$> positionsOf w geoData)) as Ha.
  { apply Forall_fmap. eapply Forall_impl; [exact Hnan|].
    intros v (? & ? & ?). by destruct a. }
  rewrite foldl_min_ss_no_nan, foldl_max_ss_no_nan by done.
  destruct (foldl_Zmin_le (f32_key <$> (coord a <$> positionsOf w geoData)) (f32_key FLT_MAX))
    as [Hmin Hmins].
  destruct (foldl_Zmax_ge (f32_key <$> (coord a <$> positionsOf w geoData))
              (f32_key (f32_neg FLT_MAX))) as [Hmax Hmaxs].
  split_and!; [done|done| |done|done].
  intros v Hv. rewrite Forall_forall in Hmins, Hmaxs.
  assert (f32_key (coord a v) ∈ f32_key <$> (coord a <$> positionsOf w geoData)) as Hin
    by (by do 2 apply list_elem_of_fmap_2).
  split; [by apply Hmins | by apply Hmaxs].
Qed.

Lemma no_nan_vectors_by_check (l : list Vector3.t) :
  forallb (fun v => negb (f32_is_nan (Vector3.x v)) && negb (f32_is_nan (Vector3.y v))
                    && negb (f32_is_nan (Vector3.z v))) l = true ->
  Forall no_nan_vector l.
Proof.
  intros Hall. rewrite forallb_forall in Hall. apply Forall_forall.
  intros v Hv%list_elem_of_In%Hall. unfold no_nan_vector.
  repeat (apply andb_prop in Hv as [Hv ?]). by rewrite <- !negb_true_iff.
Qed.

Lemma bounding_box_encloses_infinite :
  exists b t box,
    computeAxisAlignedBoundingBox allComponents (wordsWorld [0x7F800000; 0; 0]) (points 1)
      = Ret (Scheduled t, [IncRef b; Schedule])
    /\ runBoundsTask (wordsWorld [0x7F800000; 0; 0]) t = Ret (box, [DecRef b])
    /\ forall a,
         f32_key (coord a (minPos box))
         = foldl Z.min (f32_key FLT_MAX)
             (f32_key <$> (coord a <$> positionsOf (wordsWorld [0x7F800000; 0; 0]) (points 1)))
         /\ f32_key (coord a (maxPos box))
            = foldl Z.max (f32_key (f32_neg FLT_MAX))
                (f32_key <$> (coord a <$> positionsOf (wordsWorld [0x7F800000; 0; 0]) (points 1)))
         /\ (forall v, v ∈ positionsOf (wordsWorld [0x7F800000; 0; 0]) (points 1) ->
               f32_key (coord a (minPos box)) <= f32_key (coord a v)
               <= f32_key (coord a (maxPos box)))
         /\ f32_key (coord a (minPos box)) <= f32_key FLT_MAX
         /\ f32_key (f32_neg FLT_MAX) <= f32_key (coord a (maxPos box)).
Proof.
  apply (bounding_box_encloses allComponents (wordsWorld [0x7F800000; 0; 0]) (points 1)).
  - reflexivity.
  - vm_compute. discriminate.
  - apply no_nan_vectors_by_check. vm_compute. reflexivity.
Defined.

(** X13. [MINPS] and [MAXPS] return their second operand when either is a
    NaN, so a NaN coordinate replaces the running minimum and maximum, and
    the next vertex replaces the NaN: in a coordinate in which some vertex
    holds a NaN, the corners are the reduction, started from that NaN, of
    the vertices after it. The vertices before it do not count; when it is
    in the last vertex both corners hold the NaN. *)
Theorem bounding_box_restarts_at_nan (options : RtxOptions) (w : World)
    (geoData : RasterGeometry) (a : Axis) (before after : list Z) (nan : Z) :
  needsMeshBoundingBox options = true ->
  mapPtr w (positionBuffer geoData) (rb_offsetFromSlice (positionBuffer geoData)) <> 0 ->
  coord a <$> positionsOf w geoData = before ++ nan :: after ->
  f32_is_nan nan = true ->
  exists b t box,
    computeAxisAlignedBoundingBox options w geoData = Ret (Scheduled t, [IncRef b; Schedule])
    /\ runBoundsTask w t = Ret (box, [DecRef b])
    /\ coord a (minPos box) = foldl min_ss nan after
    /\ coord a (maxPos box) = foldl max_ss nan after.
Proof.
  intros Hneeds Hptr Hsplit Hnan.
  destruct (bounding_box_coord options w geoData Hneeds Hptr) as (b & t & box & Hc & Hr & Hbox).
  exists b, t, box. split; [done|]. split; [done|].
  destruct (Hbox a) as [-> ->]. rewrite Hsplit, !foldl_app. cbn [foldl].
  assert (forall r, min_ss r nan = nan) as ->.
  { intros r. unfold min_ss, f32_lt. rewrite Hnan.
    by destruct (f32_is_nan r). }
  assert (forall r, max_ss r nan = nan) as ->.
  { intros r. unfold max_ss, f32_lt. by rewrite Hnan. }
  done.
Qed.

Lemma bounding_box_restarts_at_nan_sample :
  exists b t box,
    computeAxisAlignedBoundingBox allComponents
      (wordsWorld [0x42C80000; 0; 0; 0x7FC00000; 0; 0; 0x3F800000; 0; 0]) (points 3)
      = Ret (Scheduled t, [IncRef b; Schedule])
    /\ runBoundsTask (wordsWorld [0x42C80000; 0; 0; 0x7FC00000; 0; 0; 0x3F800000; 0; 0]) t
       = Ret (box, [DecRef b])
    /\ coord AxisX (minPos box) = foldl min_ss 0x7FC00000 [0x3F800000]
    /\ coord AxisX (maxPos box) = foldl max_ss 0x7FC00000 [0x3F800000].
Proof.
  apply (bounding_box_restarts_at_nan allComponents
           (wordsWorld [0x42C80000; 0; 0; 0x7FC00000; 0; 0; 0x3F800000; 0; 0]) (points 3)
           AxisX [0x42C80000] [0x3F800000] 0x7FC00000).
  - reflexivity.
  - vm_compute. discriminate.
  - vm_compute. reflexivity.
  - vm_compute. reflexivity.
Defined.

(** ** What the closure writes, and what selects it *)

(** X14. [hashGeometryData] overwrites only the entries of components that
    are active in the rule (the two legacy position entries being written
    together when either is active): the GeometryDescriptor, VertexLayout
    and VertexShader entries and the combined hash of [hashesOut] are left
    as they are, and so is the entry of every inactive component. *)
Theorem hashGeometryData_writes_active_only
    (H : Hashing) (options : RtxOptions) (w : World)
    (T : IndexArg) (indexCount maxIndexValue pIndexData : Z) (indexBufferRef : option BufId)
    (vertexRegions : VertexRegions.Type_ -> HashQuery) (hashesOut hashes : GeometryHashes)
    (evs : list Event) :
  let rule := geometryHashGenerationRule options in
  hashGeometryData H options w T indexCount maxIndexValue pIndexData indexBufferRef
    vertexRegions hashesOut = Ret (hashes, evs) ->
  (forall c, c ∈ [GeometryDescriptor; VertexLayout; VertexShader] ->
             fields hashes c = fields hashesOut c)
  /\ (forall c, rule c = false ->
                (c ∈ [LegacyPositions0; LegacyPositions1] ->
                 rule LegacyPositions0 = false /\ rule LegacyPositions1 = false) ->
                fields hashes c = fields hashesOut c)
  /\ precombined hashes = precombined hashesOut.
Proof.
  intros rule Hg.
  apply hashGeometryData_fields in Hg
    as (u & _ & HP & HT & HI & HL & HLP & HG & HV & HS & Hpre).
  fold rule in HP, HT, HI, HL, HLP.
  split_and!; [| |done].
  - intros c Hc. repeat (apply elem_of_cons in Hc as [->|Hc]; [done|]).
    by apply elem_of_nil in Hc.
  - intros c Hc Hleg. destruct c.
    + by rewrite HP, Hc.
    + by rewrite HT, Hc.
    + rewrite HI. destruct T; by rewrite ?Hc.
    + rewrite HL. destruct T; by rewrite ?Hc.
    + destruct Hleg as [H0 H1]; [apply elem_of_cons; by left|].
      rewrite H0, H1 in HLP. by injection HLP.
    + destruct Hleg as [H0 H1]; [apply elem_of_cons; right; apply elem_of_cons; by left|].
      rewrite H0, H1 in HLP. by injection HLP.
    + done.
    + done.
    + done.
Qed.

Lemma hashGeometryData_writes_active_only_quad :
  exists hashes evs,
    hashGeometryData fnvHashing positionsAndDescriptor quadWorld (Indexed UInt16) 4 3 8192
      (Some 2%nat) quadRegions markedHashes = Ret (hashes, evs)
    /\ (forall c, c ∈ [GeometryDescriptor; VertexLayout; VertexShader] ->
                  fields hashes c = fields markedHashes c)
    /\ (forall c, geometryHashGenerationRule positionsAndDescriptor c = false ->
                  (c ∈ [LegacyPositions0; LegacyPositions1] ->
                   geometryHashGenerationRule positionsAndDescriptor LegacyPositions0 = false
                   /\ geometryHashGenerationRule positionsAndDescriptor LegacyPositions1 = false) ->
                  fields hashes c = fields markedHashes c)
    /\ precombined hashes = precombined markedHashes.
Proof.
  eexists _, _. split; [vm_compute; reflexivity|].
  eapply (hashGeometryData_writes_active_only fnvHashing positionsAndDescriptor quadWorld
            (Indexed UInt16) 4 3 8192 (Some 2%nat) quadRegions markedHashes).
  vm_compute. reflexivity.
Defined.

(** X15. The VertexShader bit of the hash rule has no effect on the
    hashes (the component loop evaluates it, and the component has no
    vertex region): two operations under rules that differ at most in that
    bit, on the same geometry, memory and shader state, deliver the same
    component hashes and the same buffer events. *)
Theorem vertexShader_rule_bit_unused
    (H : Hashing) (options1 options2 : RtxOptions) (w : World) (vs : VertexShaderState)
    (geoData : RasterGeometry) (maxIndexValue : Z)
    (h1 h2 : GeometryHashes) (s1 k1 s2 k2 : list Event) :
  (forall c, c <> VertexShader ->
             geometryHashGenerationRule options1 c = geometryHashGenerationRule options2 c) ->
  hashOperation H options1 w vs geoData maxIndexValue = Ret (Some h1, s1, k1) ->
  hashOperation H options2 w vs geoData maxIndexValue = Ret (Some h2, s2, k2) ->
  (forall c, fields h1 c = fields h2 c) /\ s1 = s2 /\ k1 = k2.
Proof.
  intros Hrule Hop1 Hop2.
  pose proof Hop1 as (bp1 & Hbp1 & Hs1 & Hk1 & _)%hashOperation_events.
  pose proof Hop2 as (bp2 & Hbp2 & Hs2 & Hk2 & _)%hashOperation_events.
  assert (bp2 = bp1) as -> by congruence.
  split; [|split; congruence].
  apply hashOperation_fields in Hop1
    as (u1 & Hu1 & HP1 & HT1 & HI1 & HL1 & HLP1 & HG1 & HV1 & HS1).
  apply hashOperation_fields in Hop2
    as (u2 & Hu2 & HP2 & HT2 & HI2 & HL2 & HLP2 & HG2 & HV2 & HS2).
  assert (u2 = u1) as -> by congruence.
  rewrite <- (Hrule VertexPosition) in HP2 by done.
  rewrite <- (Hrule VertexTexcoord) in HT2 by done.
  rewrite <- (Hrule Indices) in HI2 by done.
  rewrite <- (Hrule LegacyIndices) in HL2 by done.
  rewrite <- (Hrule LegacyPositions0), <- (Hrule LegacyPositions1) in HLP2 by done.
  rewrite <- (Hrule GeometryDescriptor) in HG2 by done.
  rewrite <- (Hrule VertexLayout) in HV2 by done.
  assert (computeVertexShaderHash H options2 vs = computeVertexShaderHash H options1 vs) as HS.
  { unfold computeVertexShaderHash. by rewrite (Hrule GeometryDescriptor). }
  rewrite <- HLP1 in HLP2. injection HLP2 as HL0 HL1'.
  intros []; congruence.
Qed.

Lemma vertexShader_rule_bit_unused_quad :
  exists h1 h2 s1 k1 s2 k2,
    hashOperation fnvHashing allComponents quadWorld programmable
      (quadGeometry (indexBuffer16 2%nat)) 3 = Ret (Some h1, s1, k1)
    /\ hashOperation fnvHashing allButVertexShader quadWorld programmable
         (quadGeometry (indexBuffer16 2%nat)) 3 = Ret (Some h2, s2, k2)
    /\ (forall c, fields h1 c = fields h2 c) /\ s1 = s2 /\ k1 = k2.
Proof.
  eexists _, _, _, _, _, _.
  split; [vm_compute; reflexivity|]. split; [vm_compute; reflexivity|].
  eapply (vertexShader_rule_bit_unused fnvHashing allComponents allButVertexShader
            quadWorld programmable (quadGeometry (indexBuffer16 2%nat)) 3);
    [|vm_compute; reflexivity | vm_compute; reflexivity].
  intros c Hc. by destruct c.
Defined.

(** X16. Without a programmable vertex shader, or without vertex capture,
    [computeHash] computes no shader hash: the VertexShader entry is the
    empty hash whatever the rule. *)
Theorem fixed_function_vertexShader_hash_empty
    (H : Hashing) (options : RtxOptions) (w : World) (vs : VertexShaderState)
    (geoData : RasterGeometry) (maxIndexValue : Z)
    (hashes : GeometryHashes) (submitted worked : list Event) :
  UseProgrammableVS vs && useVertexCapture vs = false ->
  hashOperation H options w vs geoData maxIndexValue = Ret (Some hashes, submitted, worked) ->
  fields hashes VertexShader = kEmptyHash H.
Proof.
  intros Hfixed Hop.
  apply hashOperation_fields in Hop as (u & _ & _ & _ & _ & _ & _ & _ & _ & HS).
  rewrite HS. unfold computeVertexShaderHash. by rewrite Hfixed.
Qed.

Lemma fixed_function_vertexShader_hash_empty_quad :
  exists hashes submitted worked,
    hashOperation fnvHashing allComponents quadWorld fixedFunction
      (quadGeometry (indexBuffer16 2%nat)) 3 = Ret (Some hashes, submitted, worked)
    /\ geometryHashGenerationRule allComponents VertexShader = true
    /\ fields hashes VertexShader = kEmptyHash fnvHashing.
Proof.
  eexists _, _, _. split; [vm_compute; reflexivity|]. split; [reflexivity|].
  eapply (fixed_function_vertexShader_hash_empty fnvHashing allComponents quadWorld
            fixedFunction (quadGeometry (indexBuffer16 2%nat)) 3);
    [reflexivity | vm_compute; reflexivity].
Defined.

(** ** What the bounding box closure reads *)

Lemma load_Vector3_ext (m1 m2 : Memory) (p1 p2 : Z) :
  (forall k, 0 <= k < 12 -> m1 (p1 + k) = m2 (p2 + k)) ->
  load_Vector3 m1 p1 = load_Vector3 m2 p2.
Proof.
  intros Hk. unfold load_Vector3, load_f32.
  rewrite (read_bytes_ext m1 m2 p1 p2 4) by (intros k ?; apply Hk; lia).
  rewrite (read_bytes_ext m1 m2 (p1 + 4) (p2 + 4) 4)
    by (intros k ?; rewrite <- !Z.add_assoc; apply Hk; lia).
  rewrite (read_bytes_ext m1 m2 (p1 + 8) (p2 + 8) 4)
    by (intros k ?; rewrite <- !Z.add_assoc; apply Hk; lia).
  done.
Qed.

Lemma stream_ext (m1 m2 : Memory) (stride p1 p2 : Z) (n : nat) :
  (forall i k, 0 <= i < Z.of_nat n -> 0 <= k < 12 ->
               m1 (p1 + i * stride + k) = m2 (p2 + i * stride + k)) ->
  stream m1 stride p1 n = stream m2 stride p2 n.
Proof.
  revert p1 p2. induction n as [|n IH]; intros p1 p2 Hag; [done|].
  cbn [stream]. f_equal.
  - apply load_Vector3_ext. intros k Hk.
    specialize (Hag 0 k). rewrite !Z.mul_0_l, !Z.add_0_r in Hag. apply Hag; lia.
  - apply IH. intros i k Hi Hk.
    replace (p1 + stride + i * stride) with (p1 + (i + 1) * stride) by ring.
    replace (p2 + stride + i * stride) with (p2 + (i + 1) * stride) by ring.
    apply Hag; lia.
Qed.

(** X17. The closure of [computeAxisAlignedBoundingBox] reads the twelve
    bytes of each of the [vertexCount] position vectors, [vertexStride]
    apart, and nothing else: two runs whose memories agree on those bytes,
    wherever the stream is mapped, deliver the same box and the same
    event, whatever else the memories hold, between the vectors
    included. *)
Theorem bounding_box_reads_positions_only (w1 w2 : World) (t1 t2 : BoundsTask) :
  b_vertexCount t2 = b_vertexCount t1 ->
  b_vertexStride t2 = b_vertexStride t1 ->
  b_vertexBuffer t2 = b_vertexBuffer t1 ->
  (forall i k, 0 <= i < b_vertexCount t1 -> 0 <= k < 12 ->
     mem w1 (b_pVertexData t1 + i * b_vertexStride t1 + k)
     = mem w2 (b_pVertexData t2 + i * b_vertexStride t1 + k)) ->
  runBoundsTask w1 t1 = runBoundsTask w2 t2.
Proof.
  intros Hc Hs Hb Hag. rewrite !runBoundsTask_eq. cbv zeta. rewrite Hc, Hs, Hb.
  rewrite (stream_ext (mem w1) (mem w2) (b_vertexStride t1)
             (b_pVertexData t1) (b_pVertexData t2) (Z.to_nat (b_vertexCount t1))); [done|].
  intros i k Hi Hk. apply Hag; lia.
Qed.

Lemma positions_agree_by_check (m1 m2 : Memory) (stride p1 p2 n : Z) :
  forallb (fun i => forallb (fun k => Byte.eqb (m1 (p1 + i * stride + k))
                                        (m2 (p2 + i * stride + k)))
                      (seqZ 0 12))
    (seqZ 0 n) = true ->
  forall i k, 0 <= i < n -> 0 <= k < 12 ->
    m1 (p1 + i * stride + k) = m2 (p2 + i * stride + k).
Proof.
  intros Hall i k Hi Hk. rewrite forallb_forall in Hall.
  assert (In i (seqZ 0 n)) as Hin by (apply list_elem_of_In, elem_of_seqZ; lia).
  apply Hall in Hin. rewrite forallb_forall in Hin.
  apply Byte.byte_dec_bl, Hin, list_elem_of_In, elem_of_seqZ. lia.
Qed.

Lemma bounding_box_reads_positions_only_quad :
  runBoundsTask quadWorld
    {| b_pVertexData := 4096; b_vertexCount := 4; b_vertexStride := 12;
       b_vertexBuffer := 1%nat |}
  = runBoundsTask movedWorld
      {| b_pVertexData := 20480; b_vertexCount := 4; b_vertexStride := 12;
         b_vertexBuffer := 1%nat |}.
Proof.
  apply (bounding_box_reads_positions_only quadWorld movedWorld
           {| b_pVertexData := 4096; b_vertexCount := 4; b_vertexStride := 12;
              b_vertexBuffer := 1%nat |}
           {| b_pVertexData := 20480; b_vertexCount := 4; b_vertexStride := 12;
              b_vertexBuffer := 1%nat |}); [reflexivity | reflexivity | reflexivity |].
  apply positions_agree_by_check. vm_compute. reflexivity.
Defined.

(** ** The upscaler's automatic profile *)

Lemma getAutoProfile_bounds (graphicsPreset : GraphicsPreset.t)
    (displayWidth displayHeight : Z) :
  0 <= getAutoProfile graphicsPreset displayWidth displayHeight <= 3.
Proof.
  unfold getAutoProfile.
  destruct (displayHeight <=? 1080); [|destruct (displayHeight <? 2160);
    [|destruct (displayHeight <? 4320)]];
    destruct graphicsPreset; vm_compute; split; discriminate.
Qed.

(** X18. [getAutoProfile] returns one of the four scaled profiles, from
    UltraPerf to MaxQuality, for every display size and preset: never Auto,
    FullResolution or Invalid. The preset bias stops at UltraPerf. *)
Theorem getAutoProfile_range (graphicsPreset : GraphicsPreset.t)
    (displayWidth displayHeight : Z) :
  FSR3Profile.UltraPerf <= getAutoProfile graphicsPreset displayWidth displayHeight
  <= FSR3Profile.MaxQuality.
Proof.
  unfold getAutoProfile, FSR3Profile.UltraPerf, FSR3Profile.MaxQuality.
  destruct (Z.leb_spec displayHeight 1080) as [?|H1]; [by destruct graphicsPreset|].
  destruct (Z.ltb_spec displayHeight 2160) as [?|H2]; [by destruct graphicsPreset|].
  destruct (Z.ltb_spec displayHeight 4320) as [?|H3]; by destruct graphicsPreset.
Qed.

(** X19. [getAutoProfile] does not look at the width, and it never gives a
    taller display a profile of higher quality. At one display height the
    preset Low gives at most the profile of Medium, and Medium at most the
    profile of the other presets. *)
Theorem getAutoProfile_monotone (graphicsPreset : GraphicsPreset.t)
    (width1 width2 height1 height2 : Z) :
  height1 <= height2 ->
  getAutoProfile graphicsPreset width2 height2 <= getAutoProfile graphicsPreset width1 height1
  /\ getAutoProfile GraphicsPreset.Low width1 height1
     <= getAutoProfile GraphicsPreset.Medium width2 height1
     <= getAutoProfile GraphicsPreset.Other width1 height1.
Proof.
  intros Hle. unfold getAutoProfile.
  destruct (Z.leb_spec height1 1080), (Z.ltb_spec height1 2160), (Z.ltb_spec height1 4320),
    (Z.leb_spec height2 1080), (Z.ltb_spec height2 2160), (Z.ltb_spec height2 4320);
    try lia; destruct graphicsPreset; vm_compute; split_and!; discriminate.
Qed.

Lemma getAutoProfile_monotone_sample :
  getAutoProfile GraphicsPreset.Other 3840 2160 <= getAutoProfile GraphicsPreset.Other 1920 1080
  /\ getAutoProfile GraphicsPreset.Low 1920 1080
     <= getAutoProfile GraphicsPreset.Medium 3840 1080
     <= getAutoProfile GraphicsPreset.Other 1920 1080.
Proof.
  apply (getAutoProfile_monotone GraphicsPreset.Other 1920 3840 1080 2160). lia.
Defined.

(** ** The upscaler's settings *)

Lemma pair_eqb_eq (a b : Z * Z) :
  (fst a =? fst b) && (snd a =? snd b) = true -> a = b.
Proof.
  destruct a, b. cbn. intros [?%Z.eqb_eq ?%Z.eqb_eq]%andb_prop. by subst.
Qed.

(** The state [setSetting] leaves, on either path. *)
Lemma setSetting_state (graphicsPreset : GraphicsPreset.t) (scaledSize : Z * Z)
    (self : DxvkFSR3) (displaySize : Z * Z) (profile : FSR3Profile.t) :
  mFSR3OutputSize (setSetting graphicsPreset scaledSize self displaySize profile).1
  = displaySize
  /\ mInputSize (setSetting graphicsPreset scaledSize self displaySize profile).1
     = (setSetting graphicsPreset scaledSize self displaySize profile).2
  /\ mActualProfile (setSetting graphicsPreset scaledSize self displaySize profile).1
     = (if profile =? FSR3Profile.Auto
        then getAutoProfile graphicsPreset (fst displaySize) (snd displaySize)
        else profile).
Proof.
  unfold setSetting.
  set (actualProfile := if profile =? FSR3Profile.Auto then _ else profile).
  destruct (Z.eqb_spec (mActualProfile self) actualProfile) as [Hp|Hp]; cbn [andb].
  - destruct ((fst displaySize =? fst (mFSR3OutputSize self))
              && (snd displaySize =? snd (mFSR3OutputSize self))) eqn:Hd.
    + apply pair_eqb_eq in Hd. cbn. split_and!; done.
    + cbn. split_and!; done.
  - cbn. split_and!; done.
Qed.

(** A profile with Auto resolved is a named profile other than Auto. *)
Lemma resolved_profile_not_Auto (graphicsPreset : GraphicsPreset.t) (displaySize : Z * Z)
    (profile : FSR3Profile.t) :
  ((if profile =? FSR3Profile.Auto
    then getAutoProfile graphicsPreset (fst displaySize) (snd displaySize)
    else profile) =? FSR3Profile.Auto) = false.
Proof.
  destruct (profile =? FSR3Profile.Auto) eqn:E; [|done].
  pose proof (getAutoProfile_bounds graphicsPreset (fst displaySize) (snd displaySize)).
  apply Z.eqb_neq. unfold FSR3Profile.Auto. lia.
Qed.

(** X20. After [setSetting], on either path, the object's output size is
    the display size asked for, its current profile is the profile asked
    for with Auto resolved by [getAutoProfile] (so it is never Auto), and
    the render size returned is the object's input size. *)
Theorem setSetting_getters (graphicsPreset : GraphicsPreset.t) (scaledSize : Z * Z)
    (self : DxvkFSR3) (displaySize : Z * Z) (profile : FSR3Profile.t) :
  let '(self', outRenderSize) :=
    setSetting graphicsPreset scaledSize self displaySize profile in
  getOutputSize self' = displaySize
  /\ getInputSize self' = outRenderSize
  /\ getCurrentProfile self'
     = (if profile =? FSR3Profile.Auto
        then getAutoProfile graphicsPreset (fst displaySize) (snd displaySize)
        else profile)
  /\ (getCurrentProfile self' =? FSR3Profile.Auto) = false.
Proof.
  pose proof (setSetting_state graphicsPreset scaledSize self displaySize profile) as Hs.
  destruct (setSetting graphicsPreset scaledSize self displaySize profile) as [self' out].
  destruct Hs as (Ho & Hi & Hp). cbn [fst snd] in Ho, Hi, Hp.
  unfold getOutputSize, getInputSize, getCurrentProfile.
  split_and!; [done|done|done|]. rewrite Hp. apply resolved_profile_not_Auto.
Qed.

(** X21. A call of [setSetting] with the arguments of the call before it
    finds nothing changed: it leaves the object as it is and returns the
    same render size, without computing one. *)
Theorem setSetting_repeated (graphicsPreset : GraphicsPreset.t)
    (scaledSize1 scaledSize2 : Z * Z)
    (self : DxvkFSR3) (displaySize : Z * Z) (profile : FSR3Profile.t) :
  let '(self', outRenderSize) :=
    setSetting graphicsPreset scaledSize1 self displaySize profile in
  setSetting graphicsPreset scaledSize2 self' displaySize profile = (self', outRenderSize).
Proof.
  pose proof (setSetting_state graphicsPreset scaledSize1 self displaySize profile) as Hs.
  destruct (setSetting graphicsPreset scaledSize1 self displaySize profile) as [self' out].
  destruct Hs as (Ho & Hi & Hp). cbn [fst snd] in *. unfold setSetting.
  rewrite Hp, Ho, !Z.eqb_refl. cbn [andb]. by rewrite Hi.
Qed.

(** X22. [setSetting] keeps the input size of an object that runs at full
    resolution equal to its output size; with that, as in a new object, a
    request for FullResolution returns the display size. *)
Theorem setSetting_full_resolution (graphicsPreset : GraphicsPreset.t) (scaledSize : Z * Z)
    (self : DxvkFSR3) (displaySize : Z * Z) (profile : FSR3Profile.t) :
  full_resolution_sizes self ->
  let '(self', outRenderSize) :=
    setSetting graphicsPreset scaledSize self displaySize profile in
  full_resolution_sizes self'
  /\ (profile = FSR3Profile.FullResolution -> outRenderSize = displaySize).
Proof.
  intros Hinv. unfold setSetting, full_resolution_sizes in *.
  assert (forall actualProfile,
            actualProfile = (if profile =? FSR3Profile.Auto
                             then getAutoProfile graphicsPreset (fst displaySize)
                                    (snd displaySize)
                             else profile) ->
            actualProfile = FSR3Profile.FullResolution ->
            profile = FSR3Profile.FullResolution) as Hfull.
  { intros a -> Ha. destruct (Z.eqb_spec profile FSR3Profile.Auto) as [->|_]; [|done].
    pose proof (getAutoProfile_bounds graphicsPreset (fst displaySize) (snd displaySize)).
    unfold FSR3Profile.FullResolution in *. lia. }
  set (actualProfile := if profile =? FSR3Profile.Auto then _ else profile) in *.
  specialize (Hfull actualProfile eq_refl).
  destruct (Z.eqb_spec (mActualProfile self) actualProfile) as [Hp|Hp]; cbn [andb].
  - destruct ((fst displaySize =? fst (mFSR3OutputSize self))
              && (snd displaySize =? snd (mFSR3OutputSize self))) eqn:Hd.
    + apply pair_eqb_eq in Hd. split; [done|]. intros ->.
      subst actualProfile. cbn in Hp. by rewrite Hinv.
    + cbn. split; [|by intros ->]. intros ->%Hfull. done.
  - cbn. split; [|by intros ->]. intros ->%Hfull. done.
Qed.

Lemma setSetting_full_resolution_new :
  let '(self', outRenderSize) :=
    setSetting GraphicsPreset.Other (1280, 720) newDxvkFSR3 (1920, 1080)
      FSR3Profile.FullResolution in
  full_resolution_sizes self'
  /\ (FSR3Profile.FullResolution = FSR3Profile.FullResolution -> outRenderSize = (1920, 1080)).
Proof.
  apply (setSetting_full_resolution GraphicsPreset.Other (1280, 720) newDxvkFSR3 (1920, 1080)
           FSR3Profile.FullResolution).
  intros Hfull. discriminate Hfull.
Defined.

(** ** The adapter filter *)

Lemma find_empty (s : String.string) : StdString.find s String.EmptyString = Some 0%nat.
Proof. by destruct s. Qed.

(** X23. A filter made by the constructor accepts an adapter exactly when
    the adapter reports Vulkan 1.1 or later, is not a CPU device that the
    SkipCpuDevices flag excludes, and has a name in which the value of
    DXVK_FILTER_DEVICE_NAME occurs. The MatchDeviceName flag the caller
    passes has no effect: a value that is not empty sets it, and the empty
    value occurs in every name. *)
Theorem testAdapter_accepts (DXVK_FILTER_DEVICE_NAME : String.string)
    (flags : DxvkDeviceFilterFlags) (properties : VkPhysicalDeviceProperties) :
  testAdapter (newDxvkDeviceFilter DXVK_FILTER_DEVICE_NAME flags) properties
  = (VK_MAKE_VERSION 1 1 0 <=? apiVersion properties)
    && negb (SkipCpuDevices flags
             && (deviceType properties =? VK_PHYSICAL_DEVICE_TYPE_CPU))
    && bool_decide (is_Some (StdString.find (deviceName properties)
                               DXVK_FILTER_DEVICE_NAME)).
Proof.
  unfold testAdapter, newDxvkDeviceFilter. cbn [m_flags m_matchDeviceName].
  destruct (Z.ltb_spec (apiVersion properties) (VK_MAKE_VERSION 1 1 0)) as [Hv|Hv].
  { by rewrite (proj2 (Z.leb_gt _ _)) by done. }
  rewrite (proj2 (Z.leb_le _ _)) by done. cbn [andb].
  assert (SkipCpuDevices
            (if negb (String.length DXVK_FILTER_DEVICE_NAME =? 0)%nat
             then {| MatchDeviceName := true; SkipCpuDevices := SkipCpuDevices flags |}
             else flags) = SkipCpuDevices flags) as ->
    by (by destruct (negb _)).
  destruct (SkipCpuDevices flags && (deviceType properties =? VK_PHYSICAL_DEVICE_TYPE_CPU));
    [done|]. cbn [negb andb].
  destruct DXVK_FILTER_DEVICE_NAME as [|c name]; cbn [String.length Nat.eqb negb].
  - rewrite find_empty. rewrite bool_decide_eq_false_2 by done.
    rewrite andb_false_r. by rewrite bool_decide_eq_true_2.
  - cbn [MatchDeviceName andb].
    destruct (StdString.find (deviceName properties) (String.String c name)) as [i|].
    + rewrite bool_decide_eq_false_2 by done. by rewrite bool_decide_eq_true_2.
    + rewrite bool_decide_eq_true_2 by done. rewrite bool_decide_eq_false_2; [done|].
      by intros [? [=]].
Qed.

(** ** The bounding box of a stream with stride 0 *)

Lemma stream_stride_zero (m : Memory) (p : Z) (n : nat) :
  stream m 0 p n = replicate n (load_Vector3 m p).
Proof.
  induction n as [|n IH]; [done|]. cbn [stream replicate]. by rewrite Z.add_0_r, IH.
Qed.

Lemma foldl_min_ss_replicate (x : Z) (n : nat) :
  f32_is_finite x = true -> foldl min_ss FLT_MAX (replicate (S n) x) = x.
Proof.
  intros Hx. cbn [replicate foldl].
  assert (min_ss FLT_MAX x = x) as ->.
  { unfold min_ss. rewrite f32_lt_finite by done.
    pose proof (f32_key_finite x Hx).
    by destruct (Z.ltb_spec (f32_key FLT_MAX) (f32_key x)); [lia|]. }
  induction n as [|n IH]; [done|]. cbn [replicate foldl].
  assert (min_ss x x = x) as -> by (unfold min_ss; by destruct (f32_lt x x)). done.
Qed.

Lemma foldl_max_ss_replicate (x : Z) (n : nat) :
  f32_is_finite x = true -> foldl max_ss (f32_neg FLT_MAX) (replicate (S n) x) = x.
Proof.
  intros Hx. cbn [replicate foldl].
  assert (max_ss (f32_neg FLT_MAX) x = x) as ->.
  { unfold max_ss. rewrite f32_lt_finite by done.
    pose proof (f32_key_finite x Hx).
    change (f32_key (f32_neg FLT_MAX)) with (- f32_key FLT_MAX).
    by destruct (Z.ltb_spec (f32_key x) (- f32_key FLT_MAX)); [lia|]. }
  induction n as [|n IH]; [done|]. cbn [replicate foldl].
  assert (max_ss x x = x) as -> by (unfold max_ss; by destruct (f32_lt x x)). done.
Qed.

(** X24. With a vertex stride of 0 the closure reads the same position
    vector [vertexCount] times: for at least one vertex, and finite
    coordinates, both corners of the box are that vector, bit for bit. *)
Theorem bounding_box_stride_zero (w : World) (t : BoundsTask) :
  b_vertexStride t = 0 ->
  1 <= b_vertexCount t ->
  finite_vector (load_Vector3 (mem w) (b_pVertexData t)) ->
  runBoundsTask w t
  = Ret ({| minPos := load_Vector3 (mem w) (b_pVertexData t);
            maxPos := load_Vector3 (mem w) (b_pVertexData t) |},
         [DecRef (b_vertexBuffer t)]).
Proof.
  intros Hs Hn (Hx & Hy & Hz). rewrite runBoundsTask_eq. cbv zeta.
  rewrite Hs, stream_stride_zero.
  destruct (Z.to_nat (b_vertexCount t)) as [|n] eqn:E; [lia|].
  rewrite !fmap_replicate.
  rewrite !foldl_min_ss_replicate, !foldl_max_ss_replicate by done.
  done.
Qed.

Lemma bounding_box_stride_zero_sample :
  runBoundsTask (wordsWorld [0x3F800000; 0x40000000; 0xC0400000; 7; 7; 7])
    {| b_pVertexData := 4096; b_vertexCount := 3; b_vertexStride := 0;
       b_vertexBuffer := 1%nat |}
  = Ret ({| minPos := load_Vector3 (mem (wordsWorld [0x3F800000; 0x40000000; 0xC0400000; 7; 7; 7]))
                        4096;
            maxPos := load_Vector3 (mem (wordsWorld [0x3F800000; 0x40000000; 0xC0400000; 7; 7; 7]))
                        4096 |},
         [DecRef 1%nat]).
Proof.
  apply (bounding_box_stride_zero (wordsWorld [0x3F800000; 0x40000000; 0xC0400000; 7; 7; 7])
           {| b_pVertexData := 4096; b_vertexCount := 3; b_vertexStride := 0;
              b_vertexBuffer := 1%nat |}); [reflexivity | cbn; lia |].
  split_and!; vm_compute; reflexivity.
Defined.
